(** * featureservice: page planning, page fetching and response decoding

    A shallow embedding of [index.js] (the [FeatureService] class): the
    constructor, the metadata resolver, the three page builders
    ([_offsetPages], [_rangePages], [_idPages]), the response decoder
    ([_decode]) and the retry logic ([_catchErrors], [_abortPaging]).

    Conventions of the embedding.
    - JavaScript values are the inductive [val]: the values of JSON
      texts and the objects the program builds from them.  A property
      never holds a function.  Numbers are the integers a double holds
      exactly, written as [Z]; the arithmetic of the program is exact on
      the safe integers ([safe_integer]), and the properties that
      compute with numbers are stated for them.
    - A node-style callback is modelled by what it is called with:
      [Yield a] for [callback(null, a)], [Fail e] for [callback(e)], and
      [Crash] when an exception escapes before any callback is called.
    - Diagnostics ([console.log], [console.trace]) are not modelled. *)

From Stdlib Require Import ZArith QArith String Ascii List Bool Lia DecimalString
  DecimalZ FinFun Sorting.Sorted Permutation.
Import ListNotations.
Close Scope Q_scope.
Open Scope string_scope.
Open Scope Z_scope.

(* ================================================================== *)
(** ** JavaScript values and the coercions the program relies on *)
(* ================================================================== *)

Module JS.

(** A JavaScript value.  An array carries its elements and, like every
    JavaScript object, a table of named properties that the program may
    add to it ([error.message = ...] on an array-valued payload).  Object
    properties are an association list in insertion order, the order
    [Object.keys] and [JSON.stringify] observe. *)
#[warnings="-register-all"]
Inductive val : Type :=
| VUndef
| VNull
| VBool (b : bool)
| VNum (n : Z)
| VStr (s : string)
| VArr (elems : list val) (props : list (string * val))
| VObj (props : list (string * val)).

(** [if (v)], [!v] and [a || b]. *)
Definition truthy (v : val) : bool :=
  match v with
  | VUndef | VNull => false
  | VBool b => b
  | VNum n => negb (n =? 0)
  | VStr s => negb (s =? "")%string
  | VArr _ _ | VObj _ => true
  end.

Definition js_or (a b : val) : val := if truthy a then a else b.

Fixpoint assoc (k : string) (l : list (string * val)) : val :=
  match l with
  | [] => VUndef
  | (k', v) :: l' => if (k =? k')%string then v else assoc k l'
  end.

(** Assignment to a property keeps the position of an existing key and
    appends a new one. *)
Fixpoint assoc_set (k : string) (x : val) (l : list (string * val))
  : list (string * val) :=
  match l with
  | [] => [(k, x)]
  | (k', v) :: l' =>
      if (k =? k')%string then (k', x) :: l' else (k', v) :: assoc_set k x l'
  end.

(** [v.k] for the property names the program reads ([error], [fields],
    [type], [name], [count], ...), none of which lives on a built-in
    prototype.  [None] is the [TypeError] of reading a property of
    [undefined] or [null]. *)
Definition get (v : val) (k : string) : option val :=
  match v with
  | VUndef | VNull => None
  | VBool _ | VNum _ | VStr _ => Some VUndef
  | VArr _ ps => Some (assoc k ps)
  | VObj ps => Some (assoc k ps)
  end.

(** [v.k = x] (sloppy mode: silently ignored on a primitive). *)
Definition set (v : val) (k : string) (x : val) : option val :=
  match v with
  | VUndef | VNull => None
  | VBool _ | VNum _ | VStr _ => Some v
  | VArr es ps => Some (VArr es (assoc_set k x ps))
  | VObj ps => Some (VObj (assoc_set k x ps))
  end.

(** [k] is an own property. *)
Definition has_key (k : string) (ps : list (string * val)) : bool :=
  existsb (fun p => (fst p =? k)%string) ps.

(** The integers on which the arithmetic of doubles is exact:
    [Number.isSafeInteger]. *)
Definition safe_integer (n : Z) : Prop :=
  - 9007199254740991 <= n <= 9007199254740991.

(** Integers whose sums and differences two by two are safe integers. *)
Definition half_safe (n : Z) : Prop :=
  - 4503599627370495 <= n <= 4503599627370495.

(** Number-to-string conversion of an integer: its decimal numeral.
    This is the text of every number below 1e21 in magnitude, the safe
    integers among them; past 1e21 the text takes the exponent form,
    which is not modelled. *)
Definition string_of_Z (n : Z) : string := NilZero.string_of_int (Z.to_int n).

Fixpoint join (sep : string) (l : list string) : string :=
  match l with
  | [] => ""
  | [s] => s
  | s :: l' => s ++ sep ++ join sep l'
  end.

(** The conversion of [v] to a primitive does not throw.  An object
    is converted by its [toString]; an own property of that name holds
    no function and hides the inherited one, the inherited [valueOf]
    returns the object itself, and the conversion ends in a
    [TypeError].  An array is converted by joining the conversions of
    its elements, unless an own property hides [join]. *)
Fixpoint converts (v : val) : bool :=
  match v with
  | VArr es ps =>
      negb (has_key "toString" ps)
      && (has_key "join" ps
          || forallb (fun e => converts e) es)
  | VObj ps => negb (has_key "toString" ps)
  | _ => true
  end.

(** [ToString]: what [x + ''] and string concatenation produce, for a
    value that converts ([converts]) and whose numbers print as
    decimal numerals. *)
Fixpoint ToString (v : val) : string :=
  match v with
  | VUndef => "undefined"
  | VNull => "null"
  | VBool true => "true"
  | VBool false => "false"
  | VNum n => string_of_Z n
  | VStr s => s
  | VArr es ps =>
      if has_key "join" ps then "[object Array]"
      else
        join "," (map (fun e => match e with
                                | VUndef | VNull => ""
                                | _ => ToString e
                                end) es)
  | VObj _ => "[object Object]"
  end.

(** Every number the conversion of [v] prints is a safe integer. *)
Fixpoint plain (v : val) : bool :=
  match v with
  | VNum n => Z.abs n <=? 9007199254740991
  | VArr es ps => has_key "join" ps || forallb (fun e => plain e) es
  | _ => true
  end.

(** [ToString v] is the text the program gets. *)
Definition printable (v : val) : bool := converts v && plain v.

(** [v === s] for a string literal [s]. *)
Definition strict_eq_str (v : val) (s : string) : bool :=
  match v with VStr s' => (s' =? s)%string | _ => false end.

(** [new Error(message)]: an object whose own property is [message]. *)
Definition new_Error (message : string) : val :=
  VObj [("message", VStr message)].

(** *** Strings *)

(** White space among the characters below 256: space, tab, the line
    terminators, form feed, vertical tab, no-break space. *)
Definition is_space (c : ascii) : bool :=
  let n := nat_of_ascii c in
  ((n =? 32) || (n =? 9) || (n =? 10) || (n =? 11) || (n =? 12) || (n =? 13)
   || (n =? 160))%nat.

Definition digit_of (c : ascii) : option Z :=
  let n := nat_of_ascii c in
  if ((48 <=? n) && (n <=? 57))%nat then Some (Z.of_nat n - 48) else None.

Fixpoint trim_left (s : string) : string :=
  match s with
  | String c s' => if is_space c then trim_left s' else s
  | EmptyString => s
  end.

(** The longest prefix of decimal digits, read left to right. *)
Fixpoint digits (s : string) (acc : option Z) : option Z :=
  match s with
  | EmptyString => acc
  | String c s' =>
      match digit_of c with
      | Some d => digits s' (Some (10 * match acc with Some a => a | None => 0 end + d))
      | None => acc
      end
  end.

(** [parseInt(s, 10)]; [None] is [NaN].  Leading white space is skipped
    (the ASCII white space characters), one sign is read, then the longest
    run of digits; anything after it is ignored. *)
Definition parseInt (s : string) : option Z :=
  match trim_left s with
  | String "-" s' => option_map Z.opp (digits s' None)
  | String "+" s' => digits s' None
  | s' => digits s' None
  end.

(** [s.split(sep)] for a non-empty separator.  [skip] counts the
    characters of a separator just recognised that are still to be
    dropped; [cur] is the segment being read. *)
Fixpoint split_go (sep s : string) (skip : nat) (cur : string) : list string :=
  match s with
  | EmptyString => [cur]
  | String c s' =>
      match skip with
      | S k => split_go sep s' k cur
      | O =>
          if prefix sep s
          then cur :: split_go sep s' (String.length sep - 1) ""
          else split_go sep s' 0 (cur ++ String c "")
      end
  end.

Definition split (sep s : string) : list string := split_go sep s 0 "".

(** [s.substring(0, n)]: a negative end is taken as 0. *)
Definition substring_to (n : Z) (s : string) : string :=
  String.substring 0 (Z.to_nat n) s.

(** [s.replace(/NaN/g, 'null')]: every match, left to right, matches not
    overlapping. *)
Fixpoint replace_NaN_go (s : string) (skip : nat) : string :=
  match s with
  | EmptyString => ""
  | String c s' =>
      match skip with
      | S k => replace_NaN_go s' k
      | O =>
          if prefix "NaN" s
          then "null" ++ replace_NaN_go s' 2
          else String c (replace_NaN_go s' 0)
      end
  end.

Definition replace_NaN (s : string) : string := replace_NaN_go s 0.

(** [s] contains [pat] as a substring. *)
Fixpoint occurs (pat s : string) : bool :=
  prefix pat s ||
  match s with
  | EmptyString => false
  | String _ s' => occurs pat s'
  end.

(** *** Numbers *)

(** [Math.ceil(a / b)] for integers [a] and [b <> 0]; [Z.div] rounds
    towards minus infinity whatever the sign of [b].  For safe integers
    the double the division yields has this ceiling: the double nearest
    to a quotient that is not an integer lies strictly between the two
    integers around the quotient. *)
Definition ceil_div (a b : Z) : Z := - ((- a) / b).

End JS.
Import JS.

(* ================================================================== *)
(** ** The platform and the network *)
(* ================================================================== *)

(** Built-ins of the JavaScript platform the program calls.  They are
    external to the repository and are kept abstract. *)
Class Platform : Type := {
  (** [JSON.parse]; [None] when it throws. *)
  JSON_parse : string -> option val;
  (** [JSON.stringify]. *)
  JSON_stringify : val -> string;
  (** [zlib.gunzipSync(buffer).toString()]; [None] when it throws. *)
  gunzipSync : string -> option string;
  (** [zlib.inflateSync(buffer).toString()]; [None] when it throws. *)
  inflateSync : string -> option string;
  (** [ToNumber] of a string; [None] is [NaN]. *)
  StringToNumber : string -> option Z;
  (** [decodeURI]; [None] when it throws a [URIError]. *)
  decodeURI : string -> option string;
  (** [encodeURI]. *)
  encodeURI : string -> string
}.

(** What calling back reports: [callback(null, a)], [callback(e)], or an
    uncaught exception before the callback is reached. *)
Inductive outcome (A : Type) : Type :=
| Yield (a : A)
| Fail (err : val)
| Crash.
Arguments Yield {A} a.
Arguments Fail {A} err.
Arguments Crash {A}.

Definition bind {A B : Type} (m : outcome A) (f : A -> outcome B) : outcome B :=
  match m with
  | Yield a => f a
  | Fail e => Fail e
  | Crash => Crash
  end.

(** A step that throws when it has no result: a property access or
    assignment on [undefined]/[null], a call of the platform. *)
Definition must {A : Type} (o : option A) : outcome A :=
  match o with
  | Some a => Yield a
  | None => Crash
  end.

Notation "x <- m ;; k" := (bind m (fun x => k))
  (at level 61, m at next level, right associativity).

(** The server as one service instance sees it: what a GET of [uri]
    through [http.request] comes to in [request].  [None]: setting the
    request up throws ([urlUtils.parse], [http.request] are called
    outside any [try]).  [Some (err, json)]: the arguments the callback
    of [request] is called with.  The callback can be called again for
    the same request (a request that timed out is only ended, and its
    late response is handed on too); every call runs the same
    continuation on its own arguments, and an instance of the class
    fixes the arguments of one call per request. *)
Class Network : Type := {
  http_get : string -> option (val * val)
}.

(** [ToNumber]; [None] is [NaN].  Arrays and objects go through their
    string form. *)
Definition ToNumber `{Platform} (v : val) : option Z :=
  match v with
  | VUndef => None
  | VNull => Some 0
  | VBool b => Some (if b then 1 else 0)
  | VNum n => Some n
  | VStr s => StringToNumber s
  | VArr _ _ | VObj _ => StringToNumber (ToString v)
  end.

(** [v < n] for a number [n]: false when [v] converts to [NaN]. *)
Definition js_lt_num `{Platform} (v : val) (n : Z) : bool :=
  match ToNumber v with
  | Some x => x <? n
  | None => false
  end.

(* ================================================================== *)
(** ** The service object *)
(* ================================================================== *)

Record FeatureService : Type := {
  url : string;
  options : val;
  layer : val;
  timeOut : Z;
  concurrency : Z
}.

(** A page request, [{req: pageUrl}]; [retry] is set by [_catchErrors]
    ([None]: not set). *)
Record task : Type := {
  req : string;
  retry : option Z
}.

(** [new FeatureService(url, options)].  [None] is the [TypeError] of
    [this.url.split('//')[1].match] on a url without [//]. *)
Definition new_FeatureService (url0 : string) (options0 : val)
  : option FeatureService :=
  let end_ := List.last (split "/" url0) EmptyString in
  let '(url1, layer0) :=
    match parseInt end_ with
    | Some n =>
        if 0 <=? n then
          let len := Z.of_nat (String.length end_) in
          (substring_to (Z.of_nat (String.length url0)
                         - ((if len =? 0 then 2 else len) + 1)) url0,
           VStr end_)
        else (url0, VUndef)
    | None => (url0, VUndef)
    end in
  let options1 := js_or options0 (VObj []) in
  match get options1 "layer" with
  | None => None
  | Some olayer =>
      match nth_error (split "//" url1) 1 with
      | None => None
      | Some host =>
          Some {| url := url1;
                  options := options1;
                  layer := js_or (js_or layer0 olayer) (VNum 0);
                  timeOut := 90000;
                  concurrency := if prefix "service" host then 16 else 4 |}
      end
  end.

(** [this.options.k].  [this.options] is [options || {}], never
    [undefined] or [null], so the read cannot throw. *)
Definition option_of (fs : FeatureService) (k : string) : val :=
  match get (options fs) k with
  | Some v => v
  | None => VUndef
  end.

(** What the embedding leaves to the JavaScript engine.
    - [sort_mixed]: [ids.sort(function (a, b) { return a - b })] on an
      array that does not hold numbers only.  The order is
      implementation-defined once the comparator yields [NaN];
      [None]: the comparator throws (an element does not convert).
    - [keys_throw]: whether [Object.keys] throws on a primitive (it does
      before ES2015).
    - [alias_lookup attrs aliases i]: [attrs[Object.keys(aliases)[i]]],
      which depends on the enumeration order of the keys and on the
      properties [attrs] inherits.
    - [rangePages_coerced], [idPages_coerced]: [_rangePages] on
      statistics that are not two numbers and [_idPages] on ids that
      are not an array of numbers; their arithmetic then runs on the
      coercions of the language.  [None]: the builder throws. *)
Class Engine : Type := {
  sort_mixed : list val -> option (list val);
  keys_throw : val -> bool;
  alias_lookup : val -> val -> nat -> val;
  rangePages_coerced : FeatureService -> val -> Z -> option (list task);
  idPages_coerced : FeatureService -> val -> Z -> option (list task)
}.

(** [_buildError(url, message, error)]: the error object after the
    assignments. *)
Definition _buildError (url message : string) (error : val) : option val :=
  let error := if truthy error then error else VObj [] in
  match set error "message" (VStr message) with None => None | Some error =>
  match set error "request" (VStr url) with None => None | Some error =>
  match get error "message" with None => None | Some m =>
  match set error "response" m with None => None | Some error =>
  match get error "type" with None => None | Some t =>
  match set error "type" (js_or t (VStr "Unknown failure")) with None => None | Some error =>
  match get error "code" with None => None | Some c =>
  set error "code" (js_or c (VNum 500))
  end end end end end end end.

(** The error shape [_buildError] establishes: [message], [request],
    [response], a [type] and a [code]. *)
Definition normalized (url message : string) (error : val) : Prop :=
  get error "message" = Some (VStr message)
  /\ get error "request" = Some (VStr url)
  /\ get error "response" = Some (VStr message)
  /\ (exists t, get error "type" = Some t /\ truthy t = true)
  /\ (exists c, get error "code" = Some c /\ truthy c = true).

(** The property table [_buildError] leaves on an object. *)
Definition built_props (url message : string) (ps : list (string * val))
  : list (string * val) :=
  let ps1 := assoc_set "message" (VStr message) ps in
  let ps2 := assoc_set "request" (VStr url) ps1 in
  let ps3 := assoc_set "response" (assoc "message" ps2) ps2 in
  let ps4 := assoc_set "type" (js_or (assoc "type" ps3) (VStr "Unknown failure")) ps3 in
  assoc_set "code" (js_or (assoc "code" ps4) (VNum 500)) ps4.

Definition is_object (v : val) : bool :=
  match v with
  | VArr _ _ | VObj _ => true
  | _ => false
  end.

(* ================================================================== *)
(** ** Metadata *)
(* ================================================================== *)

Section Metadata.
Context `{Platform} `{Network} `{Engine}.

(** [request(url, callback)]: [Crash] when the call throws before any
    callback, in [decodeURI] (a [URIError] on a malformed escape) or
    in setting the request up; otherwise the pair [(err, json)] its
    callback is called with. *)
Definition request (url : string) : outcome (val * val) :=
  match decodeURI url with
  | None => Crash
  | Some decoded => must (http_get (encodeURI decoded))
  end.

(** The url [layerInfo] requests: [this.url + '/' + this.layer + '?f=json']. *)
Definition layerInfo_url (fs : FeatureService) : string :=
  url fs ++ "/" ++ ToString (layer fs) ++ "?f=json".

(** The url [layerIds] requests. *)
Definition layerIds_url (fs : FeatureService) : string :=
  url fs ++ "/" ++ ToString (layer fs)
  ++ "/query?where=1=1&returnIdsOnly=true&f=json".

(** The url [featureCount] requests, on the layer [this.layer || 0]. *)
Definition countUrl (fs : FeatureService) : string :=
  url fs ++ "/" ++ ToString (js_or (layer fs) (VNum 0))
  ++ "/query?where=1=1&returnCountOnly=true&f=json".

(** [layerInfo(callback)].  Building the url throws when [this.layer]
    does not convert. *)
Definition layerInfo (fs : FeatureService) : outcome val :=
  if negb (converts (layer fs)) then Crash
  else
    let url := layerInfo_url fs in
    reply <- request url ;;
    let '(err, json) := reply in
    let failed :=
      error <- must (_buildError url "Request for layer information failed" json) ;;
      Fail error in
    if truthy err then failed
    else if negb (truthy json) then failed
    else
      e <- must (get json "error") ;;
      if truthy e then failed
      else
        json' <- must (set json "url" (VStr url)) ;;
        Yield json'.

(** The body of the [forEach] of [getObjectIdField], over the fields
    still to visit. *)
Fixpoint getObjectIdField_loop (fields : list val) (oid : val) : outcome val :=
  match fields with
  | [] => Yield oid
  | field :: rest =>
      t <- must (get field "type") ;;
      if strict_eq_str t "esriFieldTypeOID"
      then n <- must (get field "name") ;; getObjectIdField_loop rest n
      else getObjectIdField_loop rest oid
  end.

(** [getObjectIdField(info)]; [info.fields.forEach] throws unless
    [info.fields] is an array. *)
Definition getObjectIdField (info : val) : outcome val :=
  fields <- must (get info "fields") ;;
  match fields with
  | VArr es _ => getObjectIdField_loop es VUndef
  | _ => Crash
  end.

(** [featureCount(callback)]. *)
Definition featureCount (fs : FeatureService) : outcome val :=
  if negb (converts (js_or (layer fs) (VNum 0))) then Crash
  else
    let countUrl := countUrl fs in
    reply <- request countUrl ;;
    let '(err, json) := reply in
    let failed :=
      error <- must (_buildError countUrl "Request for feature count failed" json) ;;
      Fail error in
    if truthy err then failed
    else
      e <- must (get json "error") ;;
      if truthy e then failed else Yield json.

(** [metadata(callback)], with the urls it has asked [request] for on
    the way, in order.  [new Error(err)] converts the error to a string
    and [json.count < 1] converts the count to a number; both throw on
    a value that does not convert. *)
Definition metadata (fs : FeatureService) : list string * outcome val :=
  let continue (layer : val) : list string * outcome val :=
    match
      (oid <- getObjectIdField layer ;;
       size <- must (get layer "maxRecordCount") ;;
       cv <- must (get layer "currentVersion") ;;
       Yield (VObj [("layer", layer); ("oid", oid); ("size", size)], cv))
    with
    | Crash => ([layerInfo_url fs], Crash)
    | Fail e => ([layerInfo_url fs], Fail e)
    | Yield (metadata, cv) =>
        if negb (truthy cv) then ([layerInfo_url fs], Yield metadata)
        else
          ([layerInfo_url fs; countUrl fs],
           match featureCount fs with
           | Crash => Crash
           | Fail err =>
               if truthy err then Fail err
               else
                 (* [json] is undefined here and [json.count] throws *)
                 Crash
           | Yield json =>
               count <- must (get json "count") ;;
               if negb (converts count) then Crash
               else if js_lt_num count 1
               then Fail (new_Error "Service returned count of 0")
               else
                 metadata' <- must (set metadata "count" count) ;;
                 Yield metadata'
           end)
    end in
  if negb (converts (layer fs)) then ([], Crash)
  else
    match layerInfo fs with
    | Crash => ([layerInfo_url fs], Crash)
    | Fail err =>
        if truthy err
        then ([layerInfo_url fs],
              let err := js_or err (VStr "Unable to get layer metadata") in
              if converts err then Fail (new_Error (ToString err)) else Crash)
        else continue VUndef
    | Yield layer => continue layer
    end.

(* ------------------------------------------------------------------ *)
(** *** Statistics and object ids *)

(** [ids.sort(function (a, b) { return a - b })] on numbers.  The
    comparator orders numbers consistently, so the result is the
    ascending arrangement of the elements whatever algorithm the engine
    runs; it is computed here by insertion. *)
Fixpoint insert_id (x : Z) (l : list Z) : list Z :=
  match l with
  | [] => [x]
  | y :: l' => if x <=? y then x :: l else y :: insert_id x l'
  end.

Fixpoint sort_ids (l : list Z) : list Z :=
  match l with
  | [] => []
  | x :: l' => insert_id x (sort_ids l')
  end.

(** The numbers of an array that holds numbers only. *)
Fixpoint numbers_of (es : list val) : option (list Z) :=
  match es with
  | [] => Some []
  | VNum n :: es' => option_map (cons n) (numbers_of es')
  | _ :: _ => None
  end.

(** [v[0]]; [None] is the [TypeError] on [undefined] and [null]. *)
Definition index0 (v : val) : option val :=
  match v with
  | VUndef | VNull => None
  | VBool _ | VNum _ => Some VUndef
  | VStr EmptyString => Some VUndef
  | VStr (String c _) => Some (VStr (String c EmptyString))
  | VArr es _ => Some (hd VUndef es)
  | VObj ps => Some (assoc "0" ps)
  end.

(** [_statsUrl(field, stats)] for an array [stats] of statistic names. *)
Definition _statsUrl (fs : FeatureService) (field : val) (stats : list string)
  : string :=
  let field := js_or field (option_of fs "objectIdField") in
  let json :=
    map (fun stat =>
           VObj [("statisticType", VStr stat);
                 ("onStatisticField", field);
                 ("outStatisticFieldName", VStr (stat ++ "_" ++ ToString field))])
        stats in
  url fs ++ "/" ++ ToString (layer fs)
  ++ "/query?f=json&outFields=&outStatistics=" ++ JSON_stringify (VArr json []).

(** [statistics(field, stats, callback)]: the pair the callback gets.
    Building the url throws when the field (joined to the name of a
    statistic) or [this.layer] does not convert. *)
Definition statistics (fs : FeatureService) (field : val) (stats : list string)
  : outcome (val * val) :=
  let field' := js_or field (option_of fs "objectIdField") in
  if negb (match stats with [] => true | _ :: _ => converts field' end
           && converts (layer fs))
  then Crash
  else request (_statsUrl fs field stats).

(** [json.objectIds.sort(...)]: only an array has a [sort] method. *)
Definition sort_objectIds (objectIds : val) : outcome val :=
  match objectIds with
  | VArr es ps =>
      match numbers_of es with
      | Some ns => Yield (VArr (map VNum (sort_ids ns)) ps)
      | None => es' <- must (sort_mixed es) ;; Yield (VArr es' ps)
      end
  | _ => Crash
  end.

(** [layerIds(callback)]. *)
Definition layerIds (fs : FeatureService) : outcome val :=
  if negb (converts (layer fs)) then Crash
  else
    let req := layerIds_url fs in
    reply <- request req ;;
    let '(err, json) := reply in
    let failed :=
      error <- must (_buildError req "Request for object ids failed" json) ;;
      Fail error in
    if truthy err then failed
    else
      objectIds <- must (get json "objectIds") ;;
      if negb (truthy objectIds) then failed
      else sort_objectIds objectIds.

(** [attrs.k1 || attrs.k2 || attrs[names[i]]] of [_getIdRangeFromStats],
    [names] being the keys of a truthy [stats.fieldAliases] and [null]
    otherwise. *)
Definition stat_value (attrs aliases : val) (k1 k2 : string) (i : nat)
  : outcome val :=
  a <- must (get attrs k1) ;;
  if truthy a then Yield a
  else
    b <- must (get attrs k2) ;;
    if truthy b then Yield b
    else if truthy aliases then Yield (alias_lookup attrs aliases i)
    else Crash.

(** [_getIdRangeFromStats(meta, callback)]; it yields [{min, max}]. *)
Definition _getIdRangeFromStats (fs : FeatureService) (meta : val) : outcome val :=
  oid <- must (get meta "oid") ;;
  reply <- statistics fs oid ["min"; "max"] ;;
  let '(reqErr, stats) := reply in
  let failed := Fail (new_Error "statistics request failed") in
  if truthy reqErr then failed
  else
    e <- must (get stats "error") ;;
    if truthy e then failed
    else
      features <- must (get stats "features") ;;
      feature <- must (index0 features) ;;
      attrs <- must (get feature "attributes") ;;
      aliases <- (if truthy stats then must (get stats "fieldAliases")
                  else Yield stats) ;;
      if truthy aliases && negb (is_object aliases) && keys_throw aliases
      then Crash
      else
        min <- stat_value attrs aliases "min" "MIN" 0 ;;
        max <- stat_value attrs aliases "max" "MAX" 1 ;;
        Yield (VObj [("min", min); ("max", max)]).

End Metadata.

(* ================================================================== *)
(** ** Page builders *)
(* ================================================================== *)

(** The values [i] takes in [for (var i = 0; i < n; i++)]. *)
Definition range (n : Z) : list Z := map Z.of_nat (seq 0 (Z.to_nat n)).

(** The head of every page url: [url + '/' + (this.options.layer || 0)]. *)
Definition page_base (fs : FeatureService) : string :=
  url fs ++ "/" ++ ToString (js_or (option_of fs "layer") (VNum 0)).

Definition offset_url (fs : FeatureService) (resultOffset max : Z) : string :=
  page_base fs ++ "/query?outSR=4326&f=json&outFields=*&where=1=1"
  ++ "&resultOffset=" ++ string_of_Z resultOffset
  ++ "&resultRecordCount=" ++ string_of_Z max
  ++ "&geometry=&returnGeometry=true&geometryPrecision=".

(** [_offsetPages(pages, max)]; [pages] is [None] when it is [NaN], and
    the loop test [i < NaN] is false. *)
Definition _offsetPages (fs : FeatureService) (pages : option Z) (max : Z)
  : list task :=
  match pages with
  | None => []
  | Some pages =>
      map (fun i => let resultOffset := i * max in
                    {| req := offset_url fs resultOffset max; retry := None |})
          (range pages)
  end.

(** The where clause of an id page:
    [[oidField, ' > ', pageMin, ' AND ', 'oidField', '<=', pageMax].join('')]. *)
Definition id_where (oidField : val) (pageMin pageMax : Z) : string :=
  ToString oidField ++ " > " ++ string_of_Z pageMin ++ " AND "
  ++ "oidField" ++ "<=" ++ string_of_Z pageMax.

(** The where clause of an id page with both bounds on the object id
    field, as the first bound is written and as [_rangePages] writes its
    two bounds. *)
Definition id_where_both_bounds (oidField : val) (pageMin pageMax : Z) : string :=
  ToString oidField ++ " > " ++ string_of_Z pageMin ++ " AND "
  ++ ToString oidField ++ "<=" ++ string_of_Z pageMax.

Definition id_url (fs : FeatureService) (where_ : string) : string :=
  page_base fs ++ "/query?outSR=4326&where=" ++ where_ ++ "&f=json&outFields=*"
  ++ "&geometry=&returnGeometry=true&geometryPrecision=10".

(** The loop test [i < pages + 1] of [_idPages], [pages] being the
    quotient [ids.length / size] computed before the loop. *)
Definition id_loop_test (i : Z) (pages : Q) : bool :=
  negb (Qle_bool (pages + 1)%Q (inject_Z i)).

(** The loop of [_idPages]: [ids] is what is left of the array after the
    [splice] calls so far.  The loop ends by its test; [fuel] bounds the
    number of iterations. *)
Fixpoint _idPages_loop (fs : FeatureService) (oidField : val) (size : Z) (pages : Q)
  (fuel : nat) (i : Z) (ids : list Z) : list task :=
  match fuel with
  | O => []
  | S fuel' =>
      if id_loop_test i pages then
        let pageIds := firstn (Z.to_nat size) ids in
        let ids' := skipn (Z.to_nat size) ids in
        match pageIds with
        | [] => _idPages_loop fs oidField size pages fuel' (i + 1) ids'
        | first :: _ =>
            let pageMin := if first =? 0 then first else first - 1 in
            let pageMax := List.last pageIds 0 in
            let where_ := id_where oidField pageMin pageMax in
            {| req := id_url fs where_; retry := None |}
            :: _idPages_loop fs oidField size pages fuel' (i + 1) ids'
        end
      else []
  end.

(** [_idPages(ids, size)].  The test fails at the latest when [i]
    reaches [ids.length + 1], see [_idPages_loop_fuel]. *)
Definition _idPages (fs : FeatureService) (ids : list Z) (size : Z) : list task :=
  let oidField := js_or (option_of fs "objectIdField") (VStr "objectId") in
  let pages := (inject_Z (Z.of_nat (List.length ids)) / inject_Z size)%Q in
  _idPages_loop fs oidField size pages (S (S (List.length ids))) 0 ids.

(** The ids cut into consecutive chunks of [n], the last one possibly
    shorter: what the [splice] calls of [_idPages] take one after the
    other.  [fuel] bounds the number of chunks. *)
Fixpoint chunks_go (n fuel : nat) (ids : list Z) : list (list Z) :=
  match fuel with
  | O => []
  | S fuel' =>
      match ids with
      | [] => []
      | _ :: _ => firstn n ids :: chunks_go n fuel' (skipn n ids)
      end
  end.

Definition chunks (n : nat) (ids : list Z) : list (list Z) :=
  chunks_go n (List.length ids) ids.

(** The bounds [(pageMin, pageMax)] [_idPages] computes for a chunk. *)
Definition id_bounds (pageIds : list Z) : Z * Z :=
  let first := hd 0 pageIds in
  (if first =? 0 then first else first - 1, List.last pageIds 0).

(** The request [_idPages] builds for a non-empty chunk. *)
Definition id_page (fs : FeatureService) (oidField : val) (pageIds : list Z) : task :=
  let '(pageMin, pageMax) := id_bounds pageIds in
  {| req := id_url fs (id_where oidField pageMin pageMax); retry := None |}.

(** The where clause of a range page:
    [objId + '<=' + pageMax + '+AND+' + objId + '>=' + pageMin]. *)
Definition range_where (objId : val) (pageMax pageMin : Z) : string :=
  ToString objId ++ "<=" ++ string_of_Z pageMax ++ "+AND+"
  ++ ToString objId ++ ">=" ++ string_of_Z pageMin.

Definition range_url (fs : FeatureService) (where_ : string) : string :=
  page_base fs ++ "/query?outSR=4326&where=" ++ where_ ++ "&f=json&outFields=*"
  ++ "&geometry=&returnGeometry=true&geometryPrecision=".

(** The number of pages [_rangePages] builds. *)
Definition range_page_count (min max size : Z) : Z :=
  Z.max (if max =? size then max else ceil_div (max - min) size) 1.

(** [_rangePages(stats, size)] with [stats = {min, max}]. *)
Definition _rangePages (fs : FeatureService) (stats : Z * Z) (size : Z)
  : list task :=
  let '(min, max) := stats in
  let objId := option_of fs "objectIdField" in
  let pages := range_page_count min max size in
  map (fun i =>
         let pageMax := if i =? pages - 1 then max
                        else min + (size * (i + 1)) - 1 in
         let pageMin := min + (size * i) in
         let where_ := range_where objId pageMax pageMin in
         {| req := range_url fs where_; retry := None |})
      (range pages).

(* ================================================================== *)
(** ** Page planning *)
(* ================================================================== *)

(** [Math.min(parseInt(size, 10), 1000) || 1000]. *)
Definition effective_size (size : val) : Z :=
  match parseInt (ToString size) with
  | Some n => let m := Z.min n 1000 in if m =? 0 then 1000 else m
  | None => 1000
  end.

Section Pages.
Context `{Platform} `{Network} `{Engine}.

(** [Math.ceil(count / size)]; [None] is [NaN]. *)
Definition page_count (count : val) (size : Z) : option Z :=
  option_map (fun c => ceil_div c size) (ToNumber count).

(** The head of the page urls is built from [this.options.layer || 0]. *)
Definition page_layer (fs : FeatureService) : val :=
  js_or (option_of fs "layer") (VNum 0).

(** The requests a page builder returns.  The builders make the urls by
    string concatenation inside their loops: when there is a page to
    build and one of the values [vs] joined into its url does not
    convert, the builder throws instead of returning. *)
Definition built (vs : list val) (reqs : list task) : outcome (list task) :=
  match reqs with
  | [] => Yield []
  | _ :: _ => if forallb converts vs then Yield reqs else Crash
  end.

(** [this._rangePages(stats, size)] on what [_getIdRangeFromStats]
    yields. *)
Definition range_pages (fs : FeatureService) (stats : val) (size : Z)
  : outcome (list task) :=
  max <- must (get stats "max") ;;
  min <- must (get stats "min") ;;
  match min, max with
  | VNum min, VNum max =>
      built [option_of fs "objectIdField"; page_layer fs]
            (_rangePages fs (min, max) size)
  | _, _ => must (rangePages_coerced fs stats size)
  end.

(** [this._idPages(ids, size)] on what [layerIds] yields. *)
Definition id_pages (fs : FeatureService) (ids : val) (size : Z)
  : outcome (list task) :=
  match ids with
  | VArr es _ =>
      match numbers_of es with
      | Some ns =>
          built [js_or (option_of fs "objectIdField") (VStr "objectId");
                 page_layer fs]
                (_idPages fs ns size)
      | None => must (idPages_coerced fs ids size)
      end
  | _ => must (idPages_coerced fs ids size)
  end.

(** The last resort of [pages]: ask for every id and build id pages. *)
Definition pages_from_ids (fs : FeatureService) (size : Z) : outcome (list task) :=
  match layerIds fs with
  | Crash => Crash
  | Fail err =>
      (* on a falsy [err] the ids are undefined and [ids.length] throws *)
      if truthy err then Fail err else Crash
  | Yield ids => id_pages fs ids size
  end.

(** [pages(callback)].  [parseInt(size, 10)] converts the size to a
    string and [meta.count / size] the count to a number; both throw on
    a value that does not convert. *)
Definition pages (fs : FeatureService) : outcome (list task) :=
  let continue (meta : val) : outcome (list task) :=
    size <- must (get meta "size") ;;
    info <- must (get meta "layer") ;;
    oid <- must (get meta "oid") ;;
    options' <- must (set (options fs) "objectIdField" oid) ;;
    let fs := {| url := url fs; options := options'; layer := layer fs;
                 timeOut := timeOut fs; concurrency := concurrency fs |} in
    if negb (converts size) then Crash
    else
      let size := effective_size size in
      count <- must (get meta "count") ;;
      if negb (converts count) then Crash
      else
        let nPages := page_count count size in
        aqc <- must (get info "advancedQueryCapabilities") ;;
        canPage <- (if truthy aqc then must (get aqc "supportsPagination")
                    else Yield aqc) ;;
        if truthy canPage
        then built [page_layer fs] (_offsetPages fs nPages size)
        else
          supportsStatistics <- must (get info "supportsStatistics") ;;
          if truthy supportsStatistics then
            match _getIdRangeFromStats fs meta with
            | Crash => Crash
            | Yield stats => range_pages fs stats size
            | Fail err =>
                (* on a falsy [err] the stats are undefined and
                   [stats.max] throws *)
                if truthy err then pages_from_ids fs size else Crash
            end
          else pages_from_ids fs size in
  match snd (metadata fs) with
  | Crash => Crash
  | Fail err => if truthy err then Fail err else continue VUndef
  | Yield meta => continue meta
  end.

End Pages.

(* ================================================================== *)
(** ** Decoding a response *)
(* ================================================================== *)

(** What one call of [_decode] does: the calls of its callback, in order,
    each as the pair [(err, json)] of its arguments, and whether a
    [TypeError] escapes the function afterwards. *)
Record decode_run : Type := {
  calls : list (val * val);
  threw : bool
}.

Section Decode.
Context `{Platform}.

(** The [try] block of [_decode]: the value assigned to [json], or
    [None] when the block throws. *)
Definition decode_body (encoding : val) (data : list string) : option val :=
  let buffer := String.concat EmptyString data in
  if strict_eq_str encoding "gzip" then
    match gunzipSync buffer with
    | Some s => JSON_parse (replace_NaN s)
    | None => None
    end
  else if strict_eq_str encoding "deflate" then
    match inflateSync buffer with
    | Some s => JSON_parse s
    | None => None
    end
  else JSON_parse (replace_NaN buffer).

(** [_decode(res, data, callback)], [encoding] being
    [res.headers['content-encoding']] and [data] the chunks received. *)
Definition _decode (encoding : val) (data : list string) : decode_run :=
  match data with
  | [] =>
      {| calls := [(VObj [("type", VStr "Response from the server was empty")], VUndef)];
         threw := false |}
  | _ :: _ =>
      match decode_body encoding data with
      | None =>
          (* the catch block calls back and does not return; [json] is
             still undefined when [json.error] is evaluated *)
          let json := VUndef in
          match get json "error" with
          | None =>
              {| calls := [(VObj [("type", VStr "Failed to parse feature response")], VUndef)];
                 threw := true |}
          | Some e =>
              {| calls := [(VObj [("type", VStr "Failed to parse feature response")], VUndef);
                           if truthy e then (e, VUndef) else (VNull, json)];
                 threw := false |}
          end
      | Some json =>
          match get json "error" with
          | None => {| calls := []; threw := true |}
          | Some e =>
              if truthy e
              then {| calls := [(e, VUndef)]; threw := false |}
              else {| calls := [(VNull, json)]; threw := false |}
          end
      end
  end.

End Decode.

(* ================================================================== *)
(** ** Fetching a page, retrying, aborting *)
(* ================================================================== *)

(** What the page-fetch path does to the outside.  [SetTimeout ms t]:
    a timer that calls [_requestFeatures(task, cb)] after [ms], [t]
    being the task as it is when the timer is set. *)
Inductive effect : Type :=
| Attempt (uri : string)            (** [_requestFeatures] starts a request *)
| QueueKill                         (** [this.pageQueue.kill()] *)
| Callback (err data : val)         (** the callback of the queue worker *)
| SetTimeout (ms : Z) (t : task)    (** [_requestFeatures(t, cb)] after [ms] *)
| Uncaught.                         (** an exception nobody catches *)

(** An ending of a request: one of the handlers [_requestFeatures]
    installs runs.  A request can end more than once: the timeout
    handler only calls [req.end()], which does not abort the request,
    so that its response or a socket error is still handled
    afterwards. *)
Inductive fetch_event : Type :=
| SetupThrew                                      (** the [try] block throws *)
| ResponseError (err : val)                       (** [response.on('error')] *)
| ResponseEnd (encoding : val) (data : list string) (** [response.on('end')] *)
| Timeout                                         (** [req.setTimeout] fires *)
| RequestError (err : val).                       (** [req.on('error')] *)

Section Fetch.
Context `{Platform}.

(** [_abortPaging(error, callback)]. *)
Definition _abortPaging (error : val) : list effect :=
  [QueueKill; Callback (VStr (JSON_stringify error)) VUndef].

(** [_catchErrors(task, e, url, cb)]: the task after the call and what
    the call does.  [None] would be a [TypeError] in [_buildError]. *)
Definition _catchErrors (t : task) (e : val) (url : string)
  : option (task * list effect) :=
  match _buildError url "Request for a page of features failed" e with
  | None => None
  | Some error =>
      if match retry t with
         | Some n => negb (n =? 0) && (n =? 3)
         | None => false
         end
      then Some (t, _abortPaging error)
      else
        let retry' :=
          match retry t with
          | None => 1
          | Some n => if n =? 0 then 1 else n + 1
          end in
        let t' := {| req := req t; retry := Some retry' |} in
        Some (t', [SetTimeout (retry' * 1000) t'])
  end.

(** The callback [_requestFeatures] gives to [_decode]. *)
Definition on_decoded (t : task) (uri : string) (call : val * val)
  : option (task * list effect) :=
  let '(err, json) := call in
  if truthy err then _catchErrors t err uri
  else Some (t, [Callback VNull json]).

(** The calls of [_decode]'s callback, one after the other, on the same
    task object. *)
Fixpoint on_decoded_all (t : task) (uri : string) (cs : list (val * val))
  : option (task * list effect) :=
  match cs with
  | [] => Some (t, [])
  | c :: cs' =>
      match on_decoded t uri c with
      | None => None
      | Some (t1, effs1) =>
          match on_decoded_all t1 uri cs' with
          | None => None
          | Some (t2, effs2) => Some (t2, (effs1 ++ effs2)%list)
          end
      end
  end.

(** The handler of [_requestFeatures] that the ending [ev] runs, on
    the task as it is then: the task afterwards and what was done.
    [timeOut / 1000] is exact for a timeout of whole seconds. *)
Definition on_ending (fs : FeatureService) (t : task) (uri : string)
  (ev : fetch_event) : task * list effect :=
  let finish (r : option (task * list effect)) (after : list effect) :=
    match r with
    | None => (t, [Uncaught])
    | Some (t', effs) => (t', (effs ++ after)%list)
    end in
  match ev with
  | SetupThrew =>
      finish (_catchErrors t (VObj [("type", VStr "Unknown failure")]) uri) []
  | ResponseError err => finish (_catchErrors t err uri) []
  | ResponseEnd encoding data =>
      let r := _decode encoding data in
      finish (on_decoded_all t uri (calls r))
             (if threw r then [Uncaught] else [])
  | Timeout =>
      let err :=
        VObj [("type", VStr ("The request timed out after "
                             ++ string_of_Z (timeOut fs / 1000) ++ " seconds."))] in
      finish (_catchErrors t err uri) []
  | RequestError err => finish (_catchErrors t err uri) []
  end.

(** [_requestFeatures(task, cb)] up to and with the first ending [ev]
    of the request it starts: the task afterwards and what was done.
    [encodeURI(decodeURI(task.req))] is outside the [try] block. *)
Definition _requestFeatures (fs : FeatureService) (t : task) (ev : fetch_event)
  : task * list effect :=
  match decodeURI (req t) with
  | None => (t, [Uncaught])
  | Some decoded =>
      let uri := encodeURI decoded in
      let '(t', effs) := on_ending fs t uri ev in
      (t', Attempt uri :: effs)
  end.

(** The error an ending [ev] hands to [_catchErrors], when it is a
    failure and nothing else. *)
Definition failed_with (fs : FeatureService) (ev : fetch_event) : option val :=
  match ev with
  | SetupThrew => Some (VObj [("type", VStr "Unknown failure")])
  | ResponseError err => Some err
  | ResponseEnd encoding data =>
      match _decode encoding data with
      | {| calls := [(err, _)]; threw := false |} =>
          if truthy err then Some err else None
      | _ => None
      end
  | Timeout =>
      Some (VObj [("type", VStr ("The request timed out after "
                                 ++ string_of_Z (timeOut fs / 1000) ++ " seconds."))])
  | RequestError err => Some err
  end.

(** The retry counter [_catchErrors] leaves on a task it reschedules. *)
Definition next_retry (r : option Z) : Z :=
  match r with
  | Some n => n + 1
  | None => 1
  end.

(** A task as [_catchErrors] reschedules it. *)
Definition retried (t : task) : task :=
  {| req := req t; retry := Some (next_retry (retry t)) |}.

Definition is_uncaught (e : effect) : bool :=
  match e with
  | Uncaught => true
  | _ => false
  end.

(** The delays of the timers set in a trace. *)
Definition delays (effs : list effect) : list Z :=
  flat_map (fun e => match e with
                     | SetTimeout ms _ => [ms]
                     | _ => []
                     end) effs.

(** *** A task in the queue

    Everything that is under way for one task: the task object, which
    every request and every timer of the task shares; the requests
    started, each with its uri and the endings it still has to come;
    the timers set and not yet fired; the number of requests started so
    far; whether an exception has escaped a handler (nothing runs
    after that). *)
Record pool : Type := {
  shared : task;
  inflight : list (string * list fetch_event);
  pending : list Z;
  started : nat;
  dead : bool
}.

(** What happens next: the next ending of the [k]-th request started
    that is handled, or the [k]-th pending timer that fires. *)
Inductive choice : Type :=
| Ending (k : nat)
| Timer (k : nat).

Fixpoint remove_nth {A : Type} (k : nat) (l : list A) : list A :=
  match l, k with
  | [], _ => []
  | _ :: l', O => l'
  | x :: l', S k' => x :: remove_nth k' l'
  end.

Fixpoint replace_nth {A : Type} (k : nat) (y : A) (l : list A) : list A :=
  match l, k with
  | [], _ => []
  | _ :: l', O => y :: l'
  | x :: l', S k' => x :: replace_nth k' y l'
  end.

(** [_requestFeatures(task, cb)] is called, by the queue worker or by a
    timer: the request is started, and it will end as [events] says for
    its number.  A [SetupThrew] at the head of its endings is the
    [try] block throwing, which the [catch] block handles at once. *)
Definition start_request (fs : FeatureService) (events : nat -> list fetch_event)
  (st : pool) : pool * list effect :=
  match decodeURI (req (shared st)) with
  | None =>
      ({| shared := shared st; inflight := inflight st; pending := pending st;
          started := started st; dead := true |},
       [Uncaught])
  | Some decoded =>
      let uri := encodeURI decoded in
      match events (started st) with
      | SetupThrew :: rest =>
          let '(t', effs) := on_ending fs (shared st) uri SetupThrew in
          ({| shared := t';
              inflight := (inflight st ++ [(uri, rest)])%list;
              pending := (pending st ++ delays effs)%list;
              started := S (started st);
              dead := existsb is_uncaught effs |},
           Attempt uri :: effs)
      | evs =>
          ({| shared := shared st;
              inflight := (inflight st ++ [(uri, evs)])%list;
              pending := pending st;
              started := S (started st);
              dead := false |},
           [Attempt uri])
      end
  end.

(** One step of the queue for the task.  A choice that names no
    request with an ending to come and no pending timer does nothing;
    a [SetupThrew] that is not the first ending of its request stands
    for nothing (the [try] block runs once, at the start). *)
Definition step (fs : FeatureService) (events : nat -> list fetch_event)
  (st : pool) (c : choice) : pool * list effect :=
  if dead st then (st, [])
  else
    match c with
    | Ending k =>
        match nth_error (inflight st) k with
        | Some (uri, SetupThrew :: rest) =>
            ({| shared := shared st;
                inflight := replace_nth k (uri, rest) (inflight st);
                pending := pending st; started := started st; dead := false |},
             [])
        | Some (uri, ev :: rest) =>
            let '(t', effs) := on_ending fs (shared st) uri ev in
            ({| shared := t';
                inflight := replace_nth k (uri, rest) (inflight st);
                pending := (pending st ++ delays effs)%list;
                started := started st;
                dead := existsb is_uncaught effs |},
             effs)
        | _ => (st, [])
        end
    | Timer k =>
        match nth_error (pending st) k with
        | Some _ =>
            start_request fs events
              {| shared := shared st; inflight := inflight st;
                 pending := remove_nth k (pending st);
                 started := started st; dead := false |}
        | None => (st, [])
        end
    end.

(** The steps of a schedule, one after the other. *)
Fixpoint run_from (fs : FeatureService) (events : nat -> list fetch_event)
  (schedule : list choice) (st : pool) : pool * list effect :=
  match schedule with
  | [] => (st, [])
  | c :: schedule' =>
      let '(st1, effs1) := step fs events st c in
      let '(st2, effs2) := run_from fs events schedule' st1 in
      (st2, (effs1 ++ effs2)%list)
  end.

(** A task from the moment the queue worker calls
    [_requestFeatures(task, cb)] for it: its requests end as [events]
    says (by request number, in the order the requests are started),
    and endings and timers are handled in the order of [schedule]. *)
Definition run_pool (fs : FeatureService) (events : nat -> list fetch_event)
  (schedule : list choice) (t : task) : pool * list effect :=
  let '(st0, effs0) :=
    start_request fs events
      {| shared := t; inflight := []; pending := []; started := 0; dead := false |} in
  let '(st, effs) := run_from fs events schedule st0 in
  (st, (effs0 ++ effs)%list).

Definition run (fs : FeatureService) (events : nat -> list fetch_event)
  (schedule : list choice) (t : task) : list effect :=
  snd (run_pool fs events schedule t).

(** The requests that still have an ending to come and the timers that
    are pending: what is under way for the task. *)
Definition live (r : string * list fetch_event) : bool :=
  match snd r with
  | [] => false
  | _ :: _ => true
  end.

Definition outstanding (st : pool) : nat :=
  (List.length (filter live (inflight st)) + List.length (pending st))%nat.

(** The value of the retry counter, 0 when it is not set. *)
Definition counter (t : task) : Z :=
  match retry t with
  | Some n => n
  | None => 0
  end.

(** The number of requests started in a trace. *)
Definition attempts (tr : list effect) : nat :=
  List.length (filter (fun e => match e with Attempt _ => true | _ => false end) tr).

(** The number of calls of the queue worker's callback in a trace. *)
Definition callbacks (tr : list effect) : nat :=
  List.length (filter (fun e => match e with Callback _ _ => true | _ => false end) tr).

(** The number of [pageQueue.kill()] in a trace. *)
Definition kills (tr : list effect) : nat :=
  List.length (filter (fun e => match e with QueueKill => true | _ => false end) tr).

(** The retry counter is not set or from 0 to 3, as on every task the
    page builders make and [_catchErrors] has handled. *)
Definition in_budget (t : task) : Prop :=
  match retry t with
  | Some k => 0 <= k <= 3
  | None => True
  end.

(** An order for a task whose requests each end once: the ending of
    the request, then the timer it has set, four times over. *)
Definition one_by_one : list choice :=
  [Ending 0; Timer 0; Ending 1; Timer 0; Ending 2; Timer 0; Ending 3].

(** What the handled failures of a trace came to, in order: [Some ms]
    for a timer of [ms] milliseconds, [None] for an abort. *)
Definition failure_marks (tr : list effect) : list (option Z) :=
  flat_map (fun e => match e with
                     | SetTimeout ms _ => [Some ms]
                     | QueueKill => [None]
                     | _ => []
                     end) tr.

(** The marks a task whose counter is [c] can still leave: a timer of
    [(c + 1) * 1000] milliseconds and so on up to 3000, and aborts only
    once the counter is 3. *)
Fixpoint marks_from (c : Z) (l : list (option Z)) : Prop :=
  match l with
  | [] => True
  | m :: l' =>
      (c < 3 /\ m = Some ((c + 1) * 1000) /\ marks_from (c + 1) l')
      \/ (c = 3 /\ m = None /\ marks_from 3 l')
  end.

End Fetch.

(* ================================================================== *)
(** ** Sample platform, servers and services *)
(* ================================================================== *)

Module Sample.

(** The double quote character. *)
Definition dq : string := String (ascii_of_nat 34) EmptyString.

(** [{"x":NaN}] and [{"x":null}]. *)
Definition body_NaN : string := "{" ++ dq ++ "x" ++ dq ++ ":NaN}".
Definition body_null : string := "{" ++ dq ++ "x" ++ dq ++ ":null}".

(** [{"error":{"code":400,"message":"bad"}}]. *)
Definition body_error : string :=
  "{" ++ dq ++ "error" ++ dq ++ ":{" ++ dq ++ "code" ++ dq ++ ":400,"
  ++ dq ++ "message" ++ dq ++ ":" ++ dq ++ "bad" ++ dq ++ "}}".

Definition json_null_field : val := VObj [("x", VNull)].
Definition embedded_error : val := VObj [("code", VNum 400); ("message", VStr "bad")].
Definition json_error : val := VObj [("error", embedded_error)].

(** A platform that parses the three bodies above as [JSON.parse] does
    and rejects every other text, whose compressed form of [s] is a tag
    followed by [s], and whose [ToNumber] reads decimal integers. *)
Definition strip (tag s : string) : option string :=
  if prefix tag s
  then Some (String.substring (String.length tag) (String.length s) s)
  else None.

Definition platform : Platform := {|
  JSON_parse := fun s =>
    if (s =? body_null)%string then Some json_null_field
    else if (s =? body_error)%string then Some json_error
    else None;
  JSON_stringify := fun v => "[json " ++ ToString v ++ "]";
  gunzipSync := strip "gz:";
  inflateSync := strip "zz:";
  StringToNumber := parseInt;
  decodeURI := fun s => Some s;
  encodeURI := fun s => s
|}.

(** A layer of a server with native pagination. *)
Definition paging_layer : val :=
  VObj [("currentVersion", VNum 10);
        ("maxRecordCount", VNum 2000);
        ("fields", VArr [VObj [("name", VStr "OBJECTID"); ("type", VStr "esriFieldTypeOID")];
                         VObj [("name", VStr "NAME"); ("type", VStr "esriFieldTypeString")]] []);
        ("supportsStatistics", VBool true);
        ("advancedQueryCapabilities", VObj [("supportsPagination", VBool true)])].

(** A layer of a 10.0 server: no [currentVersion]. *)
Definition legacy_layer : val :=
  VObj [("maxRecordCount", VNum 500);
        ("fields", VArr [VObj [("name", VStr "FID"); ("type", VStr "esriFieldTypeOID")]] [])].

(** The two layers as [layerInfo] hands them on, with their [url]. *)
Definition with_url (info : val) : val :=
  match set info "url" (VStr "http://example.com/FeatureServer/0?f=json") with
  | Some info' => info'
  | None => info
  end.

Definition paging_info : val := with_url paging_layer.
Definition legacy_info : val := with_url legacy_layer.

(** What [metadata] yields for [paging_layer] and 2500 features. *)
Definition paging_meta : val :=
  VObj [("layer", paging_info); ("oid", VStr "OBJECTID"); ("size", VNum 2000);
        ("count", VNum 2500)].

(** A server that answers the layer request with [info] and every other
    request with [{count: count}]. *)
Definition server (info : val) (count : Z) : Network := {|
  http_get := fun u =>
    if (u =? "http://example.com/FeatureServer/0?f=json")%string
    then Some (VUndef, info)
    else Some (VUndef, VObj [("count", VNum count)])
|}.

(** An engine that leaves a mixed array as it is, enumerates no key,
    and builds no page on values that are not numbers. *)
Definition engine : Engine := {|
  sort_mixed := fun es => Some es;
  keys_throw := fun _ => false;
  alias_lookup := fun _ _ _ => VUndef;
  rangePages_coerced := fun _ _ _ => Some [];
  idPages_coerced := fun _ _ _ => Some []
|}.

(** A service on layer 0 given without options. *)
Definition service : FeatureService := {|
  url := "http://example.com/FeatureServer";
  options := VObj [];
  layer := VNum 0;
  timeOut := 90000;
  concurrency := 4
|}.

(** The same service once [pages] has stored the object id field. *)
Definition service_oid : FeatureService := {|
  url := "http://example.com/FeatureServer";
  options := VObj [("objectIdField", VStr "OBJECTID")];
  layer := VNum 0;
  timeOut := 90000;
  concurrency := 4
|}.

Definition fresh_task : task :=
  {| req := "http://example.com/FeatureServer/0/query?where=1=1"; retry := None |}.

(** A platform that parses the text [null] and nothing else. *)
Definition platform_null : Platform := {|
  JSON_parse := fun s => if (s =? "null")%string then Some VNull else None;
  JSON_stringify := fun v => "[json " ++ ToString v ++ "]";
  gunzipSync := strip "gz:";
  inflateSync := strip "zz:";
  StringToNumber := parseInt;
  decodeURI := fun s => Some s;
  encodeURI := fun s => s
|}.

(** A platform whose [decodeURI] rejects every text with a percent
    sign. *)
Definition platform_strict : Platform := {|
  JSON_parse := fun _ => None;
  JSON_stringify := fun v => "[json " ++ ToString v ++ "]";
  gunzipSync := strip "gz:";
  inflateSync := strip "zz:";
  StringToNumber := parseInt;
  decodeURI := fun s => if occurs "%" s then None else Some s;
  encodeURI := fun s => s
|}.

(** A server that gives every request the same answer. *)
Definition constant_server (err json : val) : Network := {|
  http_get := fun _ => Some (err, json)
|}.

(** A layer that advertises pagination but reports no version. *)
Definition unversioned_paging_layer : val :=
  VObj [("maxRecordCount", VNum 1000);
        ("fields", VArr [VObj [("name", VStr "OBJECTID"); ("type", VStr "esriFieldTypeOID")]] []);
        ("advancedQueryCapabilities", VObj [("supportsPagination", VBool true)])].

(** A layer with native pagination whose [maxRecordCount] is negative. *)
Definition negative_size_layer : val :=
  VObj [("currentVersion", VNum 10);
        ("maxRecordCount", VNum (-5));
        ("fields", VArr [VObj [("name", VStr "OBJECTID"); ("type", VStr "esriFieldTypeOID")]] []);
        ("advancedQueryCapabilities", VObj [("supportsPagination", VBool true)])].

(** A layer with two fields of the object id type. *)
Definition two_oid_layer : val :=
  VObj [("fields",
         VArr [VObj [("name", VStr "FID"); ("type", VStr "esriFieldTypeOID")];
               VObj [("name", VStr "OBJECTID"); ("type", VStr "esriFieldTypeOID")];
               VObj [("name", VStr "NAME"); ("type", VStr "esriFieldTypeString")]]
           [])].


(** The answer to an id request: ten ids out of order. *)
Definition ids_payload : val :=
  VObj [("objectIds",
         VArr [VNum 3; VNum 1; VNum 2; VNum 10; VNum 9; VNum 8; VNum 7;
               VNum 6; VNum 5; VNum 4] [])].

(** The answer to a statistics request on a layer whose smallest id is
    0, the statistics named [min] and [max]. *)
Definition zero_min_stats : val :=
  VObj [("features",
         VArr [VObj [("attributes", VObj [("min", VNum 0); ("max", VNum 250)])]]
           [])].


(** The answer of a server that fails a request. *)
Definition error_payload : val :=
  VObj [("error", VObj [("code", VNum 400); ("message", VStr "Invalid URL")])].



End Sample.

(* ================================================================== *)
(** ** Bounds used to state properties *)
(* ================================================================== *)

(** The bounds [(pageMin, pageMax)] of the pages of [_rangePages]. *)
Definition range_bounds (min max size : Z) : list (Z * Z) :=
  let pages := range_page_count min max size in
  map (fun i => (min + (size * i),
                 if i =? pages - 1 then max else min + (size * (i + 1)) - 1))
      (range pages).

(** [x] satisfies the where clause of an id page: [x > pageMin AND x <= pageMax]. *)
Definition id_covers (b : Z * Z) (x : Z) : Prop := fst b < x <= snd b.

(** [x] satisfies the where clause of a range page: [x <= pageMax AND x >= pageMin]. *)
Definition range_covers (b : Z * Z) (x : Z) : Prop := fst b <= x <= snd b.

(** No pair of bounds is satisfied by the id 0. *)
Definition forall_bounds_miss_zero (bs : list (Z * Z)) : Prop :=
  Forall (fun b => ~ id_covers b 0) bs.
(* ================================================================== *)
(** * Properties *)
(* ================================================================== *)

(** ** The string functions on examples *)

Example parseInt_examples :
  parseInt "2000" = Some 2000 /\ parseInt " -12px" = Some (-12)
  /\ parseInt "undefined" = None /\ parseInt "" = None
  /\ parseInt "3abc" = Some 3 /\ parseInt "FeatureServer" = None.
Proof. repeat split. Qed.

Example split_examples :
  split "/" "http://h/a/3" = ["http:"; ""; "h"; "a"; "3"]
  /\ split "//" "http://services.arcgis.com//x" = ["http:"; "services.arcgis.com"; "x"]
  /\ split "/" "a/" = ["a"; ""].
Proof. repeat split. Qed.

Example new_FeatureService_examples :
  new_FeatureService "http://services.arcgis.com/rest/FeatureServer"
    (VObj [("layer", VNum 2)])
  = Some {| url := "http://services.arcgis.com/rest/FeatureServer";
            options := VObj [("layer", VNum 2)];
            layer := VNum 2; timeOut := 90000; concurrency := 16 |}
  /\ new_FeatureService "http://example.com/FeatureServer/12" VUndef
     = Some {| url := "http://example.com/FeatureServer";
               options := VObj [];
               layer := VStr "12"; timeOut := 90000; concurrency := 4 |}
  /\ new_FeatureService "example.com/FeatureServer" VUndef = None.
Proof. repeat split. Qed.

(** ** Arithmetic and list helpers *)

Lemma ceil_div_spec (a b : Z) :
  0 < b -> b * (ceil_div a b - 1) < a <= b * ceil_div a b.
Proof.
  intros Hb. unfold ceil_div.
  pose proof (Z.div_mod (- a) b ltac:(lia)) as Hdm.
  pose proof (Z.mod_pos_bound (- a) b Hb) as Hm.
  nia.
Qed.

Lemma ceil_div_unique (a b q : Z) :
  0 < b -> b * (q - 1) < a <= b * q -> ceil_div a b = q.
Proof.
  intros Hb Hq. pose proof (ceil_div_spec a b Hb) as Hc.
  destruct (Z.lt_trichotomy (ceil_div a b) q) as [Hlt | [Heq | Hgt]].
  - assert (b * ceil_div a b <= b * (q - 1)) by (apply Z.mul_le_mono_nonneg_l; lia).
    lia.
  - exact Heq.
  - assert (b * q <= b * (ceil_div a b - 1)) by (apply Z.mul_le_mono_nonneg_l; lia).
    lia.
Qed.

Lemma ceil_div_nonneg (a b : Z) : 0 < b -> 0 <= a -> 0 <= ceil_div a b.
Proof.
  intros Hb Ha. pose proof (ceil_div_spec a b Hb). nia.
Qed.

Lemma range_length (n : Z) : List.length (range n) = Z.to_nat n.
Proof. unfold range. now rewrite length_map, length_seq. Qed.

Lemma range_nth (n i : Z) :
  0 <= i < n -> nth_error (range n) (Z.to_nat i) = Some i.
Proof.
  intros Hi. unfold range.
  rewrite nth_error_map, nth_error_seq.
  destruct (Nat.ltb_spec (Z.to_nat i) (Z.to_nat n)) as [_ | Hge]; [| lia].
  cbn. f_equal. lia.
Qed.

Lemma range_NoDup (n : Z) : NoDup (range n).
Proof.
  unfold range. apply Injective_map_NoDup.
  - intros x y Hxy. lia.
  - apply seq_NoDup.
Qed.

Lemma retry_eq_dec (r : option Z) (n : Z) : {r = Some n} + {r <> Some n}.
Proof.
  destruct r as [m |]; [| right; discriminate].
  destruct (Z.eq_dec m n) as [-> | Hne]; [left; reflexivity | right; congruence].
Qed.


(** ** Strings and numerals *)

Lemma append_assoc (a b c : string) : ((a ++ b) ++ c = a ++ (b ++ c))%string.
Proof. induction a as [| x a IH]; cbn; [reflexivity | now rewrite IH]. Qed.

Lemma append_length (a b : string) :
  String.length (a ++ b) = (String.length a + String.length b)%nat.
Proof. induction a as [| x a IH]; cbn; [reflexivity | now rewrite IH]. Qed.

Lemma append_inv_head (p a b : string) : (p ++ a = p ++ b)%string -> a = b.
Proof.
  induction p as [| x p IH]; cbn; [auto |]. intros [= Heq]. auto.
Qed.

Lemma append_inv_tail (a b r : string) : (a ++ r = b ++ r)%string -> a = b.
Proof.
  revert b. induction a as [| x a IH]; intros b Heq.
  - destruct b as [| y b]; [reflexivity |].
    apply (f_equal String.length) in Heq. cbn in Heq.
    rewrite append_length in Heq. lia.
  - destruct b as [| y b].
    + apply (f_equal String.length) in Heq. cbn in Heq.
      rewrite append_length in Heq. lia.
    + cbn in Heq. injection Heq as -> Heq. f_equal. now apply IH.
Qed.

(** The decimal numeral of an integer determines it. *)
Lemma string_of_Z_inj (a b : Z) : string_of_Z a = string_of_Z b -> a = b.
Proof.
  unfold string_of_Z. intros Heq. apply DecimalZ.to_int_inj.
  assert (Hok : forall z, Z.to_int z <> Decimal.Pos Decimal.Nil
                          /\ Z.to_int z <> Decimal.Neg Decimal.Nil).
  { intros [| p | p]; cbn; split; try discriminate;
      intros [= Hp]; now apply (DecimalPos.Unsigned.to_uint_nonnil p). }
  pose proof (NilZero.isi (Z.to_int a) (proj1 (Hok a)) (proj2 (Hok a))) as Ha.
  pose proof (NilZero.isi (Z.to_int b) (proj1 (Hok b)) (proj2 (Hok b))) as Hb.
  rewrite Heq in Ha. congruence.
Qed.

Lemma printable_converts (v : val) : printable v = true -> converts v = true.
Proof. unfold printable. now intros [Hc _]%andb_true_iff. Qed.

(** ** Range pages *)

Lemma built_converts (vs : list val) (reqs : list task) :
  forallb converts vs = true -> built vs reqs = Yield reqs.
Proof. intros Hc. unfold built. rewrite Hc. now destruct reqs. Qed.

Section RangePlan.
Context `{Engine}.


End RangePlan.

(** ** Id pages *)

(** The quotient [ids.length / size] is at most [ids.length], so the
    loop test fails once [i] has passed [ids.length]. *)
Lemma id_loop_test_bound (i len size : Z) :
  0 <= len -> len + 1 <= i ->
  id_loop_test i (inject_Z len / inject_Z size)%Q = false.
Proof.
  intros Hlen Hi. unfold id_loop_test.
  apply negb_false_iff, Qle_bool_iff.
  unfold Qle, Qplus, Qdiv, Qmult, Qinv, inject_Z.
  destruct size as [| p | p]; cbn; nia.
Qed.

(** For a positive size the loop test is [(i - 1) * size < ids.length]. *)
Lemma id_loop_test_spec (i len size : Z) :
  0 < size ->
  id_loop_test i (inject_Z len / inject_Z size)%Q = true <-> (i - 1) * size < len.
Proof.
  intros Hsize. unfold id_loop_test.
  rewrite negb_true_iff, <- not_true_iff_false, Qle_bool_iff.
  unfold Qle, Qplus, Qdiv, Qmult, Qinv, inject_Z.
  destruct size as [| p | p]; cbn; lia.
Qed.

(** The loop of [_idPages] ends by its test: more fuel than
    [ids.length + 2] changes nothing. *)
Lemma _idPages_loop_fuel (fs : FeatureService) (oidField : val) (size : Z)
  (ids0 : list Z) (extra fuel : nat) (i : Z) (ids : list Z) :
  let pages := (inject_Z (Z.of_nat (List.length ids0)) / inject_Z size)%Q in
  Z.of_nat (List.length ids0) + 2 <= i + Z.of_nat fuel ->
  _idPages_loop fs oidField size pages (fuel + extra) i ids
  = _idPages_loop fs oidField size pages fuel i ids.
Proof.
  intros pages. revert i ids.
  induction fuel as [| fuel IH]; intros i ids Hfuel.
  - cbn [Nat.add]. destruct extra as [| extra]; [reflexivity |].
    cbn [_idPages_loop]. unfold pages.
    now rewrite id_loop_test_bound by lia.
  - cbn [Nat.add _idPages_loop].
    destruct (id_loop_test i pages); [| reflexivity].
    rewrite (IH (i + 1) (skipn (Z.to_nat size) ids)) by lia.
    reflexivity.
Qed.

(** One iteration of the loop of [_idPages]. *)
Lemma _idPages_loop_step (fs : FeatureService) (oidField : val) (size : Z)
  (pages : Q) (fuel : nat) (i : Z) (ids : list Z) :
  _idPages_loop fs oidField size pages (S fuel) i ids
  = if id_loop_test i pages then
      match firstn (Z.to_nat size) ids with
      | [] => _idPages_loop fs oidField size pages fuel (i + 1)
                (skipn (Z.to_nat size) ids)
      | _ :: _ =>
          id_page fs oidField (firstn (Z.to_nat size) ids)
          :: _idPages_loop fs oidField size pages fuel (i + 1)
               (skipn (Z.to_nat size) ids)
      end
    else [].
Proof.
  cbn [_idPages_loop]. destruct (id_loop_test i pages); [| reflexivity].
  destruct (firstn (Z.to_nat size) ids); reflexivity.
Qed.

Lemma _idPages_loop_nil (fs : FeatureService) (oidField : val) (size : Z)
  (pages : Q) (fuel : nat) (i : Z) :
  _idPages_loop fs oidField size pages fuel i [] = [].
Proof.
  revert i. induction fuel as [| fuel IH]; intros i; [reflexivity |].
  cbn [_idPages_loop]. destruct (id_loop_test i pages); [| reflexivity].
  rewrite firstn_nil, skipn_nil. apply IH.
Qed.

Lemma chunks_go_fuel (n f1 f2 : nat) (ids : list Z) :
  (0 < n)%nat -> (List.length ids <= f1)%nat -> (List.length ids <= f2)%nat ->
  chunks_go n f1 ids = chunks_go n f2 ids.
Proof.
  intros Hn. revert f2 ids.
  induction f1 as [| f1 IH]; intros f2 ids H1 H2.
  - destruct ids; [| cbn in H1; lia]. now destruct f2.
  - destruct ids as [| x ids]; [now destruct f2 |].
    destruct f2 as [| f2]; [cbn in H2; lia |].
    cbn [chunks_go]. f_equal. apply IH.
    + rewrite length_skipn. cbn [List.length] in *. lia.
    + rewrite length_skipn. cbn [List.length] in *. lia.
Qed.

(** For a positive size, [_idPages] builds one request per chunk of
    [size] ids, in order, and nothing for the extra iteration. *)
Lemma idPages_chunks (fs : FeatureService) (ids : list Z) (size : Z) :
  0 < size ->
  _idPages fs ids size
  = map (id_page fs (js_or (option_of fs "objectIdField") (VStr "objectId")))
        (chunks (Z.to_nat size) ids).
Proof.
  intros Hsize. unfold _idPages, chunks.
  set (oidField := js_or _ _). set (L := List.length ids).
  set (pages := (inject_Z (Z.of_nat L) / inject_Z size)%Q).
  assert (Hgen : forall fuel i rest,
             (List.length rest <= fuel)%nat ->
             (rest <> [] -> Z.of_nat (List.length rest) = Z.of_nat L - i * size) ->
             _idPages_loop fs oidField size pages (S fuel) i rest
             = map (id_page fs oidField) (chunks_go (Z.to_nat size) fuel rest)).
  { induction fuel as [| fuel IH]; intros i rest Hlen Hinv.
    - destruct rest; [| cbn in Hlen; lia]. apply _idPages_loop_nil.
    - destruct rest as [| x rest]; [apply _idPages_loop_nil |].
      specialize (Hinv ltac:(discriminate)).
      rewrite _idPages_loop_step.
      replace (id_loop_test i pages) with true
        by (symmetry; apply id_loop_test_spec; [lia | cbn [List.length] in Hinv; nia]).
      cbn [chunks_go map].
      destruct (firstn (Z.to_nat size) (x :: rest)) as [| first more] eqn:Hf.
      { apply (f_equal (@List.length Z)) in Hf. rewrite length_firstn in Hf.
        cbn [List.length] in Hf. lia. }
      f_equal. apply IH.
      + rewrite length_skipn. cbn [List.length] in *. lia.
      + intros Hne. rewrite length_skipn.
        assert (Z.to_nat size < List.length (x :: rest))%nat.
        { destruct (Nat.ltb_spec (Z.to_nat size) (List.length (x :: rest))); auto.
          exfalso. apply Hne. apply skipn_all2. lia. }
        lia. }
  rewrite (Hgen (S L) 0 ids); [| lia | lia].
  f_equal. apply chunks_go_fuel; lia.
Qed.

(** The number of chunks is [ceil(ids.length / size)]. *)
Lemma chunks_length (n : nat) (ids : list Z) :
  (0 < n)%nat ->
  Z.of_nat (List.length (chunks n ids))
  = ceil_div (Z.of_nat (List.length ids)) (Z.of_nat n).
Proof.
  intros Hn. unfold chunks.
  assert (Hgen : forall fuel l,
             (List.length l <= fuel)%nat ->
             Z.of_nat (List.length (chunks_go n fuel l))
             = ceil_div (Z.of_nat (List.length l)) (Z.of_nat n)).
  { induction fuel as [| fuel IH]; intros l Hl.
    - destruct l; [| cbn in Hl; lia]. reflexivity.
    - destruct l as [| x l]; [reflexivity |].
      cbn [chunks_go List.length].
      rewrite Nat2Z.inj_succ, IH by (rewrite length_skipn; cbn [List.length] in *; lia).
      rewrite length_skipn.
      pose proof (ceil_div_spec (Z.of_nat (List.length (x :: l) - n)) (Z.of_nat n)
                    ltac:(lia)) as Hb.
      symmetry. apply ceil_div_unique; [lia |].
      cbn [List.length] in *.
      destruct (Nat.leb_spec (S (List.length l)) n).
      + replace (S (List.length l) - n)%nat with 0%nat in * by lia.
        change (Z.of_nat 0) with 0 in *.
        assert (ceil_div 0 (Z.of_nat n) = 0) as -> by (apply ceil_div_unique; lia).
        lia.
      + rewrite Nat2Z.inj_sub in Hb |- * by lia. lia. }
  now apply Hgen.
Qed.

(** C2. On the ids 1..10 with page size 4 and the object id field
    [OBJECTID], [_idPages] builds three pages for the chunks 1..4, 5..8
    and 9..10, with the bounds (0, 4], (4, 8] and (8, 10]; the upper
    bound of every where clause is put on the literal name [oidField],
    not on [OBJECTID]. *)
Theorem idPages_upper_bound_field :
  let ids := [1; 2; 3; 4; 5; 6; 7; 8; 9; 10] in
  chunks 4 ids = [[1; 2; 3; 4]; [5; 6; 7; 8]; [9; 10]]
  /\ map id_bounds (chunks 4 ids) = [(0, 4); (4, 8); (8, 10)]
  /\ _idPages Sample.service_oid ids 4
     = map (id_page Sample.service_oid (VStr "OBJECTID")) (chunks 4 ids)
  /\ map req (_idPages Sample.service_oid ids 4)
     = map (id_url Sample.service_oid)
         [ "OBJECTID > 0 AND oidField<=4";
           "OBJECTID > 4 AND oidField<=8";
           "OBJECTID > 8 AND oidField<=10" ]
  /\ id_where (VStr "OBJECTID") 0 4 = "OBJECTID > 0 AND oidField<=4"
  /\ id_where_both_bounds (VStr "OBJECTID") 0 4 = "OBJECTID > 0 AND OBJECTID<=4"
  /\ id_where (VStr "OBJECTID") 0 4 <> id_where_both_bounds (VStr "OBJECTID") 0 4.
Proof.
  repeat split; try reflexivity.
  vm_compute. discriminate.
Qed.
(** ** Offset pages *)

Lemma assoc_set_other (k k' : string) (x : val) (l : list (string * val)) :
  k <> k' -> assoc k (assoc_set k' x l) = assoc k l.
Proof.
  intros Hk. induction l as [| [k0 v0] l IH]; cbn.
  - destruct (String.eqb_spec k k'); congruence.
  - destruct (String.eqb_spec k' k0) as [-> | Hne]; cbn.
    + destruct (String.eqb_spec k k0); congruence.
    + destruct (String.eqb_spec k k0); congruence.
Qed.

Lemma assoc_set_same (k : string) (x : val) (l : list (string * val)) :
  assoc k (assoc_set k x l) = x.
Proof.
  induction l as [| [k0 v0] l IH]; cbn.
  - now rewrite String.eqb_refl.
  - destruct (String.eqb_spec k k0) as [-> | Hne]; cbn.
    + now rewrite String.eqb_refl.
    + destruct (String.eqb_spec k k0); congruence.
Qed.

Lemma get_set_other (v v' x : val) (k k' : string) :
  k <> k' -> set v k' x = Some v' -> get v' k = get v k.
Proof.
  intros Hk Hset. destruct v; cbn in Hset; inversion Hset; subst; cbn;
    try reflexivity; now rewrite assoc_set_other.
Qed.

Lemma get_total (v x : val) (k k' : string) :
  get v k = Some x -> exists y, get v k' = Some y.
Proof. destruct v; cbn; intros Hg; try discriminate; eauto. Qed.

Lemma set_total (v x y : val) (k k' : string) :
  get v k = Some x -> exists v', set v k' y = Some v'.
Proof. destruct v; cbn; intros Hg; try discriminate; eauto. Qed.

(** The constructor leaves [this.options] an object or a truthy
    primitive, so reading one of its properties does not throw. *)
Lemma new_FeatureService_options (u : string) (o : val) (fs : FeatureService) :
  new_FeatureService u o = Some fs ->
  exists l, get (options fs) "layer" = Some l.
Proof.
  unfold new_FeatureService.
  destruct (match parseInt _ with Some _ => _ | None => _ end) as [u1 l0].
  destruct (get (js_or o (VObj [])) "layer") as [l |] eqn:Hl; [| discriminate].
  destruct (nth_error _ 1); [| discriminate].
  intros [= <-]. cbn. eauto.
Qed.

(** Storing the object id field in the options does not move the head
    of the page urls. *)
Lemma page_base_objectIdField (fs : FeatureService) (o' oid : val) :
  set (options fs) "objectIdField" oid = Some o' ->
  page_base {| url := url fs; options := o'; layer := layer fs;
               timeOut := timeOut fs; concurrency := concurrency fs |}
  = page_base fs.
Proof.
  intros Hset. unfold page_base, option_of. cbn [url options].
  now rewrite (get_set_other _ _ _ "layer" "objectIdField" ltac:(discriminate) Hset).
Qed.

Lemma effective_size_spec (M : val) :
  (parseInt (ToString M) = None -> effective_size M = 1000)
  /\ (forall k, parseInt (ToString M) = Some k ->
        effective_size M = if Z.min k 1000 =? 0 then 1000 else Z.min k 1000).
Proof.
  unfold effective_size. split.
  - now intros ->.
  - now intros k ->.
Qed.

Lemma offsets_NoDup (n size : Z) :
  size <> 0 -> NoDup (map (fun i => i * size) (range n)).
Proof.
  intros Hs. apply Injective_map_NoDup.
  - intros x y Hxy. nia.
  - apply range_NoDup.
Qed.

(** Storing the object id field in the options does not change the
    layer of the page urls. *)
Lemma page_layer_objectIdField (fs : FeatureService) (o' oid : val) :
  set (options fs) "objectIdField" oid = Some o' ->
  page_layer {| url := url fs; options := o'; layer := layer fs;
                timeOut := timeOut fs; concurrency := concurrency fs |}
  = page_layer fs.
Proof.
  intros Hset. unfold page_layer, option_of. cbn [options].
  now rewrite (get_set_other _ _ _ "layer" "objectIdField" ltac:(discriminate) Hset).
Qed.

Lemma ceil_div_nonpos (a b : Z) : 0 <= a -> b < 0 -> ceil_div a b <= 0.
Proof.
  intros Ha Hb. unfold ceil_div.
  replace b with (- (- b)) by lia. rewrite Z.div_opp_opp by lia.
  pose proof (Z.div_pos a (- b) Ha ltac:(lia)). lia.
Qed.

Lemma range_nonpos (n : Z) : n <= 0 -> range n = [].
Proof. intros Hn. unfold range. now replace (Z.to_nat n) with 0%nat by lia. Qed.

Section PagesProperties.
Context `{Platform} `{Network} `{Engine}.

(** C3, as the code has it.  For a layer that advertises native
    pagination, with feature count [C] and maxRecordCount [M], the page
    size is the minimum of [M] parsed as an integer and 1000, and 1000
    when [M] does not parse or that minimum is 0.  When [M] does not
    parse as a negative integer, [pages()] returns [ceil(C / size)]
    requests; request [i] carries [resultOffset = i * size] and
    [resultRecordCount = size], and no two requests are the same.  When
    [M] parses as a negative integer, the size is that integer and
    [pages()] returns no request at all.  The count and the integers
    parsed are taken in the range where the arithmetic of the program
    is exact. *)
Theorem pages_offset_plan (u : string) (o : val) (fs : FeatureService)
  (meta info aqc sp M : val) (C : Z) :
  new_FeatureService u o = Some fs ->
  snd (metadata fs) = Yield meta ->
  get meta "layer" = Some info ->
  get meta "size" = Some M ->
  get meta "count" = Some (VNum C) ->
  get info "advancedQueryCapabilities" = Some aqc ->
  truthy aqc = true ->
  get aqc "supportsPagination" = Some sp ->
  truthy sp = true ->
  0 <= C <= 9007199254740991 ->
  printable M = true ->
  printable (js_or (option_of fs "layer") (VNum 0)) = true ->
  let size := effective_size M in
  let base := url fs ++ "/" ++ ToString (js_or (option_of fs "layer") (VNum 0)) in
  let page (i : Z) :=
    {| req := base
              ++ "/query?outSR=4326&f=json&outFields=*&where=1=1&resultOffset="
              ++ string_of_Z (i * size)
              ++ "&resultRecordCount=" ++ string_of_Z size
              ++ "&geometry=&returnGeometry=true&geometryPrecision=";
       retry := None |} in
  (parseInt (ToString M) = None -> size = 1000)
  /\ (forall k, parseInt (ToString M) = Some k ->
        - 9007199254740991 <= k ->
        size = if Z.min k 1000 =? 0 then 1000 else Z.min k 1000)
  /\ ((forall k, parseInt (ToString M) = Some k -> 0 <= k) ->
      1 <= size <= 1000
      /\ exists tasks,
           pages fs = Yield tasks
           /\ Z.of_nat (List.length tasks) = ceil_div C size
           /\ (forall i, 0 <= i < ceil_div C size ->
                 nth_error tasks (Z.to_nat i) = Some (page i)
                 /\ safe_integer (i * size))
           /\ NoDup (map req tasks))
  /\ (forall k, parseInt (ToString M) = Some k ->
        - 9007199254740991 <= k < 0 ->
        size = k /\ pages fs = Yield []).
Proof.
  intros Hnew Hmeta Hinfo Hsize Hcount Haqc Haqct Hsp Hspt HC HM Hlayer
         size base page.
  destruct (effective_size_spec M) as [Hnone Hsome].
  destruct (get_total meta info "layer" "oid" Hinfo) as [oid Hoid].
  destruct (new_FeatureService_options u o fs Hnew) as [l Hl].
  destruct (set_total (options fs) l oid "layer" "objectIdField" Hl) as [o' Hset].
  set (fs' := {| url := url fs; options := o'; layer := layer fs;
                 timeOut := timeOut fs; concurrency := concurrency fs |}).
  assert (Hpages : pages fs
                   = built [page_layer fs']
                       (_offsetPages fs' (Some (ceil_div C size)) size)).
  { unfold pages. rewrite Hmeta.
    cbv beta zeta. rewrite Hsize, Hinfo, Hoid. cbn [bind must].
    rewrite Hset. cbn [bind must].
    rewrite (printable_converts _ HM), Hcount. cbn [negb bind must converts].
    rewrite Haqc. cbn [bind must].
    rewrite Haqct, Hsp. cbn [bind must]. rewrite Hspt.
    reflexivity. }
  pose proof (page_layer_objectIdField fs o' oid Hset) as Hpl. fold fs' in Hpl.
  split; [exact Hnone |]. split; [intros k Hk _; exact (Hsome k Hk) |]. split.
  - intros Hk.
    assert (Hpos : 1 <= size <= 1000).
    { unfold size. destruct (parseInt (ToString M)) as [k |] eqn:Hp.
      - rewrite (Hsome k eq_refl). specialize (Hk k eq_refl).
        destruct (Z.eqb_spec (Z.min k 1000) 0); lia.
      - rewrite (Hnone eq_refl). lia. }
    split; [exact Hpos |].
    pose proof (ceil_div_nonneg C size ltac:(lia) ltac:(lia)) as Hn.
    pose proof (ceil_div_spec C size ltac:(lia)) as Hc.
    exists (map page (range (ceil_div C size))).
    split; [| split; [| split]].
    + rewrite Hpages, built_converts.
      * f_equal. unfold _offsetPages. apply map_ext. intros i.
        unfold page, offset_url, page_base, base.
        change (js_or (option_of fs' "layer") (VNum 0)) with (page_layer fs').
        rewrite Hpl. unfold page_layer. cbn [url fs']. now rewrite !append_assoc.
      * cbn [forallb]. rewrite Hpl.
        unfold page_layer. now rewrite (printable_converts _ Hlayer).
    + rewrite length_map, range_length. lia.
    + intros i Hi. split.
      * now rewrite nth_error_map, (range_nth _ i Hi).
      * unfold safe_integer. nia.
    + rewrite map_map. cbn [req page]. apply Injective_map_NoDup.
      * intros x y Hxy. apply append_inv_head, append_inv_head in Hxy.
        apply append_inv_tail, string_of_Z_inj in Hxy. nia.
      * apply range_NoDup.
  - intros k Hp [_ Hneg].
    assert (Hsz : size = k).
    { unfold size. rewrite (Hsome k Hp).
      destruct (Z.eqb_spec (Z.min k 1000) 0); lia. }
    split; [exact Hsz |].
    rewrite Hpages. unfold _offsetPages.
    rewrite range_nonpos; [reflexivity |].
    apply ceil_div_nonpos; lia.
Qed.

End PagesProperties.

(** C3, counterexample.  A layer with native pagination whose
    maxRecordCount is -5, with 10 features: the size is the minimum of
    -5 and 1000, the quotient [ceil(10 / -5)] is -2, and [pages()]
    returns no request. *)
Lemma negative_maxRecordCount_gives_no_page :
  effective_size (VNum (-5)) = -5
  /\ ceil_div 10 (-5) = -2
  /\ @pages Sample.platform (Sample.server Sample.negative_size_layer 10)
       Sample.engine Sample.service
     = Yield [].
Proof. repeat split. Qed.

(** [pages_offset_plan] on a server with [maxRecordCount = 2000] and 2500
    features: three pages of 1000, at the offsets 0, 1000 and 2000. *)
Lemma pages_offset_plan_witness :
  exists tasks,
    @pages Sample.platform (Sample.server Sample.paging_layer 2500)
      Sample.engine Sample.service
    = Yield tasks
    /\ Z.of_nat (List.length tasks) = 3
    /\ nth_error tasks 2
       = Some {| req := "http://example.com/FeatureServer/0/query?outSR=4326&f=json&outFields=*&where=1=1&resultOffset=2000&resultRecordCount=1000&geometry=&returnGeometry=true&geometryPrecision=";
                 retry := None |}
    /\ NoDup (map req tasks).
Proof.
  destruct (@pages_offset_plan Sample.platform
              (Sample.server Sample.paging_layer 2500) Sample.engine
              "http://example.com/FeatureServer" VUndef Sample.service
              Sample.paging_meta Sample.paging_info
              (VObj [("supportsPagination", VBool true)]) (VBool true)
              (VNum 2000) 2500
              eq_refl eq_refl eq_refl eq_refl eq_refl eq_refl eq_refl eq_refl
              eq_refl ltac:(lia) eq_refl eq_refl)
    as (_ & _ & Hplan & _).
  destruct Hplan as (_ & tasks & Hpages & Hlen & Hnth & Hnd).
  - intros k Hk. vm_compute in Hk. injection Hk as <-. lia.
  - exists tasks. split; [exact Hpages |]. split; [exact Hlen |].
    split; [| exact Hnd].
    exact (proj1 (Hnth 2 ltac:(vm_compute; split; congruence))).
Defined.
(** ** Errors *)

Lemma truthy_js_or (a b : val) : truthy b = true -> truthy (js_or a b) = true.
Proof. unfold js_or. destruct (truthy a) eqn:Ha; auto. Qed.

Lemma buildError_value (url message : string) (e : val) :
  _buildError url message e
  = Some (match (if truthy e then e else VObj []) with
          | VObj ps => VObj (built_props url message ps)
          | VArr es ps => VArr es (built_props url message ps)
          | v => v
          end).
Proof.
  unfold _buildError. destruct e as [| | b | n | s | es ps | ps]; cbn [truthy];
    try reflexivity.
  - destruct b; reflexivity.
  - destruct (negb (n =? 0)); reflexivity.
  - destruct (negb (s =? "")%string); reflexivity.
Qed.

Lemma built_props_normalized (url message : string) (ps : list (string * val)) :
  let ps' := built_props url message ps in
  assoc "message" ps' = VStr message
  /\ assoc "request" ps' = VStr url
  /\ assoc "response" ps' = VStr message
  /\ truthy (assoc "type" ps') = true
  /\ truthy (assoc "code" ps') = true.
Proof.
  unfold built_props. cbv zeta.
  repeat split;
    repeat first
      [ rewrite assoc_set_same
      | rewrite assoc_set_other by discriminate ];
    try reflexivity; now apply truthy_js_or.
Qed.

(** [_buildError] never throws and returns a truthy value. *)
Lemma buildError_truthy (url message : string) (e : val) :
  exists error, _buildError url message e = Some error /\ truthy error = true.
Proof.
  rewrite buildError_value. eexists. split; [reflexivity |].
  destruct e as [| | b | n | s | es ps | ps]; cbn; try reflexivity.
  - destruct b; reflexivity.
  - destruct (negb (n =? 0)) eqn:Hn; cbn; [exact Hn | reflexivity].
  - destruct (negb (s =? "")%string) eqn:Hs; cbn; [exact Hs | reflexivity].
Qed.

(** On an object, an array, or no error at all, the result has the
    normalized shape. *)
Lemma buildError_normalized (url message : string) (e : val) :
  is_object e = true \/ truthy e = false ->
  exists error, _buildError url message e = Some error
                /\ normalized url message error.
Proof.
  intros He. rewrite buildError_value. eexists. split; [reflexivity |].
  assert (Hshape :
            (exists ps, (if truthy e then e else VObj []) = VObj ps)
            \/ (exists es ps, (if truthy e then e else VObj []) = VArr es ps)).
  { destruct He as [He | He].
    - destruct e; try discriminate; cbn; eauto.
    - rewrite He. eauto. }
  destruct Hshape as [[ps ->] | (es & ps & ->)];
    destruct (built_props_normalized url message ps) as (Hm & Hr & Hp & Ht & Hc);
    unfold normalized; cbn [get];
    rewrite Hm, Hr, Hp; repeat split; eauto.
Qed.

(** ** Retry and abort *)

Section FetchProperties.
Context `{Platform}.

(** The two things [_catchErrors] can do. *)
Lemma catchErrors_cases (t : task) (e : val) (url : string) :
  exists error,
    _buildError url "Request for a page of features failed" e = Some error
    /\ (retry t = Some 3 -> _catchErrors t e url = Some (t, _abortPaging error))
    /\ (retry t <> Some 3 ->
          _catchErrors t e url
          = Some (retried t, [SetTimeout (next_retry (retry t) * 1000) (retried t)])).
Proof.
  destruct (buildError_truthy url "Request for a page of features failed" e)
    as (error & Hb & _).
  exists error. split; [exact Hb |]. split.
  - intros H3. unfold _catchErrors. rewrite Hb, H3. reflexivity.
  - intros H3. unfold _catchErrors, retried, next_retry. rewrite Hb.
    destruct (retry t) as [n |]; [| reflexivity].
    destruct (Z.eqb_spec n 0) as [-> | H0]; [reflexivity |].
    destruct (Z.eqb_spec n 3) as [-> | Hn3]; [congruence |].
    reflexivity.
Qed.

(** An ending that is one failure goes to [_catchErrors]. *)
Lemma on_ending_failed (fs : FeatureService) (t : task) (uri : string)
  (ev : fetch_event) (e : val) :
  failed_with fs ev = Some e ->
  exists error,
    _buildError uri "Request for a page of features failed" e = Some error
    /\ (retry t = Some 3 -> on_ending fs t uri ev = (t, _abortPaging error))
    /\ (retry t <> Some 3 ->
          on_ending fs t uri ev
          = (retried t, [SetTimeout (next_retry (retry t) * 1000) (retried t)])).
Proof.
  intros Hf.
  destruct (catchErrors_cases t e uri) as (error & Hb & Habort & Hretry).
  exists error. split; [exact Hb |].
  assert (Hon : on_ending fs t uri ev
                = match _catchErrors t e uri with
                  | Some r => r
                  | None => (t, [Uncaught])
                  end).
  { unfold on_ending.
    destruct ev as [| err | encoding data | | err]; cbn in Hf.
    - injection Hf as <-. destruct (_catchErrors _ _ _) as [[t' effs] |];
        [now rewrite app_nil_r | reflexivity].
    - injection Hf as <-. destruct (_catchErrors _ _ _) as [[t' effs] |];
        [now rewrite app_nil_r | reflexivity].
    - destruct (_decode encoding data) as [cs th].
      destruct cs as [| [err j] [| c cs]]; try discriminate.
      destruct th; try discriminate.
      destruct (truthy err) eqn:Herr; try discriminate.
      injection Hf as <-. cbn. rewrite Herr.
      destruct (_catchErrors _ _ _) as [[t' effs] |];
        [now rewrite !app_nil_r | reflexivity].
    - injection Hf as <-. destruct (_catchErrors _ _ _) as [[t' effs] |];
        [now rewrite app_nil_r | reflexivity].
    - injection Hf as <-. destruct (_catchErrors _ _ _) as [[t' effs] |];
        [now rewrite app_nil_r | reflexivity]. }
  split; intros H3; rewrite Hon.
  - now rewrite (Habort H3).
  - now rewrite (Hretry H3).
Qed.

(** A request whose first ending is one failure: the task is
    rescheduled, or the queue is killed when its counter is 3. *)
Lemma requestFeatures_failed (fs : FeatureService) (t : task) (ev : fetch_event)
  (e : val) (d : string) :
  decodeURI (req t) = Some d ->
  failed_with fs ev = Some e ->
  exists error,
    _buildError (encodeURI d) "Request for a page of features failed" e = Some error
    /\ (retry t = Some 3 ->
          _requestFeatures fs t ev
          = (t, Attempt (encodeURI d) :: _abortPaging error))
    /\ (retry t <> Some 3 ->
          _requestFeatures fs t ev
          = (retried t,
             [Attempt (encodeURI d);
              SetTimeout (next_retry (retry t) * 1000) (retried t)])).
Proof.
  intros Hd Hf.
  destruct (on_ending_failed fs t (encodeURI d) ev e Hf) as (error & Hb & Ha & Hr).
  exists error. split; [exact Hb |].
  unfold _requestFeatures. rewrite Hd.
  split; intros H3; [rewrite (Ha H3) | rewrite (Hr H3)]; reflexivity.
Qed.

(** Every form the handling of one ending can take: an exception
    alone, the page delivered, or a failure handled, by an abort when
    the counter is 3 and by a timer otherwise, with an exception after
    it when the body did not parse. *)
Lemma on_ending_forms (fs : FeatureService) (t : task) (uri : string)
  (ev : fetch_event) :
  on_ending fs t uri ev = (t, [Uncaught])
  \/ (exists json, on_ending fs t uri ev = (t, [Callback VNull json]))
  \/ (exists error after,
        (after = [] \/ after = [Uncaught])
        /\ ((retry t = Some 3
             /\ on_ending fs t uri ev = (t, (_abortPaging error ++ after)%list))
            \/ (retry t <> Some 3
                /\ on_ending fs t uri ev
                   = (retried t,
                      SetTimeout (next_retry (retry t) * 1000) (retried t)
                      :: after)))).
Proof.
  assert (Hcatch : forall e after,
             (after = [] \/ after = [Uncaught]) ->
             let r := match _catchErrors t e uri with
                      | Some (t', effs) => (t', (effs ++ after)%list)
                      | None => (t, [Uncaught])
                      end in
             exists error after,
               (after = [] \/ after = [Uncaught])
               /\ ((retry t = Some 3
                    /\ r = (t, (_abortPaging error ++ after)%list))
                   \/ (retry t <> Some 3
                       /\ r = (retried t,
                               SetTimeout (next_retry (retry t) * 1000) (retried t)
                               :: after)))).
  { intros e after Hafter.
    destruct (catchErrors_cases t e uri) as (error & _ & Habort & Hretry).
    exists error, after. split; [exact Hafter |].
    destruct (retry_eq_dec (retry t) 3) as [H3 | H3].
    - left. split; [exact H3 |]. cbv zeta. rewrite (Habort H3). reflexivity.
    - right. split; [exact H3 |]. cbv zeta. rewrite (Hretry H3). reflexivity. }
  unfold on_ending.
  destruct ev as [| err | encoding data | | err];
    try (right; right; apply (Hcatch _ [] (or_introl eq_refl))).
  destruct (_decode encoding data) as [cs th] eqn:Hdec. cbn [calls threw].
  unfold _decode in Hdec.
  destruct data as [| chunk data].
  - injection Hdec as <- <-. cbn [on_decoded_all on_decoded truthy].
    right. right.
    specialize (Hcatch (VObj [("type", VStr "Response from the server was empty")])
                       [] (or_introl eq_refl)).
    cbv zeta in Hcatch.
    destruct (_catchErrors t _ uri) as [[t' effs] |];
      [rewrite !app_nil_r in *; exact Hcatch | exact Hcatch].
  - destruct (decode_body encoding (chunk :: data)) as [json |].
    + destruct (get json "error") as [e |].
      * destruct (truthy e) eqn:He; injection Hdec as <- <-.
        -- cbn [on_decoded_all on_decoded]. rewrite He. right. right.
           specialize (Hcatch e [] (or_introl eq_refl)).
           cbv zeta in Hcatch.
           destruct (_catchErrors t e uri) as [[t' effs] |];
             [rewrite !app_nil_r in *; exact Hcatch | exact Hcatch].
        -- right. left. exists json. reflexivity.
      * injection Hdec as <- <-. left. reflexivity.
    + cbn [get] in Hdec. injection Hdec as <- <-.
      cbn [on_decoded_all on_decoded truthy]. right. right.
      specialize (Hcatch (VObj [("type", VStr "Failed to parse feature response")])
                         [Uncaught] (or_intror eq_refl)).
      cbv zeta in Hcatch.
      destruct (_catchErrors t _ uri) as [[t' effs] |];
        [rewrite app_nil_r; exact Hcatch | exact Hcatch].
Qed.

Lemma attempts_app (a b : list effect) :
  attempts (a ++ b) = (attempts a + attempts b)%nat.
Proof. unfold attempts. now rewrite filter_app, length_app. Qed.

Lemma callbacks_app (a b : list effect) :
  callbacks (a ++ b) = (callbacks a + callbacks b)%nat.
Proof. unfold callbacks. now rewrite filter_app, length_app. Qed.

Lemma kills_app (a b : list effect) :
  kills (a ++ b) = (kills a + kills b)%nat.
Proof. unfold kills. now rewrite filter_app, length_app. Qed.

Lemma failure_marks_app (a b : list effect) :
  failure_marks (a ++ b) = (failure_marks a ++ failure_marks b)%list.
Proof. unfold failure_marks. apply flat_map_app. Qed.

Lemma remove_nth_length {A : Type} (k : nat) (l : list A) (x : A) :
  nth_error l k = Some x -> S (List.length (remove_nth k l)) = List.length l.
Proof.
  revert k. induction l as [| y l IH]; intros [| k] Hn; cbn in *;
    try discriminate; [reflexivity |].
  now rewrite (IH k Hn).
Qed.

Lemma replace_nth_live (k : nat) (l : list (string * list fetch_event))
  (x y : string * list fetch_event) :
  nth_error l k = Some x ->
  (List.length (filter live (replace_nth k y l)) + (if live x then 1 else 0)
   = List.length (filter live l) + (if live y then 1 else 0))%nat.
Proof.
  revert k. induction l as [| z l IH]; intros [| k] Hn; cbn in *;
    try discriminate.
  - injection Hn as ->. destruct (live x), (live y); cbn; lia.
  - specialize (IH k Hn). destruct (live z); cbn; lia.
Qed.

Lemma replace_nth_Forall {A : Type} (P : A -> Prop) (k : nat) (l : list A) (y : A) :
  Forall P l -> P y -> Forall P (replace_nth k y l).
Proof.
  intros Hl Hy. revert k. induction Hl as [| z l Hz Hl IH]; intros [| k]; cbn;
    constructor; auto.
Qed.

Lemma replace_nth_last {A : Type} (l : list A) (x y : A) :
  replace_nth (List.length l) y (l ++ [x]) = (l ++ [y])%list.
Proof. induction l as [| z l IH]; cbn; [reflexivity | now rewrite IH]. Qed.

Lemma nth_error_last {A : Type} (l : list A) (x : A) :
  nth_error (l ++ [x]) (List.length l) = Some x.
Proof. induction l as [| z l IH]; cbn; [reflexivity | exact IH]. Qed.

(** What the handling of one ending leaves of the budget of the task:
    a failure that sets a timer raises the counter by one, everything
    else leaves the counter as it is and sets no timer. *)
Lemma on_ending_budget (fs : FeatureService) (t : task) (uri : string)
  (ev : fetch_event) :
  in_budget t ->
  in_budget (fst (on_ending fs t uri ev))
  /\ attempts (snd (on_ending fs t uri ev)) = 0%nat
  /\ (List.length (delays (snd (on_ending fs t uri ev)))
      + Z.to_nat (3 - counter (fst (on_ending fs t uri ev)))
      = Z.to_nat (3 - counter t))%nat
  /\ (forall l, marks_from (counter (fst (on_ending fs t uri ev))) l ->
        marks_from (counter t)
          (failure_marks (snd (on_ending fs t uri ev)) ++ l)).
Proof.
  intros Hb.
  assert (Hnext : retry t <> Some 3 ->
                  counter t < 3 /\ next_retry (retry t) = counter t + 1
                  /\ in_budget (retried t)
                  /\ counter (retried t) = counter t + 1).
  { unfold in_budget, counter, retried, next_retry in *. cbn [retry].
    destruct (retry t) as [k |]; intros H3; [| lia].
    assert (k <> 3) by congruence. lia. }
  destruct (on_ending_forms fs t uri ev)
    as [-> | [[json ->] | (error & after & Hafter & [[H3 ->] | [H3 ->]])]];
    cbn [fst snd].
  - repeat split; auto.
  - repeat split; auto.
  - assert (Hc : counter t = 3) by (unfold counter; now rewrite H3).
    destruct Hafter as [-> | ->];
      unfold _abortPaging, delays, attempts, failure_marks;
      cbn [flat_map filter app List.length];
      (split; [exact Hb |]); (split; [reflexivity |]); (split; [lia |]);
      intros l Hl; right; rewrite Hc in Hl; auto.
  - destruct (Hnext H3) as (Hlt & Hn & Hb' & Hc).
    destruct Hafter as [-> | ->];
      unfold delays, attempts, failure_marks;
      cbn [flat_map filter app List.length];
      (split; [exact Hb' |]); (split; [reflexivity |]);
      (split; [rewrite Hc; lia |]);
      intros l Hl; left; rewrite Hn; rewrite Hc in Hl; auto.
Qed.

(** What the handling of one ending does to the queue worker: at most
    one call of its callback, a kill only with a call, and no timer
    together with a call. *)
Lemma on_ending_calls (fs : FeatureService) (t : task) (uri : string)
  (ev : fetch_event) :
  (callbacks (snd (on_ending fs t uri ev))
   + List.length (delays (snd (on_ending fs t uri ev))) <= 1)%nat
  /\ (kills (snd (on_ending fs t uri ev))
      <= callbacks (snd (on_ending fs t uri ev)))%nat.
Proof.
  destruct (on_ending_forms fs t uri ev)
    as [-> | [[json ->] | (error & after & Hafter & [[H3 ->] | [H3 ->]])]];
    cbn [fst snd]; try (cbn; lia);
    destruct Hafter as [-> | ->]; cbn; lia.
Qed.

(** Starting a request takes one attempt from the budget. *)
Lemma start_request_budget (fs : FeatureService) (events : nat -> list fetch_event)
  (st : pool) :
  in_budget (shared st) ->
  in_budget (shared (fst (start_request fs events st)))
  /\ (attempts (snd (start_request fs events st))
      + (List.length (pending (fst (start_request fs events st)))
         + Z.to_nat (3 - counter (shared (fst (start_request fs events st)))))
      <= 1 + (List.length (pending st) + Z.to_nat (3 - counter (shared st))))%nat
  /\ (forall l,
        marks_from (counter (shared (fst (start_request fs events st)))) l ->
        marks_from (counter (shared st))
          (failure_marks (snd (start_request fs events st)) ++ l)).
Proof.
  intros Hb. unfold start_request.
  destruct (decodeURI (req (shared st))) as [d |]; cbn [fst snd shared pending];
    [| repeat split; [exact Hb | change (attempts [Uncaught]) with 0%nat; lia
                      | intros l Hl; exact Hl]].
  assert (Hplain :
             in_budget (shared st)
             /\ (attempts [Attempt (encodeURI d)]
                 + (List.length (pending st) + Z.to_nat (3 - counter (shared st)))
                 <= 1 + (List.length (pending st)
                         + Z.to_nat (3 - counter (shared st))))%nat
             /\ (forall l, marks_from (counter (shared st)) l ->
                   marks_from (counter (shared st))
                     (failure_marks [Attempt (encodeURI d)] ++ l))).
  { repeat split; [exact Hb | change (attempts [Attempt (encodeURI d)]) with 1%nat; lia
                  | intros l Hl; exact Hl]. }
  destruct (events (started st)) as [| [| err | encoding data | | err] rest];
    cbn [fst snd shared pending]; try exact Hplain.
  pose proof (on_ending_budget fs (shared st) (encodeURI d) SetupThrew Hb)
    as (Hb' & Ha & Hd & Hm).
  destruct (on_ending fs (shared st) (encodeURI d) SetupThrew) as [t' effs].
  cbn [fst snd shared pending] in *.
  split; [exact Hb' |]. split.
  - change (Attempt (encodeURI d) :: effs) with ([Attempt (encodeURI d)] ++ effs)%list.
    rewrite attempts_app, Ha, length_app.
    change (attempts [Attempt (encodeURI d)]) with 1%nat. lia.
  - intros l Hl. cbn [failure_marks flat_map app]. now apply Hm.
Qed.

(** A step never adds to the budget of the task. *)
Lemma step_budget (fs : FeatureService) (events : nat -> list fetch_event)
  (st : pool) (c : choice) :
  in_budget (shared st) ->
  in_budget (shared (fst (step fs events st c)))
  /\ (attempts (snd (step fs events st c))
      + (List.length (pending (fst (step fs events st c)))
         + Z.to_nat (3 - counter (shared (fst (step fs events st c)))))
      <= List.length (pending st) + Z.to_nat (3 - counter (shared st)))%nat
  /\ (forall l,
        marks_from (counter (shared (fst (step fs events st c)))) l ->
        marks_from (counter (shared st))
          (failure_marks (snd (step fs events st c)) ++ l)).
Proof.
  intros Hb.
  assert (Hnone : in_budget (shared st)
                  /\ (attempts []
                      + (List.length (pending st)
                         + Z.to_nat (3 - counter (shared st)))
                      <= List.length (pending st)
                         + Z.to_nat (3 - counter (shared st)))%nat
                  /\ (forall l, marks_from (counter (shared st)) l ->
                        marks_from (counter (shared st)) (failure_marks [] ++ l))).
  { repeat split; [exact Hb | change (attempts []) with 0%nat; lia
                  | intros l Hl; exact Hl]. }
  unfold step. destruct (dead st); [exact Hnone |].
  destruct c as [k | k].
  - destruct (nth_error (inflight st) k) as [[uri [| ev rest]] |];
      [exact Hnone | | exact Hnone].
    pose proof (on_ending_budget fs (shared st) uri ev Hb) as (Hb' & Ha & Hd & Hm).
    destruct ev as [| err | encoding data | | err];
      [exact Hnone | | | |];
      match goal with
      | |- context [on_ending fs (shared st) uri ?e] =>
          destruct (on_ending fs (shared st) uri e) as [t' effs]
      end;
      cbn [fst snd shared pending] in *;
      (split; [exact Hb' |]);
      (split; [rewrite Ha, length_app; lia | exact Hm]).
  - destruct (nth_error (pending st) k) as [ms |] eqn:Hk; [| exact Hnone].
    pose proof (remove_nth_length k (pending st) ms Hk) as Hlen.
    pose proof (start_request_budget fs events
                  {| shared := shared st; inflight := inflight st;
                     pending := remove_nth k (pending st);
                     started := started st; dead := false |} Hb)
      as (Hb' & Ha & Hm).
    cbn [shared pending] in Ha, Hm.
    split; [exact Hb' |]. split; [lia | exact Hm].
Qed.

(** Whatever the order of steps, the requests started from a state on
    are at most the timers pending plus what the counter leaves to 3,
    and the handled failures leave the marks of a counter that goes up
    to 3 and aborts only from there. *)
Lemma run_from_budget (fs : FeatureService) (events : nat -> list fetch_event)
  (schedule : list choice) (st : pool) :
  in_budget (shared st) ->
  (attempts (snd (run_from fs events schedule st))
   <= List.length (pending st) + Z.to_nat (3 - counter (shared st)))%nat
  /\ marks_from (counter (shared st))
       (failure_marks (snd (run_from fs events schedule st))).
Proof.
  revert st. induction schedule as [| c schedule IH]; intros st Hb.
  - cbn. split; [lia | exact I].
  - cbn [run_from].
    pose proof (step_budget fs events st c Hb) as (Hb1 & Ha1 & Hm1).
    destruct (step fs events st c) as [st1 effs1]. cbn [fst snd] in *.
    specialize (IH st1 Hb1). destruct IH as [Ha2 Hm2].
    destruct (run_from fs events schedule st1) as [st2 effs2]. cbn [fst snd] in *.
    rewrite attempts_app, failure_marks_app. split; [lia | now apply Hm1].
Qed.

(** The marks of a task whose counter is not set at first: the timers
    of 1000, 2000 and 3000 milliseconds in this order, as far as they
    go, and aborts only after all three. *)
Lemma marks_from_zero (l : list (option Z)) :
  marks_from 0 l ->
  exists k m,
    l = (firstn k [Some 1000; Some 2000; Some 3000] ++ repeat None m)%list
    /\ (m <> 0%nat -> k = 3%nat).
Proof.
  assert (H3 : forall l, marks_from 3 l -> l = repeat None (List.length l)).
  { induction l0 as [| x l0 IH]; cbn; [reflexivity |].
    intros [(Hlt & _) | (_ & -> & Hl)]; [lia |]. f_equal. now apply IH. }
  intros H0.
  destruct l as [| x0 l]; [exists 0%nat, 0%nat; split; [reflexivity | congruence] |].
  destruct H0 as [(_ & -> & H1) | (Hc & _)]; [| discriminate].
  destruct l as [| x1 l]; [exists 1%nat, 0%nat; split; [reflexivity | congruence] |].
  destruct H1 as [(_ & -> & H2) | (Hc & _)]; [| discriminate].
  destruct l as [| x2 l]; [exists 2%nat, 0%nat; split; [reflexivity | congruence] |].
  destruct H2 as [(_ & -> & H2) | (Hc & _)]; [| discriminate].
  exists 3%nat, (List.length l). split; [| reflexivity].
  cbn. do 3 f_equal. now apply H3.
Qed.

(** Starting a request adds at most one thing under way, and calls the
    queue worker's callback only when it leaves none. *)
Lemma start_request_sequential (fs : FeatureService)
  (events : nat -> list fetch_event) (st : pool) :
  (forall n, (List.length (events n) <= 1)%nat) ->
  Forall (fun r => (List.length (snd r) <= 1)%nat) (inflight st) ->
  Forall (fun r => (List.length (snd r) <= 1)%nat)
         (inflight (fst (start_request fs events st)))
  /\ (callbacks (snd (start_request fs events st))
      + outstanding (fst (start_request fs events st))
      <= outstanding st + 1)%nat
  /\ (kills (snd (start_request fs events st))
      <= callbacks (snd (start_request fs events st)))%nat.
Proof.
  intros Hone Hwf. unfold start_request.
  destruct (decodeURI (req (shared st))) as [d |]; cbn [fst snd];
    [| repeat split;
       [exact Hwf
       | unfold outstanding, callbacks; cbn [inflight pending filter List.length]; lia
       | cbn; lia]].
  specialize (Hone (started st)).
  destruct (events (started st)) as [| ev [| ev' rest]];
    [| | cbn in Hone; lia].
  - cbn [fst snd inflight]. split; [| split; [| cbn; lia]].
    + apply Forall_app. split; [exact Hwf | repeat constructor].
    + unfold outstanding. cbn [inflight pending].
      rewrite filter_app, length_app. cbn. lia.
  - assert (Hplain : Forall (fun r => (List.length (snd r) <= 1)%nat)
                            (inflight st ++ [(encodeURI d, [ev])])
                     /\ (callbacks [Attempt (encodeURI d)]
                         + (List.length
                              (filter live (inflight st ++ [(encodeURI d, [ev])]))
                            + List.length (pending st))
                         <= outstanding st + 1)%nat
                     /\ (kills [Attempt (encodeURI d)]
                         <= callbacks [Attempt (encodeURI d)])%nat).
    { split; [| split; [| cbn; lia]].
      - apply Forall_app. split; [exact Hwf | repeat constructor].
      - unfold outstanding. rewrite filter_app, length_app. cbn. lia. }
    destruct ev as [| err | encoding data | | err];
      cbn [fst snd inflight pending]; try exact Hplain.
    pose proof (on_ending_calls fs (shared st) (encodeURI d) SetupThrew)
      as [Hc Hk].
    destruct (on_ending fs (shared st) (encodeURI d) SetupThrew) as [t' effs].
    cbn [fst snd inflight pending] in *.
    split; [| split].
    + apply Forall_app. split; [exact Hwf | repeat constructor].
    + unfold outstanding. cbn [inflight pending].
      rewrite filter_app, !length_app.
      change (Attempt (encodeURI d) :: effs) with ([Attempt (encodeURI d)] ++ effs)%list.
      rewrite callbacks_app. cbn. lia.
    + change (Attempt (encodeURI d) :: effs) with ([Attempt (encodeURI d)] ++ effs)%list.
      rewrite callbacks_app, kills_app. cbn. lia.
Qed.

(** When every request ends at most once, a step adds nothing to what
    is under way, and calls the callback only by taking from it. *)
Lemma step_sequential (fs : FeatureService) (events : nat -> list fetch_event)
  (st : pool) (c : choice) :
  (forall n, (List.length (events n) <= 1)%nat) ->
  Forall (fun r => (List.length (snd r) <= 1)%nat) (inflight st) ->
  Forall (fun r => (List.length (snd r) <= 1)%nat)
         (inflight (fst (step fs events st c)))
  /\ (callbacks (snd (step fs events st c))
      + outstanding (fst (step fs events st c))
      <= outstanding st)%nat
  /\ (kills (snd (step fs events st c))
      <= callbacks (snd (step fs events st c)))%nat.
Proof.
  intros Hone Hwf.
  assert (Hnone : Forall (fun r => (List.length (snd r) <= 1)%nat) (inflight st)
                  /\ (callbacks [] + outstanding st <= outstanding st)%nat
                  /\ (kills [] <= callbacks [])%nat).
  { repeat split; [exact Hwf | cbn; lia | cbn; lia]. }
  unfold step. destruct (dead st); [exact Hnone |].
  destruct c as [k | k].
  - destruct (nth_error (inflight st) k) as [[uri [| ev rest]] |] eqn:Hk;
      [exact Hnone | | exact Hnone].
    assert (Hrest : rest = []).
    { apply nth_error_In in Hk. rewrite Forall_forall in Hwf.
      specialize (Hwf _ Hk). cbn in Hwf. destruct rest; [reflexivity | cbn in Hwf; lia]. }
    subst rest.
    pose proof (replace_nth_live k (inflight st) (uri, [ev]) (uri, []) Hk) as Hlive.
    cbn [live snd] in Hlive.
    assert (Hwf' : Forall (fun r => (List.length (snd r) <= 1)%nat)
                          (replace_nth k (uri, []) (inflight st))).
    { apply replace_nth_Forall; [exact Hwf | cbn; lia]. }
    pose proof (on_ending_calls fs (shared st) uri ev) as [Hc Hkl].
    destruct ev as [| err | encoding data | | err];
      [cbn [fst snd inflight pending]; split; [exact Hwf' |];
       split; [unfold outstanding; cbn [inflight pending callbacks filter List.length]; lia
              | cbn; lia]
      | | | |];
      match goal with
      | |- context [on_ending fs (shared st) uri ?e] =>
          destruct (on_ending fs (shared st) uri e) as [t' effs]
      end;
      cbn [fst snd inflight pending] in *;
      (split; [exact Hwf' |]);
      (split; [unfold outstanding; cbn [inflight pending]; rewrite length_app; lia
              | exact Hkl]).
  - destruct (nth_error (pending st) k) as [ms |] eqn:Hk; [| exact Hnone].
    pose proof (remove_nth_length k (pending st) ms Hk) as Hlen.
    pose proof (start_request_sequential fs events
                  {| shared := shared st; inflight := inflight st;
                     pending := remove_nth k (pending st);
                     started := started st; dead := false |} Hone Hwf)
      as (Hwf' & Hc & Hkl).
    split; [exact Hwf' |]. split; [| exact Hkl].
    unfold outstanding in *. cbn [inflight pending] in Hc. lia.
Qed.

Lemma run_from_sequential (fs : FeatureService) (events : nat -> list fetch_event)
  (schedule : list choice) (st : pool) :
  (forall n, (List.length (events n) <= 1)%nat) ->
  Forall (fun r => (List.length (snd r) <= 1)%nat) (inflight st) ->
  (callbacks (snd (run_from fs events schedule st))
   + outstanding (fst (run_from fs events schedule st))
   <= outstanding st)%nat
  /\ (kills (snd (run_from fs events schedule st))
      <= callbacks (snd (run_from fs events schedule st)))%nat.
Proof.
  intros Hone. revert st. induction schedule as [| c schedule IH]; intros st Hwf.
  - cbn. lia.
  - cbn [run_from].
    pose proof (step_sequential fs events st c Hone Hwf) as (Hwf1 & Hc1 & Hk1).
    destruct (step fs events st c) as [st1 effs1]. cbn [fst snd] in *.
    specialize (IH st1 Hwf1). destruct IH as [Hc2 Hk2].
    destruct (run_from fs events schedule st1) as [st2 effs2]. cbn [fst snd] in *.
    rewrite callbacks_app, kills_app. lia.
Qed.

(** A kill of the queue always comes with a call of the callback. *)
Lemma run_from_kills (fs : FeatureService) (events : nat -> list fetch_event)
  (schedule : list choice) (st : pool) :
  (kills (snd (run_from fs events schedule st))
   <= callbacks (snd (run_from fs events schedule st)))%nat.
Proof.
  assert (Hstart : forall st,
             (kills (snd (start_request fs events st))
              <= callbacks (snd (start_request fs events st)))%nat).
  { intros st0. unfold start_request.
    destruct (decodeURI (req (shared st0))) as [d |]; [| cbn; lia].
    destruct (events (started st0)) as [| [| err | encoding data | | err] rest];
      try (cbn; lia).
    pose proof (on_ending_calls fs (shared st0) (encodeURI d) SetupThrew) as [_ Hk].
    destruct (on_ending fs (shared st0) (encodeURI d) SetupThrew) as [t' effs].
    cbn [fst snd] in *.
    change (Attempt (encodeURI d) :: effs) with ([Attempt (encodeURI d)] ++ effs)%list.
    rewrite callbacks_app, kills_app. cbn. lia. }
  revert st. induction schedule as [| c schedule IH]; intros st; [cbn; lia |].
  cbn [run_from].
  assert (Hstep : (kills (snd (step fs events st c))
                   <= callbacks (snd (step fs events st c)))%nat).
  { unfold step. destruct (dead st); [cbn; lia |].
    destruct c as [k | k].
    - destruct (nth_error (inflight st) k) as [[uri [| ev rest]] |];
        try (cbn; lia).
      pose proof (on_ending_calls fs (shared st) uri ev) as [_ Hk].
      destruct ev as [| err | encoding data | | err]; [cbn; lia | | | |];
        match goal with
        | |- context [on_ending fs (shared st) uri ?e] =>
            destruct (on_ending fs (shared st) uri e) as [t' effs]
        end; exact Hk.
    - destruct (nth_error (pending st) k); [apply Hstart | cbn; lia]. }
  destruct (step fs events st c) as [st1 effs1]. cbn [fst snd] in *.
  specialize (IH st1).
  destruct (run_from fs events schedule st1) as [st2 effs2]. cbn [fst snd] in *.
  rewrite callbacks_app, kills_app. lia.
Qed.

Lemma run_from_cons (fs : FeatureService) (events : nat -> list fetch_event)
  (c : choice) (schedule : list choice) (st : pool) :
  run_from fs events (c :: schedule) st
  = (fst (run_from fs events schedule (fst (step fs events st c))),
     (snd (step fs events st c)
      ++ snd (run_from fs events schedule (fst (step fs events st c))))%list).
Proof.
  cbn [run_from]. destruct (step fs events st c) as [st1 effs1].
  cbn [fst snd]. now destruct (run_from fs events schedule st1).
Qed.

(** A request that ends once, in a failure, while the counter is not
    3: started and ended, it leaves the counter one higher and one
    more timer pending. *)
Lemma start_end_retry (fs : FeatureService) (events : nat -> list fetch_event)
  (st : pool) (ev : fetch_event) (e : val) (d : string) (schedule : list choice) :
  decodeURI (req (shared st)) = Some d ->
  events (started st) = [ev] ->
  failed_with fs ev = Some e ->
  retry (shared st) <> Some 3 ->
  let ms := next_retry (retry (shared st)) * 1000 in
  let st' := {| shared := retried (shared st);
                inflight := (inflight st ++ [(encodeURI d, [])])%list;
                pending := (pending st ++ [ms])%list;
                started := S (started st);
                dead := false |} in
  let r := run_from fs events (Ending (List.length (inflight st)) :: schedule)
             (fst (start_request fs events st)) in
  fst r = fst (run_from fs events schedule st')
  /\ (snd (start_request fs events st) ++ snd r)%list
     = Attempt (encodeURI d) :: SetTimeout ms (retried (shared st))
       :: snd (run_from fs events schedule st').
Proof.
  intros Hd Hev Hf H3 ms st' r. subst r. rewrite run_from_cons.
  destruct (on_ending_failed fs (shared st) (encodeURI d) ev e Hf)
    as (error & _ & _ & Hr).
  specialize (Hr H3). fold ms in Hr.
  unfold start_request. rewrite Hd, Hev.
  destruct ev as [| err | encoding data | | err].
  - rewrite Hr. cbn [fst snd delays flat_map app existsb is_uncaught orb].
    unfold step. cbn [dead inflight]. rewrite nth_error_last.
    cbn [fst snd app]. split; reflexivity.
  - cbn [fst snd]. unfold step. cbn [dead inflight shared pending started].
    rewrite nth_error_last, Hr, replace_nth_last.
    cbn [fst snd delays flat_map app existsb is_uncaught orb]. split; reflexivity.
  - cbn [fst snd]. unfold step. cbn [dead inflight shared pending started].
    rewrite nth_error_last, Hr, replace_nth_last.
    cbn [fst snd delays flat_map app existsb is_uncaught orb]. split; reflexivity.
  - cbn [fst snd]. unfold step. cbn [dead inflight shared pending started].
    rewrite nth_error_last, Hr, replace_nth_last.
    cbn [fst snd delays flat_map app existsb is_uncaught orb]. split; reflexivity.
  - cbn [fst snd]. unfold step. cbn [dead inflight shared pending started].
    rewrite nth_error_last, Hr, replace_nth_last.
    cbn [fst snd delays flat_map app existsb is_uncaught orb]. split; reflexivity.
Qed.

(** The same request while the counter is 3: the queue is killed and
    the callback called, and nothing more is under way. *)
Lemma start_end_abort (fs : FeatureService) (events : nat -> list fetch_event)
  (st : pool) (ev : fetch_event) (e : val) (d : string) (schedule : list choice) :
  decodeURI (req (shared st)) = Some d ->
  events (started st) = [ev] ->
  failed_with fs ev = Some e ->
  retry (shared st) = Some 3 ->
  exists error,
    _buildError (encodeURI d) "Request for a page of features failed" e = Some error
    /\ let st' := {| shared := shared st;
                     inflight := (inflight st ++ [(encodeURI d, [])])%list;
                     pending := pending st;
                     started := S (started st);
                     dead := false |} in
       let r := run_from fs events (Ending (List.length (inflight st)) :: schedule)
                  (fst (start_request fs events st)) in
       fst r = fst (run_from fs events schedule st')
       /\ (snd (start_request fs events st) ++ snd r)%list
          = Attempt (encodeURI d) :: QueueKill
            :: Callback (VStr (JSON_stringify error)) VUndef
            :: snd (run_from fs events schedule st').
Proof.
  intros Hd Hev Hf H3.
  destruct (on_ending_failed fs (shared st) (encodeURI d) ev e Hf)
    as (error & Hb & Ha & _).
  specialize (Ha H3). exists error. split; [exact Hb |].
  intros st' r. subst r. rewrite run_from_cons.
  unfold start_request. rewrite Hd, Hev. unfold _abortPaging in Ha.
  destruct ev as [| err | encoding data | | err].
  - rewrite Ha. cbn [fst snd delays flat_map app existsb is_uncaught orb].
    unfold step. cbn [dead inflight]. rewrite nth_error_last.
    cbn [fst snd app]. rewrite app_nil_r. split; reflexivity.
  - cbn [fst snd]. unfold step. cbn [dead inflight shared pending started].
    rewrite nth_error_last, Ha, replace_nth_last.
    cbn [fst snd delays flat_map app existsb is_uncaught orb].
    rewrite app_nil_r. split; reflexivity.
  - cbn [fst snd]. unfold step. cbn [dead inflight shared pending started].
    rewrite nth_error_last, Ha, replace_nth_last.
    cbn [fst snd delays flat_map app existsb is_uncaught orb].
    rewrite app_nil_r. split; reflexivity.
  - cbn [fst snd]. unfold step. cbn [dead inflight shared pending started].
    rewrite nth_error_last, Ha, replace_nth_last.
    cbn [fst snd delays flat_map app existsb is_uncaught orb].
    rewrite app_nil_r. split; reflexivity.
  - cbn [fst snd]. unfold step. cbn [dead inflight shared pending started].
    rewrite nth_error_last, Ha, replace_nth_last.
    cbn [fst snd delays flat_map app existsb is_uncaught orb].
    rewrite app_nil_r. split; reflexivity.
Qed.

Lemma run_eq (fs : FeatureService) (events : nat -> list fetch_event)
  (schedule : list choice) (t : task) :
  let st := {| shared := t; inflight := []; pending := []; started := 0;
               dead := false |} in
  run_pool fs events schedule t
  = (fst (run_from fs events schedule (fst (start_request fs events st))),
     (snd (start_request fs events st)
      ++ snd (run_from fs events schedule (fst (start_request fs events st))))%list).
Proof.
  cbv zeta. unfold run_pool.
  destruct (start_request fs events _) as [st0 effs0]. cbn [fst snd].
  now destruct (run_from fs events schedule st0).
Qed.

(** The one pending timer fires and the request it starts ends once,
    in a failure, while the counter is not 3. *)
Lemma timer_end_retry (fs : FeatureService) (events : nat -> list fetch_event)
  (st : pool) (ms0 : Z) (ev : fetch_event) (e : val) (d : string)
  (schedule : list choice) :
  dead st = false ->
  pending st = [ms0] ->
  decodeURI (req (shared st)) = Some d ->
  events (started st) = [ev] ->
  failed_with fs ev = Some e ->
  retry (shared st) <> Some 3 ->
  let ms := next_retry (retry (shared st)) * 1000 in
  let st' := {| shared := retried (shared st);
                inflight := (inflight st ++ [(encodeURI d, [])])%list;
                pending := [ms];
                started := S (started st);
                dead := false |} in
  let r := run_from fs events
             (Timer 0 :: Ending (List.length (inflight st)) :: schedule) st in
  fst r = fst (run_from fs events schedule st')
  /\ snd r = Attempt (encodeURI d) :: SetTimeout ms (retried (shared st))
             :: snd (run_from fs events schedule st').
Proof.
  intros Hdead Hp Hd Hev Hf H3 ms st' r. subst r.
  assert (Hstep : step fs events st (Timer 0)
                  = start_request fs events
                      {| shared := shared st; inflight := inflight st;
                         pending := []; started := started st; dead := false |}).
  { unfold step. now rewrite Hdead, Hp. }
  rewrite run_from_cons, Hstep. cbn [fst snd].
  exact (start_end_retry fs events
           {| shared := shared st; inflight := inflight st; pending := [];
              started := started st; dead := false |}
           ev e d schedule Hd Hev Hf H3).
Qed.

Lemma timer_end_abort (fs : FeatureService) (events : nat -> list fetch_event)
  (st : pool) (ms0 : Z) (ev : fetch_event) (e : val) (d : string)
  (schedule : list choice) :
  dead st = false ->
  pending st = [ms0] ->
  decodeURI (req (shared st)) = Some d ->
  events (started st) = [ev] ->
  failed_with fs ev = Some e ->
  retry (shared st) = Some 3 ->
  exists error,
    _buildError (encodeURI d) "Request for a page of features failed" e = Some error
    /\ snd (run_from fs events
              (Timer 0 :: Ending (List.length (inflight st)) :: schedule) st)
       = Attempt (encodeURI d) :: QueueKill
         :: Callback (VStr (JSON_stringify error)) VUndef
         :: snd (run_from fs events schedule
                   {| shared := shared st;
                      inflight := (inflight st ++ [(encodeURI d, [])])%list;
                      pending := [];
                      started := S (started st);
                      dead := false |}).
Proof.
  intros Hdead Hp Hd Hev Hf H3.
  destruct (start_end_abort fs events
              {| shared := shared st; inflight := inflight st; pending := [];
                 started := started st; dead := false |}
              ev e d schedule Hd Hev Hf H3) as (error & Hb & Hrun).
  exists error. split; [exact Hb |].
  assert (Hstep : step fs events st (Timer 0)
                  = start_request fs events
                      {| shared := shared st; inflight := inflight st;
                         pending := []; started := started st; dead := false |}).
  { unfold step. now rewrite Hdead, Hp. }
  rewrite run_from_cons, Hstep. cbn [fst snd]. exact (proj2 Hrun).
Qed.

Lemma start_request_attempts (fs : FeatureService)
  (events : nat -> list fetch_event) (st : pool) (d : string) :
  decodeURI (req (shared st)) = Some d ->
  in_budget (shared st) ->
  attempts (snd (start_request fs events st)) = 1%nat.
Proof.
  intros Hd Hb. unfold start_request. rewrite Hd.
  destruct (events (started st)) as [| [| err | encoding data | | err] rest];
    try reflexivity.
  pose proof (on_ending_budget fs (shared st) (encodeURI d) SetupThrew Hb)
    as (_ & Ha & _).
  destruct (on_ending fs (shared st) (encodeURI d) SetupThrew) as [t' effs].
  cbn [fst snd] in *.
  change (Attempt (encodeURI d) :: effs) with ([Attempt (encodeURI d)] ++ effs)%list.
  now rewrite attempts_app, Ha.
Qed.


(** C5, as the code has it.  A task whose retry counter is not set
    starts at most four requests, whatever its requests end with and in
    whatever order endings and timers are handled.  The failures
    handled set the timers of 1000, 2000 and 3000 milliseconds, in this
    order, and the queue is killed only at failures handled after these
    three.  When the requests each end once, in a failure: after the
    third failure the counter is 3, nothing is aborted, and the timer
    of 3000 milliseconds starts a fourth request; when that one fails
    too, the queue is killed and the callback gets the error of the
    fourth failure. *)
Theorem fourth_failure_aborts (fs : FeatureService)
  (events : nat -> list fetch_event) (t : task) (d : string) :
  retry t = None ->
  decodeURI (req t) = Some d ->
  let uri := encodeURI d in
  let again (k : Z) := {| req := req t; retry := Some k |} in
  (forall schedule, (attempts (run fs events schedule t) <= 4)%nat)
  /\ (forall schedule,
        exists k m,
          failure_marks (run fs events schedule t)
          = (firstn k [Some 1000; Some 2000; Some 3000] ++ repeat None m)%list
          /\ (m <> 0%nat -> k = 3%nat))
  /\ (forall e0 e1 e2 err0 err1 err2,
        events 0%nat = [e0] -> events 1%nat = [e1] -> events 2%nat = [e2] ->
        failed_with fs e0 = Some err0 ->
        failed_with fs e1 = Some err1 ->
        failed_with fs e2 = Some err2 ->
        run fs events [Ending 0; Timer 0; Ending 1; Timer 0; Ending 2] t
        = [Attempt uri; SetTimeout 1000 (again 1);
           Attempt uri; SetTimeout 2000 (again 2);
           Attempt uri; SetTimeout 3000 (again 3)]
        /\ attempts (run fs events
                       [Ending 0; Timer 0; Ending 1; Timer 0; Ending 2; Timer 0] t)
           = 4%nat
        /\ (forall e3 err3,
              events 3%nat = [e3] ->
              failed_with fs e3 = Some err3 ->
              exists error,
                _buildError uri "Request for a page of features failed" err3
                = Some error
                /\ run fs events one_by_one t
                   = [Attempt uri; SetTimeout 1000 (again 1);
                      Attempt uri; SetTimeout 2000 (again 2);
                      Attempt uri; SetTimeout 3000 (again 3);
                      Attempt uri; QueueKill;
                      Callback (VStr (JSON_stringify error)) VUndef])).
Proof.
  intros Hr Hd uri again.
  set (st := {| shared := t; inflight := []; pending := []; started := 0;
                dead := false |}).
  assert (Hb : in_budget (shared st)) by (unfold in_budget; cbn; now rewrite Hr).
  assert (Hrun : forall schedule,
             run fs events schedule t
             = (snd (start_request fs events st)
                ++ snd (run_from fs events schedule
                          (fst (start_request fs events st))))%list).
  { intros schedule. unfold run. now rewrite run_eq. }
  assert (Hc0 : counter (shared st) = 0) by (unfold counter; cbn; now rewrite Hr).
  split; [| split].
  - intros schedule. rewrite Hrun, attempts_app.
    pose proof (start_request_budget fs events st Hb) as (Hb0 & Ha0 & _).
    pose proof (run_from_budget fs events schedule _ Hb0) as [Ha1 _].
    rewrite Hc0 in Ha0. change (pending st) with (@nil Z) in Ha0.
    change (Z.to_nat (3 - 0)) with 3%nat in Ha0. cbn [List.length] in Ha0. lia.
  - intros schedule. rewrite Hrun, failure_marks_app.
    pose proof (start_request_budget fs events st Hb) as (Hb0 & _ & Hm0).
    pose proof (run_from_budget fs events schedule _ Hb0) as [_ Hm1].
    apply marks_from_zero. specialize (Hm0 _ Hm1). now rewrite Hc0 in Hm0.
  - intros e0 e1 e2 err0 err1 err2 He0 He1 He2 Hf0 Hf1 Hf2.
    assert (Ht1 : retried t = again 1).
    { unfold retried, again, next_retry. now rewrite Hr. }
    assert (H0 : forall schedule,
               run fs events (Ending 0 :: schedule) t
               = Attempt uri :: SetTimeout 1000 (again 1)
                 :: snd (run_from fs events schedule
                           {| shared := again 1;
                              inflight := [(uri, [])];
                              pending := [1000];
                              started := 1;
                              dead := false |})).
    { intros schedule. rewrite Hrun.
      pose proof (start_end_retry fs events st e0 err0 d schedule Hd He0 Hf0
                    ltac:(cbn; rewrite Hr; discriminate)) as [_ Htr].
      cbn [inflight st List.length] in Htr. rewrite Htr.
      cbn [shared st pending inflight started app]. rewrite Hr, Ht1.
      reflexivity. }
    assert (H1 : forall schedule,
               run fs events (Ending 0 :: Timer 0 :: Ending 1 :: schedule) t
               = Attempt uri :: SetTimeout 1000 (again 1)
                 :: Attempt uri :: SetTimeout 2000 (again 2)
                 :: snd (run_from fs events schedule
                           {| shared := again 2;
                              inflight := [(uri, []); (uri, [])];
                              pending := [2000];
                              started := 2;
                              dead := false |})).
    { intros schedule. rewrite H0.
      pose proof (timer_end_retry fs events
                    {| shared := again 1; inflight := [(uri, [])];
                       pending := [1000]; started := 1; dead := false |}
                    1000 e1 err1 d schedule eq_refl eq_refl Hd He1 Hf1
                    ltac:(discriminate)) as [_ Htr].
      cbn [inflight List.length] in Htr. rewrite Htr. reflexivity. }
    assert (H2 : forall schedule,
               run fs events
                 (Ending 0 :: Timer 0 :: Ending 1 :: Timer 0 :: Ending 2 :: schedule) t
               = Attempt uri :: SetTimeout 1000 (again 1)
                 :: Attempt uri :: SetTimeout 2000 (again 2)
                 :: Attempt uri :: SetTimeout 3000 (again 3)
                 :: snd (run_from fs events schedule
                           {| shared := again 3;
                              inflight := [(uri, []); (uri, []); (uri, [])];
                              pending := [3000];
                              started := 3;
                              dead := false |})).
    { intros schedule. rewrite H1.
      pose proof (timer_end_retry fs events
                    {| shared := again 2; inflight := [(uri, []); (uri, [])];
                       pending := [2000]; started := 2; dead := false |}
                    2000 e2 err2 d schedule eq_refl eq_refl Hd He2 Hf2
                    ltac:(discriminate)) as [_ Htr].
      cbn [inflight List.length] in Htr. rewrite Htr. reflexivity. }
    split; [| split].
    + rewrite H2. reflexivity.
    + rewrite H2, run_from_cons. cbn [run_from snd]. rewrite app_nil_r.
      unfold step. cbn [dead pending nth_error remove_nth shared inflight started].
      match goal with
      | |- attempts (?x1 :: ?x2 :: ?x3 :: ?x4 :: ?x5 :: ?x6 :: ?x) = _ =>
          change (x1 :: x2 :: x3 :: x4 :: x5 :: x6 :: x)
            with ([x1; x2; x3; x4; x5; x6] ++ x)%list
      end.
      rewrite attempts_app.
      rewrite (start_request_attempts fs events
                 {| shared := again 3;
                    inflight := [(uri, []); (uri, []); (uri, [])];
                    pending := []; started := 3; dead := false |} d Hd);
        [reflexivity | unfold in_budget; cbn; lia].
    + intros e3 err3 He3 Hf3.
      destruct (timer_end_abort fs events
                  {| shared := again 3;
                     inflight := [(uri, []); (uri, []); (uri, [])];
                     pending := [3000]; started := 3; dead := false |}
                  3000 e3 err3 d [] eq_refl eq_refl Hd He3 Hf3 eq_refl)
        as (error & Hbe & Htr).
      exists error. split; [exact Hbe |].
      unfold one_by_one. rewrite H2.
      cbn [inflight List.length] in Htr. rewrite Htr. reflexivity.
Qed.

End FetchProperties.


(** C5, counterexample.  After three failures, with the retry counter at
    3, a fourth request of the task is made; when it succeeds the page is
    delivered and nothing is aborted. *)
Lemma fourth_attempt_is_made :
  let u := "http://example.com/FeatureServer/0/query?where=1=1" in
  let again (k : Z) := {| req := u; retry := Some k |} in
  let events (n : nat) :=
    if (n <? 3)%nat then [Timeout] else [ResponseEnd VUndef [Sample.body_NaN]] in
  @run Sample.platform Sample.service events one_by_one Sample.fresh_task
  = [Attempt u; SetTimeout 1000 (again 1);
     Attempt u; SetTimeout 2000 (again 2);
     Attempt u; SetTimeout 3000 (again 3);
     Attempt u; Callback VNull Sample.json_null_field]
  /\ attempts (@run Sample.platform Sample.service events one_by_one
                 Sample.fresh_task)
     = 4%nat.
Proof. split; reflexivity. Qed.

(** [fourth_failure_aborts] for a task whose requests all time out. *)
Lemma fourth_failure_aborts_witness :
  let u := "http://example.com/FeatureServer/0/query?where=1=1" in
  let again (k : Z) := {| req := u; retry := Some k |} in
  (attempts (@run Sample.platform Sample.service (fun _ => [Timeout])
               [Ending 0; Timer 0; Timer 1; Ending 1; Ending 7]
               Sample.fresh_task) <= 4)%nat
  /\ @run Sample.platform Sample.service (fun _ => [Timeout])
       [Ending 0; Timer 0; Ending 1; Timer 0; Ending 2] Sample.fresh_task
     = [Attempt u; SetTimeout 1000 (again 1);
        Attempt u; SetTimeout 2000 (again 2);
        Attempt u; SetTimeout 3000 (again 3)].
Proof.
  destruct (@fourth_failure_aborts Sample.platform Sample.service
              (fun _ => [Timeout]) Sample.fresh_task
              "http://example.com/FeatureServer/0/query?where=1=1"
              eq_refl eq_refl) as (Hle & _ & Htrace).
  split.
  - exact (Hle _).
  - exact (proj1 (Htrace _ _ _ _ _ _ eq_refl eq_refl eq_refl eq_refl eq_refl eq_refl)).
Defined.
(** ** Decoding *)




Section DecodeProperties.
Context `{Platform}.



(** C7. When the body parses and the payload carries an error,
    [_decode] calls back once, with the embedded error as the error, and
    throws nothing; in [_requestFeatures] the failure goes to
    [_catchErrors], which gives an error object the normalized shape:
    the task is requested again, or, with its retry counter at 3, the
    queue is killed and the callback gets that normalized error.  The
    page is never delivered. *)
Theorem decode_embedded_error (fs : FeatureService) (t : task)
  (encoding : val) (data : list string) (json e : val) (d : string) :
  data <> [] ->
  decode_body encoding data = Some json ->
  get json "error" = Some e ->
  truthy e = true ->
  decodeURI (req t) = Some d ->
  let uri := encodeURI d in
  _decode encoding data = {| calls := [(e, VUndef)]; threw := false |}
  /\ exists error,
       _buildError uri "Request for a page of features failed" e = Some error
       /\ (is_object e = true ->
             normalized uri "Request for a page of features failed" error)
       /\ (retry t = Some 3 ->
             _requestFeatures fs t (ResponseEnd encoding data)
             = (t, [Attempt uri; QueueKill;
                    Callback (VStr (JSON_stringify error)) VUndef]))
       /\ (retry t <> Some 3 ->
             _requestFeatures fs t (ResponseEnd encoding data)
             = (retried t,
                [Attempt uri;
                 SetTimeout (next_retry (retry t) * 1000) (retried t)])).
Proof.
  intros Hdata Hbody Hget Htruthy Hd uri. subst uri.
  assert (Hdec : _decode encoding data = {| calls := [(e, VUndef)]; threw := false |}).
  { unfold _decode. destruct data; [congruence |]. now rewrite Hbody, Hget, Htruthy. }
  split; [exact Hdec |].
  assert (Hf : failed_with fs (ResponseEnd encoding data) = Some e).
  { cbn [failed_with]. now rewrite Hdec, Htruthy. }
  destruct (requestFeatures_failed fs t _ e d Hd Hf) as (error & Hb & Ha & Hr).
  exists error. split; [exact Hb |]. split; [| split; [exact Ha | exact Hr]].
  intros Hobj.
  destruct (buildError_normalized (encodeURI d)
              "Request for a page of features failed" e (or_introl Hobj))
    as (error' & Hb' & Hn).
  congruence.
Qed.

(** C10. When the bytes do not parse (the [try] block of [_decode]
    throws), the callback is called with the parse error and the
    function goes on: [json] is still undefined, reading [json.error]
    throws, and the [TypeError] escapes [_decode].  In
    [_requestFeatures] the failure has by then been handed to
    [_catchErrors], and the exception follows uncaught. *)
Theorem decode_parse_failure_falls_through (fs : FeatureService) (t : task)
  (encoding : val) (data : list string) (d : string) :
  data <> [] ->
  decode_body encoding data = None ->
  decodeURI (req t) = Some d ->
  let parse_error := VObj [("type", VStr "Failed to parse feature response")] in
  _decode encoding data = {| calls := [(parse_error, VUndef)]; threw := true |}
  /\ get VUndef "error" = None
  /\ exists t' effs,
       _catchErrors t parse_error (encodeURI d) = Some (t', effs)
       /\ _requestFeatures fs t (ResponseEnd encoding data)
          = (t', (Attempt (encodeURI d) :: effs ++ [Uncaught])%list).
Proof.
  intros Hdata Hbody Hd parse_error.
  assert (Hdec : _decode encoding data
                 = {| calls := [(parse_error, VUndef)]; threw := true |}).
  { unfold _decode. destruct data; [congruence |]. now rewrite Hbody. }
  split; [exact Hdec |]. split; [reflexivity |].
  destruct (catchErrors_cases t parse_error (encodeURI d)) as (error & _ & Ha & Hr).
  assert (Hsome : exists t' effs,
             _catchErrors t parse_error (encodeURI d) = Some (t', effs)).
  { destruct (retry_eq_dec (retry t) 3) as [H3 | H3]; eauto. }
  destruct Hsome as (t' & effs & Hc). exists t', effs. split; [exact Hc |].
  unfold _requestFeatures, on_ending. rewrite Hd, Hdec.
  cbn [calls threw on_decoded_all on_decoded truthy parse_error].
  fold parse_error. rewrite Hc. now rewrite app_nil_r.
Qed.

End DecodeProperties.


(** [decode_embedded_error] on the body
    [{"error":{"code":400,"message":"bad"}}] of a first request. *)
Lemma decode_embedded_error_witness :
  @_decode Sample.platform VUndef [Sample.body_error]
  = {| calls := [(Sample.embedded_error, VUndef)]; threw := false |}
  /\ exists error,
       _buildError (req Sample.fresh_task) "Request for a page of features failed"
         Sample.embedded_error = Some error
       /\ normalized (req Sample.fresh_task) "Request for a page of features failed"
            error.
Proof.
  destruct (@decode_embedded_error Sample.platform Sample.service Sample.fresh_task
              VUndef [Sample.body_error] Sample.json_error Sample.embedded_error
              (req Sample.fresh_task)
              ltac:(discriminate) eq_refl eq_refl eq_refl eq_refl)
    as (Hdec & error & Hb & Hn & _).
  split; [exact Hdec |]. exists error. split; [exact Hb | exact (Hn eq_refl)].
Defined.

(** [decode_parse_failure_falls_through] on a body that is not JSON. *)
Lemma decode_parse_failure_falls_through_witness :
  @_decode Sample.platform VUndef ["<html>"]
  = {| calls := [(VObj [("type", VStr "Failed to parse feature response")], VUndef)];
       threw := true |}.
Proof.
  exact (proj1 (@decode_parse_failure_falls_through Sample.platform Sample.service
                  Sample.fresh_task VUndef ["<html>"] (req Sample.fresh_task)
                  ltac:(discriminate) eq_refl eq_refl)).
Defined.
(** ** Metadata *)

Section MetadataProperties.
Context `{Platform} `{Network}.

(** [layerInfo] calls back only when it has built its url. *)
Lemma layerInfo_converts (fs : FeatureService) :
  layerInfo fs <> Crash -> converts (layer fs) = true.
Proof.
  unfold layerInfo. destruct (converts (layer fs)); [reflexivity | now intros []].
Qed.

(** C8. [metadata()] returns only [layer], [oid] and [size], without
    asking for the count, when [layer.currentVersion] is absent.  When
    the layer has a version, it asks for the count, and a count below 1
    makes it fail with an error although [featureCount] itself
    succeeded. *)
Theorem metadata_count_policy (fs : FeatureService) (info oid size cv : val) :
  layerInfo fs = Yield info ->
  getObjectIdField info = Yield oid ->
  get info "maxRecordCount" = Some size ->
  get info "currentVersion" = Some cv ->
  let partial := VObj [("layer", info); ("oid", oid); ("size", size)] in
  (cv = VUndef -> metadata fs = ([layerInfo_url fs], Yield partial))
  /\ (truthy cv = true ->
        fst (metadata fs) = [layerInfo_url fs; countUrl fs]
        /\ forall json count,
             featureCount fs = Yield json ->
             get json "count" = Some (VNum count) ->
             (count < 1 ->
                snd (metadata fs) = Fail (new_Error "Service returned count of 0"))
             /\ (1 <= count ->
                 snd (metadata fs)
                 = Yield (VObj [("layer", info); ("oid", oid); ("size", size);
                                ("count", VNum count)]))).
Proof.
  intros Hinfo Hoid Hsize Hcv partial.
  assert (Hm : metadata fs
               = if negb (truthy cv) then ([layerInfo_url fs], Yield partial)
                 else ([layerInfo_url fs; countUrl fs],
                       match featureCount fs with
                       | Crash => Crash
                       | Fail err => if truthy err then Fail err else Crash
                       | Yield json =>
                           count <- must (get json "count") ;;
                           if negb (converts count) then Crash
                           else if js_lt_num count 1
                           then Fail (new_Error "Service returned count of 0")
                           else metadata' <- must (set partial "count" count) ;;
                                Yield metadata'
                       end)).
  { unfold metadata.
    rewrite (layerInfo_converts fs) by (rewrite Hinfo; discriminate).
    cbn [negb]. rewrite Hinfo, Hoid. cbn [bind must].
    rewrite Hsize, Hcv. cbn [bind must]. reflexivity. }
  split.
  - intros ->. rewrite Hm. reflexivity.
  - intros Ht. rewrite Hm, Ht. cbn [negb fst snd]. split; [reflexivity |].
    intros json count Hfc Hcount. rewrite Hfc, Hcount.
    cbn [bind must converts negb].
    unfold js_lt_num, ToNumber. split; intros Hc.
    + destruct (Z.ltb_spec count 1); [reflexivity | lia].
    + destruct (Z.ltb_spec count 1); [lia | reflexivity].
Qed.

End MetadataProperties.

(** [metadata_count_policy] on a 10.0 server (no [currentVersion]) and on
    a server that reports a count of 0. *)
Lemma metadata_count_policy_witness :
  snd (@metadata Sample.platform (Sample.server Sample.legacy_layer 7) Sample.service)
  = Yield (VObj [("layer", Sample.legacy_info); ("oid", VStr "FID");
                 ("size", VNum 500)])
  /\ snd (@metadata Sample.platform (Sample.server Sample.paging_layer 0)
            Sample.service)
     = Fail (new_Error "Service returned count of 0").
Proof.
  split.
  - destruct (@metadata_count_policy Sample.platform
                (Sample.server Sample.legacy_layer 7) Sample.service
                Sample.legacy_info (VStr "FID") (VNum 500) VUndef
                eq_refl eq_refl eq_refl eq_refl) as [Habsent _].
    now rewrite (Habsent eq_refl).
  - destruct (@metadata_count_policy Sample.platform
                (Sample.server Sample.paging_layer 0) Sample.service
                Sample.paging_info (VStr "OBJECTID") (VNum 2000) (VNum 10)
                eq_refl eq_refl eq_refl eq_refl) as [_ Hversion].
    destruct (Hversion eq_refl) as [_ Hcount].
    exact (proj1 (Hcount (VObj [("count", VNum 0)]) 0 eq_refl eq_refl) ltac:(lia)).
Defined.

(** ** The layer of the page urls *)

Lemma prefix_app (s x : string) : prefix s (s ++ x) = true.
Proof.
  induction s as [| c s IH]; cbn.
  - now destruct x.
  - destruct (ascii_dec c c); [exact IH | congruence].
Qed.

(** Every page url of the three builders starts with
    [url + '/' + (this.options.layer || 0)]. *)
Lemma page_urls_base (fs : FeatureService) (t : task) :
  (forall pages max, In t (_offsetPages fs pages max) ->
     prefix (page_base fs) (req t) = true)
  /\ (forall stats size, In t (_rangePages fs stats size) ->
        prefix (page_base fs) (req t) = true)
  /\ (forall ids size, In t (_idPages fs ids size) ->
        prefix (page_base fs) (req t) = true).
Proof.
  split; [| split].
  - intros [pages |] max Hin; [| destruct Hin].
    unfold _offsetPages in Hin. apply in_map_iff in Hin.
    destruct Hin as (i & <- & _). apply prefix_app.
  - intros [min max] size Hin. unfold _rangePages in Hin.
    apply in_map_iff in Hin. destruct Hin as (i & <- & _). apply prefix_app.
  - intros ids size. unfold _idPages.
    generalize (S (S (List.length ids))) as fuel.
    generalize (inject_Z (Z.of_nat (List.length ids)) / inject_Z size)%Q as pages.
    generalize 0 as i. revert ids.
    intros ids i pages fuel. revert i ids.
    induction fuel as [| fuel IH]; intros i ids Hin; [destruct Hin |].
    cbn [_idPages_loop] in Hin.
    destruct (id_loop_test i pages); [| destruct Hin].
    destruct (firstn (Z.to_nat size) ids) as [| first rest].
    + exact (IH _ _ Hin).
    + destruct Hin as [<- | Hin]; [apply prefix_app | exact (IH _ _ Hin)].
Qed.

(** When the url given to the constructor does not end in a layer
    number, the layer of the page urls is the layer of the service. *)
Lemma page_base_layer_from_options (u : string) (o : val) (fs : FeatureService) :
  new_FeatureService u o = Some fs ->
  match parseInt (List.last (split "/" u) EmptyString) with
  | Some n => n < 0
  | None => True
  end ->
  page_base fs = url fs ++ "/" ++ ToString (layer fs).
Proof.
  unfold new_FeatureService. intros Hnew Hend.
  destruct (parseInt (List.last (split "/" u) EmptyString)) as [n |].
  - destruct (Z.leb_spec 0 n); [lia |].
    destruct (get (js_or o (VObj [])) "layer") as [l |] eqn:Hl; [| discriminate].
    destruct (nth_error _ 1); [| discriminate].
    injection Hnew as <-. unfold page_base, option_of. cbn. now rewrite Hl.
  - destruct (get (js_or o (VObj [])) "layer") as [l |] eqn:Hl; [| discriminate].
    destruct (nth_error _ 1); [| discriminate].
    injection Hnew as <-. unfold page_base, option_of. cbn. now rewrite Hl.
Qed.

(** C9. For the service built from the url
    [http://example.com/FeatureServer/3], the layer is 3 and the stored
    url has lost the segment; the metadata, id and count requests go to
    layer 3, but the page urls of the three builders go to layer 0: none
    begins with the url and the layer of the service. *)
Theorem page_urls_ignore_url_layer :
  exists fs,
    new_FeatureService "http://example.com/FeatureServer/3" VUndef = Some fs
    /\ url fs = "http://example.com/FeatureServer"
    /\ layer fs = VStr "3"
    /\ layerInfo_url fs = "http://example.com/FeatureServer/3?f=json"
    /\ prefix "http://example.com/FeatureServer/3/" (layerIds_url fs) = true
    /\ prefix "http://example.com/FeatureServer/3/" (countUrl fs) = true
    /\ page_base fs = "http://example.com/FeatureServer/0"
    /\ map (fun t => prefix (url fs ++ "/" ++ ToString (layer fs)) (req t))
           (_offsetPages fs (Some 2) 1000) = [false; false]
    /\ map (fun t => prefix (url fs ++ "/" ++ ToString (layer fs)) (req t))
           (_rangePages fs (1, 250) 100) = [false; false; false]
    /\ map (fun t => prefix (url fs ++ "/" ++ ToString (layer fs)) (req t))
           (_idPages fs [1; 2; 3; 4; 5; 6; 7; 8; 9; 10] 4) = [false; false; false].
Proof.
  eexists. split; [reflexivity |]. repeat split.
Qed.
(* ================================================================== *)
(** * Further properties *)
(* ================================================================== *)

(** ** The constructor *)





Lemma substring_prefix (a b : string) :
  String.substring 0 (String.length a) (a ++ b) = a.
Proof.
  induction a as [| x a IH]; cbn.
  - now destruct b.
  - now rewrite IH.
Qed.

Lemma split_go_nonempty (sep s : string) (skip : nat) (cur : string) :
  split_go sep s skip cur <> [].
Proof.
  revert skip cur. induction s as [| c s IH]; intros skip cur; cbn [split_go].
  - discriminate.
  - destruct skip; [| apply IH].
    destruct (prefix sep (String c s)); [discriminate | apply IH].
Qed.

(** The last segment of [split('/')] is what follows the last slash. *)
Lemma last_segment_spec (s cur : string) :
  let seg := List.last (split_go "/" s 0 cur) EmptyString in
  (seg = cur ++ s /\ List.length (split_go "/" s 0 cur) = 1%nat)
  \/ exists pre, (cur ++ s = pre ++ "/" ++ seg)%string.
Proof.
  revert cur. induction s as [| c s IH]; intros cur.
  - left. cbn. split; [| reflexivity].
    induction cur as [| x cur IHc]; cbn; [reflexivity | now rewrite <- IHc].
  - cbn [split_go]. cbn [prefix].
    destruct (ascii_dec "/" c) as [<- | Hc].
    + replace (prefix "" s) with true by (now destruct s).
      cbn [String.length Nat.sub].
      right.
      assert (Hlast : List.last (cur :: split_go "/" s 0 "") EmptyString
                      = List.last (split_go "/" s 0 "") EmptyString).
      { pose proof (split_go_nonempty "/" s 0 "") as Hne.
        destruct (split_go "/" s 0 ""); [congruence | reflexivity]. }
      cbv zeta. rewrite Hlast.
      destruct (IH EmptyString) as [[Hseg _] | [pre Hpre]].
      * exists cur. cbv zeta in Hseg. rewrite Hseg. reflexivity.
      * exists (cur ++ "/" ++ pre)%string. cbv zeta in Hpre. cbn [append] in Hpre.
        set (seg := List.last (split_go "/" s 0 "") EmptyString) in *.
        rewrite Hpre. now rewrite !append_assoc.
    + destruct (IH (cur ++ String c "")%string) as [[Hseg Hlen] | [pre Hpre]];
        cbv zeta in *.
      * left. split; [| exact Hlen]. rewrite Hseg. now rewrite append_assoc.
      * right. exists pre. rewrite <- Hpre. now rewrite append_assoc.
Qed.

(** X1. When the url given to the constructor ends in a segment that
    parses as a non-negative integer, the service keeps that segment as
    its layer, whatever the options say, and the stored url followed by
    [/] and the layer is the url that was given. *)
Theorem constructor_url_round_trip (u : string) (o : val) (fs : FeatureService)
  (n : Z) :
  new_FeatureService u o = Some fs ->
  parseInt (List.last (split "/" u) EmptyString) = Some n ->
  0 <= n ->
  layer fs = VStr (List.last (split "/" u) EmptyString)
  /\ (url fs ++ "/" ++ ToString (layer fs))%string = u.
Proof.
  intros Hnew Hparse Hn. unfold new_FeatureService in Hnew.
  set (seg := List.last (split "/" u) EmptyString) in *.
  rewrite Hparse in Hnew.
  destruct (Z.leb_spec 0 n) as [_ |]; [| lia].
  assert (Hseg : seg <> EmptyString).
  { intros Heq. rewrite Heq in Hparse. discriminate. }
  assert (Hlen : (Z.of_nat (String.length seg) =? 0) = false).
  { apply Z.eqb_neq. destruct seg; [congruence | cbn; lia]. }
  rewrite Hlen in Hnew.
  destruct (get (js_or o (VObj [])) "layer") as [l |]; [| discriminate].
  destruct (nth_error _ 1) as [host |] eqn:Hhost; [| discriminate].
  injection Hnew as <-. cbn [layer url].
  assert (Htruthy : truthy (VStr seg) = true).
  { cbn. destruct seg; [congruence | reflexivity]. }
  assert (Hlayer : js_or (js_or (VStr seg) l) (VNum 0) = VStr seg).
  { unfold js_or. rewrite Htruthy. cbn match. now rewrite Htruthy. }
  rewrite Hlayer. split; [reflexivity |]. cbn [ToString].
  pose proof (last_segment_spec u EmptyString) as Hspec.
  cbv zeta in Hspec. cbn [append] in Hspec.
  change (split_go "/" u 0 "") with (split "/" u) in Hspec. fold seg in Hspec.
  destruct Hspec as [[Hall Hone] | [pre Hpre]].
  - exfalso. unfold substring_to in Hhost.
    rewrite Hall in Hhost.
    replace (Z.to_nat (Z.of_nat (String.length u)
                       - (Z.of_nat (String.length u) + 1))) with 0%nat in Hhost by lia.
    assert (Hempty : String.substring 0 0 u = EmptyString) by (now destruct u).
    rewrite Hempty in Hhost. discriminate.
  - unfold substring_to. rewrite Hpre at 1 2.
    rewrite append_length. cbn [append String.length].
    replace (Z.to_nat _) with (String.length pre) by lia.
    rewrite substring_prefix. now rewrite <- Hpre.
Qed.

(** [constructor_url_round_trip] on a url that ends in layer 12 and
    options that name layer 2. *)
Lemma constructor_url_round_trip_witness :
  exists fs,
    new_FeatureService "http://example.com/FeatureServer/12"
      (VObj [("layer", VNum 2)]) = Some fs
    /\ layer fs = VStr "12"
    /\ (url fs ++ "/" ++ ToString (layer fs))%string
       = "http://example.com/FeatureServer/12".
Proof.
  eexists. split; [reflexivity |].
  exact (constructor_url_round_trip "http://example.com/FeatureServer/12"
           (VObj [("layer", VNum 2)]) _ 12 eq_refl eq_refl ltac:(lia)).
Defined.

(** The layer of a service is the url segment, [options.layer] or 0. *)
Lemma constructor_layer_shape (u : string) (o : val) (fs : FeatureService) :
  new_FeatureService u o = Some fs ->
  js_or (layer fs) (VNum 0) = layer fs.
Proof.
  unfold new_FeatureService.
  destruct (match parseInt _ with Some _ => _ | None => _ end) as [u1 l0].
  destruct (get (js_or o (VObj [])) "layer") as [l |]; [| discriminate].
  destruct (nth_error _ 1); [| discriminate].
  intros [= <-]. cbn [layer]. generalize (js_or l0 l) as x. intros x.
  unfold js_or. destruct (truthy x) eqn:Hx; [now rewrite Hx | reflexivity].
Qed.

Lemma prefix_app3 (a b c r : string) :
  prefix (a ++ b ++ c) (a ++ b ++ c ++ r) = true.
Proof.
  replace (a ++ b ++ c ++ r)%string with ((a ++ b ++ c) ++ r)%string
    by (now rewrite !append_assoc).
  apply prefix_app.
Qed.

Section MetadataUrls.
Context `{Platform}.

(** X2. For a service built by the constructor, the layer, id, count and
    statistics requests all go to the stored url followed by [/] and the
    layer of the service. *)
Theorem metadata_urls_layer (u : string) (o : val) (fs : FeatureService) :
  new_FeatureService u o = Some fs ->
  let base := (url fs ++ "/" ++ ToString (layer fs))%string in
  prefix base (layerInfo_url fs) = true
  /\ prefix base (layerIds_url fs) = true
  /\ prefix base (countUrl fs) = true
  /\ forall field stats, prefix base (_statsUrl fs field stats) = true.
Proof.
  intros Hnew base. unfold base, layerInfo_url, layerIds_url, countUrl, _statsUrl.
  rewrite (constructor_layer_shape u o fs Hnew).
  repeat split; intros; apply prefix_app3.
Qed.

End MetadataUrls.

(** [metadata_urls_layer] for the service of layer 3 of a url. *)
Lemma metadata_urls_layer_witness :
  exists fs,
    new_FeatureService "http://example.com/FeatureServer/3" VUndef = Some fs
    /\ prefix "http://example.com/FeatureServer/3" (layerInfo_url fs) = true
    /\ prefix "http://example.com/FeatureServer/3" (countUrl fs) = true
    /\ prefix "http://example.com/FeatureServer/3"
         (@_statsUrl Sample.platform fs (VStr "OBJECTID") ["min"; "max"]) = true.
Proof.
  eexists. split; [reflexivity |].
  destruct (@metadata_urls_layer Sample.platform
              "http://example.com/FeatureServer/3" VUndef _ eq_refl)
    as (Hinfo & _ & Hcount & Hstats).
  split; [exact Hinfo |]. split; [exact Hcount |]. apply Hstats.
Defined.

(** ** Page sizes and the ids the pages ask for *)

(** X3. The effective page size is never 0 and never above 1000; it is
    at least 1 unless maxRecordCount parses as a negative number, and
    then it is that number. *)
Theorem effective_size_bounds (M : val) :
  effective_size M <> 0
  /\ effective_size M <= 1000
  /\ ((forall k, parseInt (ToString M) = Some k -> 0 <= k) -> 1 <= effective_size M)
  /\ (forall k, parseInt (ToString M) = Some k -> k < 0 -> effective_size M = k).
Proof.
  unfold effective_size.
  destruct (parseInt (ToString M)) as [k |].
  - destruct (Z.eqb_spec (Z.min k 1000) 0) as [H0 | H0].
    + repeat split; try lia; intros; try lia.
      injection H as <-. lia.
    + repeat split; try lia.
      * intros Hk. specialize (Hk k eq_refl). lia.
      * intros k' [= <-] Hneg. lia.
  - repeat split; try lia; intros; try lia; discriminate.
Qed.

Lemma range_nth_error (n : Z) (j : nat) (k : Z) :
  nth_error (range n) j = Some k -> k = Z.of_nat j /\ 0 <= k < n.
Proof.
  unfold range. rewrite nth_error_map.
  destruct (nth_error (seq 0 (Z.to_nat n)) j) as [m |] eqn:Hm; [| discriminate].
  intros [= <-].
  pose proof (nth_error_In _ _ Hm) as Hin. apply in_seq in Hin.
  assert (Hlt : (j < List.length (seq 0 (Z.to_nat n)))%nat)
    by (apply nth_error_Some; congruence).
  rewrite nth_error_seq in Hm. rewrite length_seq in Hlt.
  destruct (Nat.ltb_spec j (Z.to_nat n)); [| lia].
  injection Hm as <-. lia.
Qed.

(** X4. The offset pages for a count [C] and a page size [size >= 1] cut
    the records 0 .. C-1 into windows: every record index lies in the
    window [offset, offset + size) of exactly one page. *)
Theorem offsetPages_cover (fs : FeatureService) (C size : Z) :
  0 < size -> 0 <= C ->
  let tasks := _offsetPages fs (Some (ceil_div C size)) size in
  forall r, 0 <= r < C ->
    exists i,
      nth_error tasks (Z.to_nat i)
      = Some {| req := offset_url fs (i * size) size; retry := None |}
      /\ i * size <= r < i * size + size
      /\ forall j, 0 <= j -> j * size <= r < j * size + size -> j = i.
Proof.
  intros Hsize HC tasks r Hr.
  pose proof (ceil_div_spec C size Hsize) as Hceil.
  pose proof (Z.div_mod r size ltac:(lia)) as Hdm.
  pose proof (Z.mod_pos_bound r size Hsize) as Hmod.
  exists (r / size).
  assert (Hi : 0 <= r / size < ceil_div C size).
  { split; [apply Z.div_pos; lia | nia]. }
  split; [| split].
  - unfold tasks, _offsetPages. rewrite nth_error_map, (range_nth _ _ Hi).
    reflexivity.
  - nia.
  - intros j Hj Hjr. nia.
Qed.

(** [offsetPages_cover] for 2500 records in pages of 1000. *)
Lemma offsetPages_cover_witness :
  exists i,
    nth_error (_offsetPages Sample.service (Some (ceil_div 2500 1000)) 1000)
      (Z.to_nat i)
    = Some {| req := offset_url Sample.service (i * 1000) 1000; retry := None |}
    /\ i * 1000 <= 2499 < i * 1000 + 1000.
Proof.
  destruct (offsetPages_cover Sample.service 2500 1000 ltac:(lia) ltac:(lia)
              2499 ltac:(lia)) as (i & Hnth & Hr & _).
  exists i. split; [exact Hnth | exact Hr].
Defined.

(** [_rangePages] builds one request per pair of [range_bounds]. *)
Lemma rangePages_bounds (fs : FeatureService) (min max size : Z) :
  _rangePages fs (min, max) size
  = map (fun b => {| req := range_url fs
                              (range_where (option_of fs "objectIdField")
                                 (snd b) (fst b));
                     retry := None |})
        (range_bounds min max size).
Proof.
  unfold _rangePages, range_bounds. rewrite map_map. reflexivity.
Qed.

Lemma range_bounds_nth (min max size : Z) (j : nat) (b : Z * Z) :
  nth_error (range_bounds min max size) j = Some b ->
  let n := range_page_count min max size in
  0 <= Z.of_nat j < n
  /\ b = (min + size * Z.of_nat j,
          if Z.of_nat j =? n - 1 then max else min + size * (Z.of_nat j + 1) - 1).
Proof.
  unfold range_bounds. rewrite nth_error_map.
  destruct (nth_error (range _) j) as [k |] eqn:Hk; [| discriminate].
  intros [= <-]. destruct (range_nth_error _ _ _ Hk) as [-> Hrange].
  split; [exact Hrange | reflexivity].
Qed.

(** X5. For a page size from 1 to 1000 and statistics [min <= max]
    with [max <> size], both small enough for the arithmetic of the
    program to be exact, the where clauses of [_rangePages]
    ([id <= pageMax AND id >= pageMin]) cut min .. max into consecutive
    ranges: every id from [min] to [max] satisfies the clause of
    exactly one page.  No page asks for more than [size + 1] ids; the
    last page can ask for [size + 1]. *)
Theorem rangePages_cover (fs : FeatureService) (min max size : Z) :
  0 < size <= 1000 -> half_safe min -> half_safe max ->
  min <= max -> max <> size ->
  printable (option_of fs "objectIdField") = true ->
  printable (js_or (option_of fs "layer") (VNum 0)) = true ->
  let bs := range_bounds min max size in
  let objId := ToString (option_of fs "objectIdField") in
  let base := url fs ++ "/" ++ ToString (js_or (option_of fs "layer") (VNum 0)) in
  map req (_rangePages fs (min, max) size)
  = map (fun b => base ++ "/query?outSR=4326&where="
                  ++ objId ++ "<=" ++ string_of_Z (snd b) ++ "+AND+"
                  ++ objId ++ ">=" ++ string_of_Z (fst b)
                  ++ "&f=json&outFields=*&geometry=&returnGeometry=true&geometryPrecision=")
        bs
  /\ (forall b, In b bs -> safe_integer (fst b) /\ safe_integer (snd b))
  /\ (forall x, min <= x <= max ->
        exists i b,
          nth_error bs i = Some b /\ range_covers b x
          /\ forall j b', nth_error bs j = Some b' -> range_covers b' x -> j = i)
  /\ (forall b, In b bs -> 1 <= snd b - fst b + 1 <= size + 1)
  /\ range_bounds 1 101 100 = [(1, 101)].
Proof.
  intros [Hsize Hsmall] Hmin Hmax Hmm Hne _ _ bs objId base.
  unfold half_safe in Hmin, Hmax.
  split.
  { rewrite rangePages_bounds, map_map. apply map_ext. intros b. cbn [req].
    unfold range_url, range_where, page_base, base, objId.
    now rewrite !append_assoc. }
  set (n := range_page_count min max size).
  assert (Hn : n = Z.max (ceil_div (max - min) size) 1).
  { unfold n, range_page_count. destruct (Z.eqb_spec max size); [congruence | reflexivity]. }
  pose proof (ceil_div_spec (max - min) size Hsize) as Hceil.
  assert (Hn1 : 1 <= n) by lia.
  assert (Hlow : size * (n - 1) <= max - min) by nia.
  assert (Hhigh : max - min <= size * n) by nia.
  split; [| split; [| split; [| reflexivity]]].
  - intros b Hin. apply In_nth_error in Hin. destruct Hin as [j Hj].
    destruct (range_bounds_nth _ _ _ _ _ Hj) as [Hjn ->]. fold n in Hjn |- *.
    cbn [fst snd]. unfold safe_integer.
    destruct (Z.eqb_spec (Z.of_nat j) (n - 1)); nia.
  - intros x Hx.
    pose proof (Z.div_mod (x - min) size ltac:(lia)) as Hdm.
    pose proof (Z.mod_pos_bound (x - min) size Hsize) as Hmod.
    set (q := (x - min) / size) in *.
    assert (Hq : 0 <= q) by (apply Z.div_pos; lia).
    set (i := Z.min q (n - 1)).
    assert (Hi : 0 <= i < n) by lia.
    exists (Z.to_nat i),
      (min + size * i, if i =? n - 1 then max else min + size * (i + 1) - 1).
    split; [| split].
    + unfold bs, range_bounds. fold n. rewrite nth_error_map, (range_nth _ _ Hi).
      reflexivity.
    + unfold range_covers. cbn [fst snd]. unfold i.
      destruct (Z.eqb_spec (Z.min q (n - 1)) (n - 1)); nia.
    + intros j b' Hj Hcov.
      destruct (range_bounds_nth _ _ _ _ _ Hj) as [Hjn ->]. fold n in Hjn |- *.
      unfold range_covers in Hcov. cbn [fst snd] in Hcov. fold n in Hcov.
      assert (Z.of_nat j = i); [| lia].
      set (k := Z.of_nat j) in *. unfold i.
      destruct (Z.eqb_spec k (n - 1)) as [Hlast | Hlast].
      * assert (n - 1 <= q) by nia. lia.
      * assert (k = q) by nia. lia.
  - intros b Hin. apply In_nth_error in Hin. destruct Hin as [j Hj].
    destruct (range_bounds_nth _ _ _ _ _ Hj) as [Hjn ->]. fold n in Hjn |- *.
    cbn [fst snd]. destruct (Z.eqb_spec (Z.of_nat j) (n - 1)); nia.
Qed.

(** [rangePages_cover] for the ids 1 .. 250 in pages of 100: the id 200
    is asked for by one page. *)
Lemma rangePages_cover_witness :
  exists i b,
    nth_error (range_bounds 1 250 100) i = Some b /\ range_covers b 200.
Proof.
  destruct (rangePages_cover Sample.service_oid 1 250 100
              ltac:(lia) ltac:(unfold half_safe; lia) ltac:(unfold half_safe; lia)
              ltac:(lia) ltac:(lia) eq_refl eq_refl) as (_ & _ & Hcover & _).
  destruct (Hcover 200 ltac:(lia)) as (i & b & Hnth & Hcov & _).
  exists i, b. split; [exact Hnth | exact Hcov].
Defined.

(** X6. When [max] equals the page size (and the ids start at 1 or
    above), [_rangePages] builds [size] requests; the first one already
    asks for every id from [min] to [max], and no id up to [max]
    satisfies the where clause of any later one. *)
Theorem rangePages_max_equals_size (fs : FeatureService) (min size : Z) :
  1 <= min <= size ->
  let bs := range_bounds min size size in
  Z.of_nat (List.length (_rangePages fs (min, size) size)) = size
  /\ (exists b, nth_error bs 0 = Some b
                /\ forall x, min <= x <= size -> range_covers b x)
  /\ (forall j b x, nth_error bs j = Some b -> (0 < j)%nat -> x <= size ->
        ~ range_covers b x).
Proof.
  intros Hmin bs.
  assert (Hn : range_page_count min size size = size).
  { unfold range_page_count. rewrite Z.eqb_refl. lia. }
  split; [| split].
  - rewrite rangePages_bounds. unfold range_bounds.
    rewrite !length_map, range_length, Hn. lia.
  - exists (min + size * 0, if 0 =? size - 1 then size else min + size * (0 + 1) - 1).
    split.
    + unfold bs, range_bounds. rewrite Hn, nth_error_map.
      change 0%nat with (Z.to_nat 0). rewrite (range_nth size 0) by lia. reflexivity.
    + intros x Hx. unfold range_covers. cbn [fst snd].
      destruct (Z.eqb_spec 0 (size - 1)); lia.
  - intros j b x Hj Hpos Hx Hcov.
    destruct (range_bounds_nth _ _ _ _ _ Hj) as [Hjn ->].
    unfold range_covers in Hcov. cbn [fst snd] in Hcov. nia.
Qed.

(** [rangePages_max_equals_size] for the ids 1 .. 100 and a page size of
    100: a hundred requests. *)
Lemma rangePages_max_equals_size_witness :
  Z.of_nat (List.length (_rangePages Sample.service (1, 100) 100)) = 100.
Proof.
  exact (proj1 (rangePages_max_equals_size Sample.service 1 100 ltac:(lia))).
Defined.

(** ** The chunks and the bounds of the id pages *)

Lemma chunks_go_concat (n fuel : nat) (ids : list Z) :
  (0 < n)%nat -> (List.length ids <= fuel)%nat ->
  concat (chunks_go n fuel ids) = ids.
Proof.
  intros Hn. revert ids. induction fuel as [| fuel IH]; intros ids Hlen.
  - destruct ids; [reflexivity | cbn in Hlen; lia].
  - destruct ids as [| x ids]; [reflexivity |].
    cbn [chunks_go concat]. rewrite IH.
    + apply firstn_skipn.
    + rewrite length_skipn. cbn [List.length] in *. lia.
Qed.

(** Every chunk is a non-empty run of the ids. *)
Lemma chunks_go_parts (n fuel : nat) (ids c : list Z) :
  (0 < n)%nat -> In c (chunks_go n fuel ids) ->
  c <> [] /\ exists before after, ids = (before ++ c ++ after)%list.
Proof.
  intros Hn. revert ids. induction fuel as [| fuel IH]; intros ids Hin.
  - destruct Hin.
  - destruct ids as [| x ids]; [destruct Hin |].
    cbn [chunks_go] in Hin. destruct Hin as [<- | Hin].
    + split.
      * destruct n; [lia | discriminate].
      * exists [], (skipn n (x :: ids)). cbn [app]. symmetry. apply firstn_skipn.
    + destruct (IH _ Hin) as [Hne (before & after & Heq)].
      split; [exact Hne |].
      exists (firstn n (x :: ids) ++ before)%list, after.
      rewrite <- app_assoc, <- Heq. symmetry. apply firstn_skipn.
Qed.

Lemma sorted_app_inv (a b : list Z) :
  StronglySorted Z.lt (a ++ b) ->
  StronglySorted Z.lt a /\ StronglySorted Z.lt b
  /\ forall x y, In x a -> In y b -> x < y.
Proof.
  induction a as [| h a IH]; cbn; intros Hs.
  - split; [constructor |]. split; [exact Hs |]. intros x y [].
  - inversion Hs as [| ? ? Hs' Hall]; subst.
    destruct (IH Hs') as (Ha & Hb & Hab).
    rewrite Forall_app in Hall. destruct Hall as [Hha Hhb].
    split; [constructor; assumption |]. split; [exact Hb |].
    intros x y [<- | Hx] Hy.
    + rewrite Forall_forall in Hhb. now apply Hhb.
    + now apply Hab.
Qed.

Lemma hd_In (c : list Z) : c <> [] -> In (hd 0 c) c.
Proof. destruct c; [congruence | left; reflexivity]. Qed.

Lemma last_In (c : list Z) : c <> [] -> In (List.last c 0) c.
Proof.
  induction c as [| h c IH]; [congruence |]. intros _.
  destruct c as [| h' c]; [left; reflexivity |].
  right. apply IH. discriminate.
Qed.

(** In an ascending non-empty list the head is the least and the last
    element the greatest. *)
Lemma sorted_hd_last (c : list Z) (x : Z) :
  StronglySorted Z.lt c -> In x c -> hd 0 c <= x <= List.last c 0.
Proof.
  revert x. induction c as [| h c IH]; intros x Hs Hin; [destruct Hin |].
  inversion Hs as [| ? ? Hs' Hall]; subst. rewrite Forall_forall in Hall.
  cbn [hd]. destruct c as [| h' c].
  - destruct Hin as [<- | []]. cbn. lia.
  - change (List.last (h :: h' :: c) 0) with (List.last (h' :: c) 0).
    destruct Hin as [<- | Hin].
    + pose proof (Hall _ (last_In (h' :: c) ltac:(discriminate))). lia.
    + specialize (IH x Hs' Hin). cbn [hd] in IH.
      specialize (Hall h' (or_introl eq_refl)). lia.
Qed.

(** In an ascending list, the bounds of the chunks follow one another:
    the upper bound of a chunk is at most the lower bound of every later
    chunk. *)
Lemma chunks_go_bounds_ordered (n fuel : nat) (ids : list Z) :
  (0 < n)%nat -> StronglySorted Z.lt ids ->
  ForallOrdPairs (fun b1 b2 => snd b1 <= fst b2)
    (map id_bounds (chunks_go n fuel ids)).
Proof.
  intros Hn. revert ids. induction fuel as [| fuel IH]; intros ids Hs.
  - constructor.
  - destruct ids as [| x ids]; [constructor |].
    cbn [chunks_go map].
    rewrite <- (firstn_skipn n (x :: ids)) in Hs.
    destruct (sorted_app_inv _ _ Hs) as (Hfirst & Hrest & Hlt).
    constructor; [| now apply IH].
    rewrite Forall_map, Forall_forall. intros c Hc.
    destruct (chunks_go_parts _ _ _ _ Hn Hc) as [Hne (before & after & Heq)].
    assert (Hfne : firstn n (x :: ids) <> []) by (destruct n; [lia | discriminate]).
    assert (Hhd : In (hd 0 c) (skipn n (x :: ids))).
    { rewrite Heq. apply in_or_app. right. apply in_or_app. left. now apply hd_In. }
    pose proof (Hlt _ _ (last_In _ Hfne) Hhd) as Hlast.
    unfold id_bounds. cbn [fst snd].
    destruct (Z.eqb_spec (hd 0 c) 0); lia.
Qed.

(** X7. For a page size [size >= 1], [_idPages] builds
    [ceil(ids.length / size)] requests, one per chunk of [size] ids taken
    from the front, and the chunks put end to end are the ids: no id is
    left out of the chunks and none is taken twice. *)
Theorem idPages_count (fs : FeatureService) (ids : list Z) (size : Z) :
  0 < size ->
  let cs := chunks (Z.to_nat size) ids in
  _idPages fs ids size
  = map (id_page fs (js_or (option_of fs "objectIdField") (VStr "objectId"))) cs
  /\ Z.of_nat (List.length (_idPages fs ids size))
     = ceil_div (Z.of_nat (List.length ids)) size
  /\ concat cs = ids
  /\ Forall (fun c => (1 <= List.length c <= Z.to_nat size)%nat) cs.
Proof.
  intros Hsize cs.
  pose proof (idPages_chunks fs ids size Hsize) as Hpages. fold cs in Hpages.
  split; [exact Hpages |]. split; [| split].
  - rewrite Hpages, length_map. unfold cs.
    rewrite chunks_length by lia. f_equal. lia.
  - unfold cs, chunks. apply chunks_go_concat; lia.
  - rewrite Forall_forall. intros c Hc. unfold cs, chunks in Hc.
    pose proof Hc as Hc'.
    apply chunks_go_parts in Hc; [| lia]. destruct Hc as [Hne _].
    split; [destruct c; [congruence | cbn; lia] |].
    clear Hne. revert Hc'. generalize (List.length ids) as fuel.
    intros fuel. revert ids cs Hpages.
    induction fuel as [| fuel IH]; intros ids cs Hpages Hin; [destruct Hin |].
    destruct ids as [| x ids]; [destruct Hin |].
    cbn [chunks_go] in Hin. destruct Hin as [<- | Hin].
    + rewrite length_firstn. lia.
    + apply (IH (skipn (Z.to_nat size) (x :: ids))); [| exact Hin].
      apply idPages_chunks. exact Hsize.
Qed.

(** [idPages_count] for the ids 1 .. 10 in pages of 4. *)
Lemma idPages_count_witness :
  Z.of_nat (List.length (_idPages Sample.service [1; 2; 3; 4; 5; 6; 7; 8; 9; 10] 4))
  = 3.
Proof.
  destruct (idPages_count Sample.service [1; 2; 3; 4; 5; 6; 7; 8; 9; 10] 4
              ltac:(lia)) as (_ & Hlen & _).
  exact Hlen.
Defined.

(** X8. For ascending ids that are safe integers (so that [first - 1]
    is computed exactly) and a page size [size >= 1], the where clauses
    of [_idPages] ([id > pageMin AND oidField<=pageMax]) have bounds
    that do not overlap, and every id other than 0 lies within the
    bounds of one page and of no other. *)
Theorem idPages_bounds_sorted (fs : FeatureService) (ids : list Z) (size : Z) :
  0 < size ->
  StronglySorted Z.lt ids ->
  Forall safe_integer ids ->
  printable (js_or (option_of fs "objectIdField") (VStr "objectId")) = true ->
  printable (js_or (option_of fs "layer") (VNum 0)) = true ->
  let oidField := ToString (js_or (option_of fs "objectIdField") (VStr "objectId")) in
  let base := url fs ++ "/" ++ ToString (js_or (option_of fs "layer") (VNum 0)) in
  let bs := map id_bounds (chunks (Z.to_nat size) ids) in
  map req (_idPages fs ids size)
  = map (fun b => base ++ "/query?outSR=4326&where="
                  ++ oidField ++ " > " ++ string_of_Z (fst b) ++ " AND "
                  ++ "oidField<=" ++ string_of_Z (snd b)
                  ++ "&f=json&outFields=*&geometry=&returnGeometry=true&geometryPrecision=10")
        bs
  /\ (forall b, In b bs ->
        - 9007199254740992 <= fst b <= 9007199254740991 /\ safe_integer (snd b))
  /\ ForallOrdPairs (fun b1 b2 => snd b1 <= fst b2) bs
  /\ (forall x, In x ids -> x <> 0 -> exists b, In b bs /\ id_covers b x)
  /\ (forall x b b', In b bs -> In b' bs ->
        id_covers b x -> id_covers b' x -> b = b').
Proof.
  intros Hsize Hs Hsafe _ _ oidField base bs.
  assert (Hord : ForallOrdPairs (fun b1 b2 => snd b1 <= fst b2) bs).
  { unfold bs, chunks. apply chunks_go_bounds_ordered; [lia | exact Hs]. }
  split; [| split; [| split; [exact Hord | split]]].
  - rewrite idPages_chunks by exact Hsize. unfold bs.
    rewrite !map_map. apply map_ext. intros c. unfold id_page.
    destruct (id_bounds c) as [pageMin pageMax]. cbn [req fst snd].
    unfold id_url, id_where, page_base, base, oidField.
    now rewrite !append_assoc.
  - intros b Hb. unfold bs in Hb. apply in_map_iff in Hb.
    destruct Hb as (c & <- & Hc).
    destruct (chunks_go_parts (Z.to_nat size) _ _ _ ltac:(lia) Hc)
      as [Hne (before & after & Heq)].
    rewrite Forall_forall in Hsafe.
    assert (Hin : forall x, In x c -> safe_integer x).
    { intros x Hx. apply Hsafe. rewrite Heq.
      apply in_or_app. right. apply in_or_app. now left. }
    pose proof (Hin _ (hd_In c Hne)) as Hh.
    pose proof (Hin _ (last_In c Hne)) as Hl.
    unfold id_bounds, safe_integer in *. cbn [fst snd].
    destruct (Z.eqb_spec (hd 0 c) 0); lia.
  - intros x Hx Hx0.
    assert (Hcat : concat (chunks (Z.to_nat size) ids) = ids)
      by (apply chunks_go_concat; lia).
    rewrite <- Hcat in Hx. apply in_concat in Hx. destruct Hx as (c & Hc & Hxc).
    exists (id_bounds c). split; [unfold bs; now apply in_map |].
    destruct (chunks_go_parts (Z.to_nat size) _ _ _ ltac:(lia) Hc)
      as [Hne (before & after & Heq)].
    assert (Hsc : StronglySorted Z.lt c).
    { rewrite Heq in Hs. apply sorted_app_inv in Hs. destruct Hs as (_ & Hs & _).
      apply sorted_app_inv in Hs. tauto. }
    pose proof (sorted_hd_last c x Hsc Hxc) as Hb.
    unfold id_covers, id_bounds. cbn [fst snd].
    destruct (Z.eqb_spec (hd 0 c) 0); lia.
  - intros x b b' Hb Hb' Hc Hc'.
    destruct (ForallOrdPairs_In Hord b b' Hb Hb') as [Heq | [Hlt | Hlt]];
      [exact Heq | |]; unfold id_covers in *; lia.
Qed.

(** [idPages_bounds_sorted] for the ids 1 .. 10 in pages of 4: a page
    asks for the id 5. *)
Lemma idPages_bounds_sorted_witness :
  exists b,
    In b (map id_bounds (chunks 4 [1; 2; 3; 4; 5; 6; 7; 8; 9; 10]))
    /\ id_covers b 5.
Proof.
  assert (Hs : StronglySorted Z.lt [1; 2; 3; 4; 5; 6; 7; 8; 9; 10]).
  { repeat (constructor; [| repeat (constructor; [lia |]); constructor]).
    constructor. }
  assert (Hsafe : Forall safe_integer [1; 2; 3; 4; 5; 6; 7; 8; 9; 10]).
  { repeat (constructor; [unfold safe_integer; lia |]). constructor. }
  destruct (idPages_bounds_sorted Sample.service [1; 2; 3; 4; 5; 6; 7; 8; 9; 10] 4
              ltac:(lia) Hs Hsafe eq_refl eq_refl) as (_ & _ & _ & Hcover & _).
  apply (Hcover 5); [cbn; tauto | lia].
Defined.

(** X9. When no id is negative, no where clause of [_idPages] is
    satisfied by the id 0: the lower bound of a chunk that starts at 0
    is left at 0, and the clause asks for ids above it. *)
Theorem idPages_zero_dropped (fs : FeatureService) (ids : list Z) (size : Z) :
  0 < size ->
  Forall (fun x => 0 <= x) ids ->
  let oidField := js_or (option_of fs "objectIdField") (VStr "objectId") in
  let bs := map id_bounds (chunks (Z.to_nat size) ids) in
  _idPages fs ids size
  = map (fun b => {| req := id_url fs (id_where oidField (fst b) (snd b));
                     retry := None |}) bs
  /\ forall b, In b bs -> ~ id_covers b 0.
Proof.
  intros Hsize Hpos oidField bs. split.
  - rewrite idPages_chunks by exact Hsize. fold oidField. unfold bs.
    rewrite map_map. apply map_ext. intros c. unfold id_page.
    destruct (id_bounds c). reflexivity.
  - intros b Hb. unfold bs in Hb. apply in_map_iff in Hb.
    destruct Hb as (c & <- & Hc).
    destruct (chunks_go_parts (Z.to_nat size) _ _ _ ltac:(lia) Hc)
      as [Hne (before & after & Heq)].
    assert (Hhd : 0 <= hd 0 c).
    { rewrite Forall_forall in Hpos. apply Hpos. rewrite Heq.
      apply in_or_app. right. apply in_or_app. left. now apply hd_In. }
    unfold id_covers, id_bounds. cbn [fst snd].
    destruct (Z.eqb_spec (hd 0 c) 0); lia.
Qed.

(** [idPages_zero_dropped] for the ids 0 .. 5 in pages of 4. *)
Lemma idPages_zero_dropped_witness :
  forall_bounds_miss_zero (map id_bounds (chunks 4 [0; 1; 2; 3; 4; 5])).
Proof.
  assert (Hpos : Forall (fun x => 0 <= x) [0; 1; 2; 3; 4; 5]).
  { repeat (constructor; [lia |]). constructor. }
  destruct (idPages_zero_dropped Sample.service [0; 1; 2; 3; 4; 5] 4
              ltac:(lia) Hpos) as [_ Hmiss].
  unfold forall_bounds_miss_zero. rewrite Forall_forall. exact Hmiss.
Defined.

(** ** What [_buildError] keeps and what it overwrites *)

(** X10. On an error object, [_buildError] overwrites [message] and
    [request], sets [response] to the new message (not to the message the
    error came with), keeps a truthy [type] and [code] and defaults them
    to ['Unknown failure'] and 500 otherwise, and leaves every other
    property of the error as it was. *)
Theorem buildError_keeps (url message : string) (ps : list (string * val)) :
  exists ps',
    _buildError url message (VObj ps) = Some (VObj ps')
    /\ assoc "message" ps' = VStr message
    /\ assoc "request" ps' = VStr url
    /\ assoc "response" ps' = VStr message
    /\ assoc "type" ps' = js_or (assoc "type" ps) (VStr "Unknown failure")
    /\ assoc "code" ps' = js_or (assoc "code" ps) (VNum 500)
    /\ forall k,
         ~ In k ["message"; "request"; "response"; "type"; "code"] ->
         assoc k ps' = assoc k ps.
Proof.
  exists (built_props url message ps).
  split; [rewrite buildError_value; reflexivity |].
  destruct (built_props_normalized url message ps) as (Hm & Hr & Hp & _ & _).
  split; [exact Hm |]. split; [exact Hr |]. split; [exact Hp |].
  unfold built_props. cbv zeta. split; [| split].
  - rewrite assoc_set_other by discriminate. rewrite assoc_set_same.
    now rewrite !assoc_set_other by discriminate.
  - rewrite assoc_set_same. now rewrite !assoc_set_other by discriminate.
  - intros k Hk. cbn [In] in Hk.
    rewrite !assoc_set_other; [reflexivity | | | | |]; intros ->; tauto.
Qed.

(** ** The callback of [_decode] *)

Lemma replace_NaN_go_id (s : string) :
  occurs "NaN" s = false -> replace_NaN_go s 0 = s.
Proof.
  induction s as [| c s IH]; intros Hocc; [reflexivity |].
  cbn [occurs] in Hocc. apply orb_false_iff in Hocc. destruct Hocc as [Hp Ho].
  cbn [replace_NaN_go]. rewrite Hp. now rewrite (IH Ho).
Qed.

Section DecodeDiscipline.
Context `{Platform}.

(** X11. Whatever the encoding and the bytes, [_decode] calls its
    callback at most once, either with a truthy error and no payload or
    with [null] and the parsed payload; it reports success only when it
    throws nothing; and when it does not call back at all, a [TypeError]
    escapes it. *)
Theorem decode_callback_once (encoding : val) (data : list string) :
  let r := _decode encoding data in
  (List.length (calls r) <= 1)%nat
  /\ (forall err json, In (err, json) (calls r) ->
        (truthy err = true /\ json = VUndef)
        \/ (err = VNull /\ threw r = false
            /\ decode_body encoding data = Some json))
  /\ (calls r = [] -> threw r = true).
Proof.
  unfold _decode. destruct data as [| chunk data].
  - cbn. split; [lia |]. split; [| discriminate].
    intros err json [[= <- <-] | []]. left. split; reflexivity.
  - destruct (decode_body encoding (chunk :: data)) as [json |].
    + destruct (get json "error") as [e |].
      * destruct (truthy e) eqn:He; cbn; (split; [lia |]); (split; [| discriminate]).
        -- intros err j [[= <- <-] | []]. left. split; [exact He | reflexivity].
        -- intros err j [[= <- <-] | []]. right. repeat split.
      * cbn. split; [lia |]. split; [intros ? ? [] | reflexivity].
    + cbn. split; [lia |]. split; [| discriminate].
      intros err json [[= <- <-] | []]. left. split; reflexivity.
Qed.

(** Nothing runs for the task once an exception has escaped. *)
Lemma run_from_dead (fs : FeatureService) (events : nat -> list fetch_event)
  (schedule : list choice) (st : pool) :
  dead st = true -> run_from fs events schedule st = (st, []).
Proof.
  intros Hd. induction schedule as [| c schedule IH]; [reflexivity |].
  cbn [run_from]. unfold step. rewrite Hd, IH. reflexivity.
Qed.

(** X12. When the body is the JSON text [null] (it parses to [null]),
    [_decode] throws before it calls back: [_requestFeatures] neither
    delivers the page nor hands the failure to [_catchErrors], so the
    task is not retried and the queue never hears of it, whichever
    request of the task the body ends and whatever is scheduled after
    it. *)
Theorem null_payload_is_never_reported (fs : FeatureService) (t : task)
  (encoding : val) (data : list string) (d : string)
  (events : nat -> list fetch_event) (rest : list fetch_event)
  (schedule : list choice) :
  data <> [] ->
  decode_body encoding data = Some VNull ->
  decodeURI (req t) = Some d ->
  events 0%nat = ResponseEnd encoding data :: rest ->
  _decode encoding data = {| calls := []; threw := true |}
  /\ _requestFeatures fs t (ResponseEnd encoding data)
     = (t, [Attempt (encodeURI d); Uncaught])
  /\ run fs events (Ending 0 :: schedule) t = [Attempt (encodeURI d); Uncaught]
  /\ (forall (st : pool) (k : nat) (uri : string) (rest' : list fetch_event),
        dead st = false ->
        nth_error (inflight st) k = Some (uri, ResponseEnd encoding data :: rest') ->
        snd (run_from fs events (Ending k :: schedule) st) = [Uncaught]).
Proof.
  intros Hdata Hbody Hd Hev.
  assert (Hdec : _decode encoding data = {| calls := []; threw := true |}).
  { unfold _decode. destruct data; [congruence |]. now rewrite Hbody. }
  assert (Hend : forall uri,
             on_ending fs t uri (ResponseEnd encoding data) = (t, [Uncaught])).
  { intros uri. unfold on_ending. rewrite Hdec. reflexivity. }
  assert (Hreq : _requestFeatures fs t (ResponseEnd encoding data)
                 = (t, [Attempt (encodeURI d); Uncaught])).
  { unfold _requestFeatures. rewrite Hd, Hend. reflexivity. }
  assert (Hstep : forall (st : pool) (k : nat) (uri : string)
                         (rest' : list fetch_event),
             dead st = false ->
             nth_error (inflight st) k
             = Some (uri, ResponseEnd encoding data :: rest') ->
             snd (run_from fs events (Ending k :: schedule) st) = [Uncaught]).
  { intros st k uri rest' Hlive Hk. rewrite run_from_cons. cbn [snd].
    unfold step. rewrite Hlive, Hk.
    assert (Hend' : on_ending fs (shared st) uri (ResponseEnd encoding data)
                    = (shared st, [Uncaught])).
    { unfold on_ending. rewrite Hdec. reflexivity. }
    rewrite Hend'. cbn [fst snd existsb is_uncaught orb].
    rewrite run_from_dead by reflexivity. reflexivity. }
  split; [exact Hdec |]. split; [exact Hreq |]. split; [| exact Hstep].
  unfold run. rewrite run_eq. cbn [snd].
  unfold start_request. cbn [shared started]. rewrite Hd, Hev.
  cbn [fst snd inflight app].
  match goal with
  | |- context [run_from fs events _ ?s] =>
      rewrite (Hstep s 0%nat (encodeURI d) rest eq_refl eq_refl)
  end.
  reflexivity.
Qed.

(** X13. A body that does not contain [NaN] reaches the parser unchanged
    whatever the encoding: the sanitizing of gzip and plain bodies
    changes nothing in it. *)
Theorem decode_clean_body_verbatim (encoding : val) (data : list string)
  (body : string) :
  occurs "NaN" body = false ->
  let buffer := String.concat EmptyString data in
  replace_NaN body = body
  /\ (gunzipSync buffer = Some body ->
      decode_body (VStr "gzip") data = JSON_parse body)
  /\ (inflateSync buffer = Some body ->
      decode_body (VStr "deflate") data = JSON_parse body)
  /\ (buffer = body ->
      strict_eq_str encoding "gzip" = false ->
      strict_eq_str encoding "deflate" = false ->
      decode_body encoding data = JSON_parse body).
Proof.
  intros Hclean buffer.
  assert (Hid : replace_NaN body = body) by (now apply replace_NaN_go_id).
  split; [exact Hid |]. split; [| split].
  - intros Hz. unfold decode_body.
    cbn [strict_eq_str String.eqb Ascii.eqb Bool.eqb]. fold buffer.
    now rewrite Hz, Hid.
  - intros Hz. unfold decode_body.
    cbn [strict_eq_str String.eqb Ascii.eqb Bool.eqb]. fold buffer.
    now rewrite Hz.
  - intros Hb Hg Hdf. unfold decode_body. rewrite Hg, Hdf. fold buffer.
    now rewrite Hb, Hid.
Qed.

End DecodeDiscipline.

(** [null_payload_is_never_reported] on the body [null]. *)
Lemma null_payload_is_never_reported_witness :
  @run Sample.platform_null Sample.service (fun _ => [ResponseEnd VUndef ["null"]])
    [Ending 0; Timer 0; Ending 1] Sample.fresh_task
  = [Attempt (req Sample.fresh_task); Uncaught].
Proof.
  exact (proj1 (proj2 (proj2 (@null_payload_is_never_reported Sample.platform_null
                         Sample.service Sample.fresh_task VUndef ["null"]
                         (req Sample.fresh_task)
                         (fun _ => [ResponseEnd VUndef ["null"]]) []
                         [Timer 0; Ending 1]
                         ltac:(discriminate) eq_refl eq_refl eq_refl)))).
Defined.

(** [decode_clean_body_verbatim] on the body [{"x":null}], gzip-encoded. *)
Lemma decode_clean_body_verbatim_witness :
  @decode_body Sample.platform (VStr "gzip") ["gz:"; Sample.body_null]
  = @JSON_parse Sample.platform Sample.body_null.
Proof.
  destruct (@decode_clean_body_verbatim Sample.platform VUndef
              ["gz:"; Sample.body_null] Sample.body_null eq_refl)
    as (_ & Hgzip & _).
  exact (Hgzip eq_refl).
Defined.

(** ** The callback of the queue worker *)

Section CallbackDiscipline.
Context `{Platform}.

Lemma start_request_kills (fs : FeatureService)
  (events : nat -> list fetch_event) (st : pool) :
  (kills (snd (start_request fs events st))
   <= callbacks (snd (start_request fs events st)))%nat.
Proof.
  unfold start_request.
  destruct (decodeURI (req (shared st))) as [d |]; [| cbn; lia].
  destruct (events (started st)) as [| ev rest]; [cbn; lia |].
  destruct ev; try (cbn; lia).
  pose proof (on_ending_calls fs (shared st) (encodeURI d) SetupThrew) as [_ Hk].
  destruct (on_ending fs (shared st) (encodeURI d) SetupThrew) as [t' effs].
  exact Hk.
Qed.

(** X14. Whatever the requests of a task end with, in whatever order
    endings and timers are handled and whatever the retry counter, the
    queue is killed only together with a call of the callback of the
    queue worker.  When every request ends at most once, the callback
    is called at most once for the task.  A request that ends twice
    can have it called twice: a request that times out is not
    destroyed, and when its response comes after all, the page is
    delivered and the retry the timeout has scheduled delivers it
    again. *)
Theorem callback_at_most_once (fs : FeatureService)
  (events : nat -> list fetch_event) (schedule : list choice) (t : task) :
  (kills (run fs events schedule t) <= callbacks (run fs events schedule t))%nat
  /\ ((forall n, (List.length (events n) <= 1)%nat) ->
      (callbacks (run fs events schedule t) <= 1)%nat)
  /\ (forall (d : string) (encoding : val) (data : list string) (json : val),
        decodeURI (req t) = Some d ->
        retry t = None ->
        _decode encoding data = {| calls := [(VNull, json)]; threw := false |} ->
        events 0%nat = [Timeout; ResponseEnd encoding data] ->
        events 1%nat = [ResponseEnd encoding data] ->
        run fs events [Ending 0; Ending 0; Timer 0; Ending 1] t
        = [Attempt (encodeURI d);
           SetTimeout 1000 {| req := req t; retry := Some 1 |};
           Callback VNull json;
           Attempt (encodeURI d);
           Callback VNull json]).
Proof.
  set (st := {| shared := t; inflight := []; pending := []; started := 0;
                dead := false |}).
  unfold run. rewrite run_eq. fold st. cbn [snd].
  split; [| split].
  - rewrite kills_app, callbacks_app.
    pose proof (start_request_kills fs events st).
    pose proof (run_from_kills fs events schedule (fst (start_request fs events st))).
    lia.
  - intros Hone. rewrite callbacks_app.
    destruct (start_request_sequential fs events st Hone (Forall_nil _))
      as (Hall & Hc & _).
    destruct (run_from_sequential fs events schedule
                (fst (start_request fs events st)) Hone Hall) as [Hr _].
    change (outstanding st) with 0%nat in Hc. lia.
  - intros d encoding data json Hd Hr Hdec H0 H1.
    assert (Hok : forall t' uri,
               on_ending fs t' uri (ResponseEnd encoding data)
               = (t', [Callback VNull json])).
    { intros t' uri. unfold on_ending. rewrite Hdec. reflexivity. }
    assert (Hto : forall uri,
               on_ending fs t uri Timeout
               = (retried t, [SetTimeout 1000 (retried t)])).
    { intros uri.
      destruct (on_ending_failed fs t uri Timeout _ eq_refl) as (error & _ & _ & Hre).
      rewrite Hre by (rewrite Hr; discriminate). now rewrite Hr. }
    set (u := encodeURI d).
    set (re := ResponseEnd encoding data).
    set (s0 := {| shared := t; inflight := [(u, [Timeout; re])]; pending := [];
                  started := 1; dead := false |}).
    set (s1 := {| shared := retried t; inflight := [(u, [re])]; pending := [1000];
                  started := 1; dead := false |}).
    set (s2 := {| shared := retried t; inflight := [(u, [])]; pending := [1000];
                  started := 1; dead := false |}).
    set (s3 := {| shared := retried t; inflight := [(u, []); (u, [re])];
                  pending := []; started := 2; dead := false |}).
    set (s4 := {| shared := retried t; inflight := [(u, []); (u, [])];
                  pending := []; started := 2; dead := false |}).
    assert (Hs0 : start_request fs events st = (s0, [Attempt u])).
    { unfold start_request, st. cbn [shared started inflight pending dead].
      rewrite Hd, H0. reflexivity. }
    assert (Hs1 : step fs events s0 (Ending 0)
                  = (s1, [SetTimeout 1000 (retried t)])).
    { unfold step, s0. cbn [dead inflight nth_error shared pending started].
      rewrite Hto. reflexivity. }
    assert (Hs2 : step fs events s1 (Ending 0) = (s2, [Callback VNull json])).
    { unfold step, s1. cbn [dead inflight nth_error shared pending started].
      unfold re. rewrite Hok. reflexivity. }
    assert (Hs3 : step fs events s2 (Timer 0) = (s3, [Attempt u])).
    { unfold step, s2. cbn [dead inflight nth_error shared pending started remove_nth].
      unfold start_request. cbn [shared started inflight pending dead retried req].
      rewrite Hd, H1. reflexivity. }
    assert (Hs4 : step fs events s3 (Ending 1) = (s4, [Callback VNull json])).
    { unfold step, s3. cbn [dead inflight nth_error shared pending started].
      unfold re. rewrite Hok. reflexivity. }
    rewrite run_eq. cbn [snd]. fold st. rewrite Hs0. cbn [fst snd].
    rewrite run_from_cons, Hs1. cbn [fst snd].
    rewrite run_from_cons, Hs2. cbn [fst snd].
    rewrite run_from_cons, Hs3. cbn [fst snd].
    rewrite run_from_cons, Hs4. cbn [fst snd run_from app].
    unfold retried. rewrite Hr. reflexivity.
Qed.

End CallbackDiscipline.

(** [callback_at_most_once] on a request that times out, answers after
    all and is retried. *)
Lemma callback_at_most_once_witness :
  let events (n : nat) :=
    match n with
    | O => [Timeout; ResponseEnd VUndef [Sample.body_NaN]]
    | _ => [ResponseEnd VUndef [Sample.body_NaN]]
    end in
  callbacks (@run Sample.platform Sample.service events
               [Ending 0; Ending 0; Timer 0; Ending 1] Sample.fresh_task)
  = 2%nat
  /\ (callbacks (@run Sample.platform Sample.service (fun _ => [Timeout])
                   one_by_one Sample.fresh_task) <= 1)%nat.
Proof.
  intros events. split.
  - destruct (@callback_at_most_once Sample.platform Sample.service events
                [Ending 0; Ending 0; Timer 0; Ending 1] Sample.fresh_task)
      as (_ & _ & Htwice).
    rewrite (Htwice _ VUndef [Sample.body_NaN] Sample.json_null_field
               eq_refl eq_refl eq_refl eq_refl eq_refl).
    reflexivity.
  - destruct (@callback_at_most_once Sample.platform Sample.service
                (fun _ => [Timeout]) one_by_one Sample.fresh_task)
      as (_ & Honce & _).
    apply Honce. intros n. cbn. lia.
Defined.

(** ** The object id field *)

Lemma getObjectIdField_loop_app (before rest : list val) (oid : val) :
  Forall (fun g => get g "type" <> None) before ->
  exists oid',
    getObjectIdField_loop (before ++ rest) oid = getObjectIdField_loop rest oid'.
Proof.
  revert oid. induction before as [| g before IH]; intros oid Hall.
  - exists oid. reflexivity.
  - inversion Hall as [| ? ? Hg Hall']; subst.
    cbn [app getObjectIdField_loop].
    destruct (get g "type") as [t |] eqn:Ht; [| congruence]. cbn [must bind].
    destruct (strict_eq_str t "esriFieldTypeOID").
    + destruct (get_total g t "type" "name" Ht) as [nm ->]. cbn [must bind].
      apply IH. exact Hall'.
    + apply IH. exact Hall'.
Qed.

Lemma getObjectIdField_loop_none (fields : list val) (oid : val) :
  Forall (fun g => exists t, get g "type" = Some t
                             /\ strict_eq_str t "esriFieldTypeOID" = false) fields ->
  getObjectIdField_loop fields oid = Yield oid.
Proof.
  induction fields as [| g fields IH]; intros Hall; [reflexivity |].
  inversion Hall as [| ? ? (t & Ht & Hno) Hall']; subst.
  cbn [getObjectIdField_loop]. rewrite Ht. cbn [must bind]. rewrite Hno.
  now apply IH.
Qed.

(** X15. [getObjectIdField] returns the name of the last field whose
    type is [esriFieldTypeOID]: fields after it of another type do not
    change the result, and fields before it do not count, whatever their
    type.  When no field has that type the result is [undefined], not an
    error. *)
Theorem getObjectIdField_last_wins (info : val) (ps : list (string * val))
  (before after : list val) (f name : val) :
  get info "fields" = Some (VArr (before ++ f :: after) ps) ->
  Forall (fun g => get g "type" <> None) before ->
  get f "type" = Some (VStr "esriFieldTypeOID") ->
  get f "name" = Some name ->
  Forall (fun g => exists t, get g "type" = Some t
                             /\ strict_eq_str t "esriFieldTypeOID" = false) after ->
  getObjectIdField info = Yield name
  /\ (forall info' ps' fields,
        get info' "fields" = Some (VArr fields ps') ->
        Forall (fun g => exists t, get g "type" = Some t
                                   /\ strict_eq_str t "esriFieldTypeOID" = false)
               fields ->
        getObjectIdField info' = Yield VUndef).
Proof.
  intros Hfields Hbefore Htype Hname Hafter. split.
  - unfold getObjectIdField. rewrite Hfields. cbn [must bind].
    destruct (getObjectIdField_loop_app before (f :: after) VUndef Hbefore)
      as [oid' ->].
    cbn [getObjectIdField_loop]. rewrite Htype. cbn [must bind strict_eq_str].
    rewrite String.eqb_refl, Hname. cbn [must bind].
    now apply getObjectIdField_loop_none.
  - intros info' ps' fields Hf Hnone. unfold getObjectIdField.
    rewrite Hf. cbn [must bind]. now apply getObjectIdField_loop_none.
Qed.

(** [getObjectIdField_last_wins] on a layer with two object id fields. *)
Lemma getObjectIdField_last_wins_witness :
  getObjectIdField Sample.two_oid_layer = Yield (VStr "OBJECTID").
Proof.
  refine (proj1 (getObjectIdField_last_wins Sample.two_oid_layer []
                   [VObj [("name", VStr "FID"); ("type", VStr "esriFieldTypeOID")]]
                   [VObj [("name", VStr "NAME"); ("type", VStr "esriFieldTypeString")]]
                   (VObj [("name", VStr "OBJECTID"); ("type", VStr "esriFieldTypeOID")])
                   (VStr "OBJECTID") eq_refl _ eq_refl eq_refl _)).
  - repeat constructor. discriminate.
  - repeat constructor. exists (VStr "esriFieldTypeString"). split; reflexivity.
Defined.

(** ** What [metadata] reports *)

Section MetadataReports.
Context `{Platform} `{Network} `{Engine}.

(** [request] throws or calls back; it reports no error of its own
    otherwise. *)
Lemma request_cases (u : string) :
  request u = Crash \/ exists err json, request u = Yield (err, json).
Proof.
  unfold request. destruct (decodeURI u) as [d |]; [| now left].
  destruct (http_get (encodeURI d)) as [[err json] |]; cbn [must]; [| now left].
  right. now exists err, json.
Qed.

(** What [layerInfo] does with each answer of the server. *)
Lemma layerInfo_cases (fs : FeatureService) (err json : val) :
  converts (layer fs) = true ->
  request (layerInfo_url fs) = Yield (err, json) ->
  let url := layerInfo_url fs in
  exists error,
    _buildError url "Request for layer information failed" json = Some error
    /\ truthy error = true
    /\ (layerInfo fs = Fail error
        \/ exists json', layerInfo fs = Yield json'
                         /\ truthy err = false /\ truthy json = true
                         /\ set json "url" (VStr url) = Some json').
Proof.
  intros Hl Hreq. cbv zeta. unfold layerInfo. rewrite Hl, Hreq. cbn [negb bind].
  destruct (buildError_truthy (layerInfo_url fs)
              "Request for layer information failed" json) as (error & Hb & Ht).
  exists error. split; [exact Hb |]. split; [exact Ht |].
  rewrite Hb. cbn [must bind].
  destruct (truthy err); [left; reflexivity |].
  destruct (truthy json) eqn:Hj; cbn [negb]; [| left; reflexivity].
  destruct json; try discriminate; cbn [get must bind];
    try (right; eexists; repeat split; reflexivity);
    match goal with
    | |- context [truthy (assoc "error" ?p)] =>
        destruct (truthy (assoc "error" p));
        [left; reflexivity | right; eexists; repeat split; reflexivity]
    end.
Qed.

(** X16. [layerInfo] throws only before its callback runs: when
    [this.layer] does not convert to a string, or inside [request],
    where a malformed escape in the url makes [decodeURI] throw.  Once
    [request] has called back, every answer of the server, a [null]
    payload included, ends in a layer or in a truthy error.  A layer it
    yields is truthy, has no truthy [error], and, when it is an object,
    carries the requested url as [url]. *)
Theorem layerInfo_throws_only_in_request (fs : FeatureService) :
  (layerInfo fs = Crash
   <-> converts (layer fs) = false \/ request (layerInfo_url fs) = Crash)
  /\ match layerInfo fs with
     | Crash => True
     | Fail error => truthy error = true
     | Yield info =>
         truthy info = true
         /\ (exists e, get info "error" = Some e /\ truthy e = false)
         /\ (is_object info = true ->
             get info "url" = Some (VStr (layerInfo_url fs)))
     end.
Proof.
  destruct (converts (layer fs)) eqn:Hl.
  2:{ unfold layerInfo. rewrite Hl. cbn [negb]. split; [| exact I].
      split; [now left | reflexivity]. }
  destruct (request_cases (layerInfo_url fs)) as [Hreq | (err & json & Hreq)].
  { unfold layerInfo. rewrite Hl, Hreq. cbn [negb bind]. split; [| exact I].
    split; [now right | reflexivity]. }
  pose proof (layerInfo_cases fs err json Hl Hreq) as Hc. cbv zeta in Hc.
  destruct Hc as (error & Hb & Ht & Hc).
  assert (Hshape :
    match layerInfo fs with
    | Crash => False
    | Fail error => truthy error = true
    | Yield info =>
        truthy info = true
        /\ (exists e, get info "error" = Some e /\ truthy e = false)
        /\ (is_object info = true ->
            get info "url" = Some (VStr (layerInfo_url fs)))
    end).
  { unfold layerInfo in *. rewrite Hl, Hreq in *. cbn [negb bind] in *.
    rewrite Hb in *. cbn [must bind] in *.
    destruct (truthy err); [exact Ht |].
    destruct (truthy json) eqn:Hj; cbn [negb]; [| exact Ht].
    destruct json as [| | b | n | s | es ps | ps]; try discriminate;
      cbn [get set must bind truthy].
    - split; [exact Hj |]. split; [eexists; split; reflexivity | discriminate].
    - split; [exact Hj |]. split; [eexists; split; reflexivity | discriminate].
    - split; [exact Hj |]. split; [eexists; split; reflexivity | discriminate].
    - destruct (truthy (assoc "error" ps)) eqn:He; [exact Ht |].
      split; [reflexivity |]. split.
      + exists (assoc "error" ps). cbn [get]. split; [| exact He].
        now rewrite assoc_set_other by discriminate.
      + intros _. cbn [get]. now rewrite assoc_set_same.
    - destruct (truthy (assoc "error" ps)) eqn:He; [exact Ht |].
      split; [reflexivity |]. split.
      + exists (assoc "error" ps). cbn [get]. split; [| exact He].
        now rewrite assoc_set_other by discriminate.
      + intros _. cbn [get]. now rewrite assoc_set_same. }
  destruct (layerInfo fs) as [info | e |]; [| | destruct Hshape].
  - split; [| exact Hshape].
    split; [discriminate | intros [Hf | Hf]; [discriminate | congruence]].
  - split; [| exact Hshape].
    split; [discriminate | intros [Hf | Hf]; [discriminate | congruence]].
Qed.

Lemma has_key_assoc_set (k k' : string) (x : val) (ps : list (string * val)) :
  k <> k' -> has_key k (assoc_set k' x ps) = has_key k ps.
Proof.
  intros Hne. unfold has_key.
  induction ps as [| [k0 v] ps IH]; cbn [assoc_set existsb fst].
  - destruct (String.eqb_spec k' k); [congruence | reflexivity].
  - destruct (String.eqb_spec k' k0) as [-> | Hk]; cbn [existsb fst].
    + reflexivity.
    + now rewrite IH.
Qed.

Lemma has_key_built_props (url message : string) (ps : list (string * val)) :
  has_key "toString" (built_props url message ps) = has_key "toString" ps.
Proof.
  unfold built_props. cbv zeta.
  now rewrite !has_key_assoc_set by discriminate.
Qed.

(** X17. When the layer request fails (a transport error, no payload, or
    a payload with an [error]), and the payload is an object or absent,
    [metadata] builds an [Error] by converting the error object to a
    string.  The message is the text ['[object Object]']: neither the
    reason nor the fallback text ['Unable to get layer metadata']
    reaches the caller.  When the payload has a [toString] property of
    its own the conversion throws instead.  The count is not requested
    either way. *)
Theorem metadata_layer_error_opaque (fs : FeatureService) (err json : val) :
  converts (layer fs) = true ->
  request (layerInfo_url fs) = Yield (err, json) ->
  match json with VUndef | VNull | VObj _ => True | _ => False end ->
  truthy err = true \/ truthy json = false
  \/ (exists e, get json "error" = Some e /\ truthy e = true) ->
  metadata fs
  = ([layerInfo_url fs],
     if converts json then Fail (new_Error "[object Object]") else Crash).
Proof.
  intros Hl Hreq Hshape Hfail.
  assert (Hinfo : exists ps, layerInfo fs = Fail (VObj ps)
                             /\ has_key "toString" ps = negb (converts json)).
  { unfold layerInfo. rewrite Hl, Hreq. cbn [negb bind].
    rewrite buildError_value. cbn [must bind].
    assert (Hobj : exists ps,
               match (if truthy json then json else VObj []) with
               | VObj ps => VObj (built_props (layerInfo_url fs)
                                    "Request for layer information failed" ps)
               | VArr es ps => VArr es (built_props (layerInfo_url fs)
                                          "Request for layer information failed" ps)
               | v => v
               end = VObj ps
               /\ has_key "toString" ps = negb (converts json)).
    { destruct json as [| | b | n | s | es ps | ps]; try contradiction;
        cbn [truthy converts]; eexists; (split; [reflexivity |]);
        rewrite has_key_built_props; [reflexivity | reflexivity |].
      now rewrite Bool.negb_involutive. }
    destruct Hobj as (ps & -> & Hk). exists ps. split; [| exact Hk].
    destruct (truthy err) eqn:He; [reflexivity |].
    destruct (truthy json) eqn:Hj; cbn [negb]; [| reflexivity].
    destruct Hfail as [Hf | [Hf | (e & Hge & Hte)]]; try discriminate.
    rewrite Hge. cbn [must bind]. now rewrite Hte. }
  destruct Hinfo as (ps & Hinfo & Hk). unfold metadata.
  rewrite Hl, Hinfo. cbn [negb truthy js_or converts]. rewrite Hk.
  destruct (converts json); reflexivity.
Qed.

(** What [metadata] has done when it yields. *)
Lemma metadata_yield_inv (fs : FeatureService) (meta : val) :
  snd (metadata fs) = Yield meta ->
  exists info oid size cv,
    layerInfo fs = Yield info
    /\ getObjectIdField info = Yield oid
    /\ get info "maxRecordCount" = Some size
    /\ get info "currentVersion" = Some cv
    /\ ((truthy cv = false
         /\ meta = VObj [("layer", info); ("oid", oid); ("size", size)]
         /\ fst (metadata fs) = [layerInfo_url fs])
        \/ (truthy cv = true
            /\ fst (metadata fs) = [layerInfo_url fs; countUrl fs]
            /\ exists json count,
                 featureCount fs = Yield json
                 /\ get json "count" = Some count
                 /\ converts count = true
                 /\ js_lt_num count 1 = false
                 /\ meta = VObj [("layer", info); ("oid", oid); ("size", size);
                                 ("count", count)])).
Proof.
  unfold metadata.
  destruct (converts (layer fs)); cbn [negb]; [| discriminate].
  destruct (layerInfo fs) as [info | e |] eqn:Hinfo; [| | discriminate].
  - destruct (getObjectIdField info) as [oid | e |] eqn:Hoid; cbn [bind must];
      [| discriminate | discriminate].
    destruct (get info "maxRecordCount") as [size |] eqn:Hsize; cbn [bind must];
      [| discriminate].
    destruct (get info "currentVersion") as [cv |] eqn:Hver; cbn [bind must];
      [| discriminate].
    destruct (truthy cv) eqn:Hcv; cbn [negb snd fst].
    + destruct (featureCount fs) as [json | e |] eqn:Hfc; [| | discriminate].
      * destruct (get json "count") as [count |] eqn:Hcount; cbn [bind must];
          [| discriminate].
        destruct (converts count) eqn:Hconv; cbn [negb]; [| discriminate].
        destruct (js_lt_num count 1) eqn:Hlt; [discriminate |].
        cbn [set assoc_set String.eqb Ascii.eqb Bool.eqb bind must].
        intros [= <-]. exists info, oid, size, cv.
        split; [reflexivity |]. split; [exact Hoid |]. split; [exact Hsize |].
        split; [exact Hver |].
        right. split; [exact Hcv |]. split; [reflexivity |].
        exists json, count. repeat split; assumption.
      * destruct (truthy e); discriminate.
    + intros [= <-]. exists info, oid, size, cv.
      split; [reflexivity |]. split; [exact Hoid |]. split; [exact Hsize |].
      split; [exact Hver |].
      left. split; [exact Hcv |]. split; reflexivity.
  - destruct (truthy e).
    + cbn [snd]. destruct (converts _); discriminate.
    + cbn. discriminate.
Qed.

(** X18. When [metadata] yields, it has made the layer request first
    and at most the count request after it; [size] is the
    maxRecordCount of the layer it yields and [oid] its object id
    field; and a count it yields is never below 1. *)
Theorem metadata_yield_shape (fs : FeatureService) (meta : val) :
  snd (metadata fs) = Yield meta ->
  exists info oid size,
    layerInfo fs = Yield info
    /\ getObjectIdField info = Yield oid
    /\ get info "maxRecordCount" = Some size
    /\ get meta "layer" = Some info
    /\ get meta "oid" = Some oid
    /\ get meta "size" = Some size
    /\ ((get meta "count" = Some VUndef /\ fst (metadata fs) = [layerInfo_url fs])
        \/ (exists count,
              get meta "count" = Some count
              /\ js_lt_num count 1 = false
              /\ (forall C, count = VNum C -> 1 <= C)
              /\ fst (metadata fs) = [layerInfo_url fs; countUrl fs])).
Proof.
  intros Hm.
  destruct (metadata_yield_inv fs meta Hm)
    as (info & oid & size & cv & Hinfo & Hoid & Hsize & Hcv & Hcase).
  exists info, oid, size. split; [exact Hinfo |]. split; [exact Hoid |].
  split; [exact Hsize |].
  destruct Hcase as [(_ & -> & Hlog)
                    | (_ & Hlog & json & count & _ & _ & _ & Hlt & ->)].
  - repeat split. left. split; [reflexivity | exact Hlog].
  - repeat split. right. exists count. repeat split; try assumption.
    intros C ->. unfold js_lt_num, ToNumber in Hlt.
    destruct (Z.ltb_spec C 1); [discriminate | lia].
Qed.

End MetadataReports.

(** [metadata_layer_error_opaque] on a server that answers the layer
    request with an error payload. *)
Lemma metadata_layer_error_opaque_witness :
  @metadata Sample.platform
    (Sample.constant_server VUndef Sample.error_payload) Sample.service
  = ([@layerInfo_url Sample.service], Fail (new_Error "[object Object]")).
Proof.
  apply (@metadata_layer_error_opaque Sample.platform
           (Sample.constant_server VUndef Sample.error_payload)
           Sample.service VUndef Sample.error_payload).
  - reflexivity.
  - reflexivity.
  - exact I.
  - right. right. eexists. split; reflexivity.
Defined.

(** [metadata_yield_shape] on the paging server with 2500 features. *)
Lemma metadata_yield_shape_witness :
  exists info oid size,
    @layerInfo Sample.platform (Sample.server Sample.paging_layer 2500)
      Sample.service = Yield info
    /\ getObjectIdField info = Yield oid
    /\ get info "maxRecordCount" = Some size
    /\ get Sample.paging_meta "size" = Some size.
Proof.
  destruct (@metadata_yield_shape Sample.platform
              (Sample.server Sample.paging_layer 2500) Sample.service
              Sample.paging_meta eq_refl)
    as (info & oid & size & Hinfo & Hoid & Hsize & _ & _ & Hmsize & _).
  exists info, oid, size. repeat split; assumption.
Defined.

(** ** Sorting the object ids *)

Lemma insert_id_perm (x : Z) (l : list Z) : Permutation (x :: l) (insert_id x l).
Proof.
  induction l as [| y l IH]; cbn [insert_id]; [reflexivity |].
  destruct (x <=? y); [reflexivity |].
  rewrite perm_swap. now apply perm_skip.
Qed.

Lemma sort_ids_perm (l : list Z) : Permutation l (sort_ids l).
Proof.
  induction l as [| x l IH]; cbn [sort_ids]; [reflexivity |].
  rewrite <- insert_id_perm. now apply perm_skip.
Qed.

Lemma insert_id_sorted (x : Z) (l : list Z) :
  Sorted Z.le l -> Sorted Z.le (insert_id x l).
Proof.
  induction 1 as [| y l Hs IH Hhd]; cbn [insert_id].
  - repeat constructor.
  - destruct (x <=? y) eqn:Hxy.
    + constructor; [now constructor |]. constructor. lia.
    + constructor; [exact IH |].
      destruct Hhd as [| z l Hyz]; cbn [insert_id].
      * constructor. lia.
      * destruct (x <=? z); constructor; lia.
Qed.

Lemma sort_ids_sorted (l : list Z) : Sorted Z.le (sort_ids l).
Proof.
  induction l as [| x l IH]; cbn [sort_ids]; [constructor |].
  now apply insert_id_sorted.
Qed.

Lemma numbers_of_map (ns : list Z) : numbers_of (map VNum ns) = Some ns.
Proof.
  induction ns as [| n ns IH]; cbn [map numbers_of]; [reflexivity |].
  now rewrite IH.
Qed.

(** ** The strategy [pages] takes *)


Section PagesStrategy.
Context `{Platform} `{Network} `{Engine}.

(** The id request does not depend on the options. *)
Lemma layerIds_options (fs : FeatureService) (o' : val) :
  layerIds {| url := url fs; options := o'; layer := layer fs;
              timeOut := timeOut fs; concurrency := concurrency fs |}
  = layerIds fs.
Proof. reflexivity. Qed.

(** [metadata] for a layer without a truthy [currentVersion]. *)
Lemma metadata_unversioned (fs : FeatureService) (info oid size cv : val) :
  layerInfo fs = Yield info ->
  getObjectIdField info = Yield oid ->
  get info "maxRecordCount" = Some size ->
  get info "currentVersion" = Some cv ->
  truthy cv = false ->
  metadata fs
  = ([layerInfo_url fs], Yield (VObj [("layer", info); ("oid", oid); ("size", size)])).
Proof.
  intros Hinfo Hoid Hsize Hcv Hf. unfold metadata.
  rewrite (layerInfo_converts fs) by (rewrite Hinfo; discriminate).
  cbn [negb].
  rewrite Hinfo, Hoid. cbn [bind must]. rewrite Hsize, Hcv. cbn [bind must].
  now rewrite Hf.
Qed.


(** X19. A layer that advertises pagination but reports no
    [currentVersion] gets no page at all: [metadata] leaves the count
    out, the number of pages is then not a number, the loop of
    [_offsetPages] does not run, and [pages] calls back with an empty
    list and without an error.  (Only a [maxRecordCount] that does not
    convert to a string stops it earlier: [parseInt] throws on it.) *)
Theorem pages_unversioned_pagination_is_empty (u : string) (o : val)
  (fs : FeatureService) (info oid size cv aqc sp : val) :
  new_FeatureService u o = Some fs ->
  layerInfo fs = Yield info ->
  getObjectIdField info = Yield oid ->
  get info "maxRecordCount" = Some size ->
  get info "currentVersion" = Some cv ->
  truthy cv = false ->
  get info "advancedQueryCapabilities" = Some aqc ->
  truthy aqc = true ->
  get aqc "supportsPagination" = Some sp ->
  truthy sp = true ->
  pages fs = if converts size then Yield [] else Crash.
Proof.
  intros Hnew Hinfo Hoid Hsize Hcv Hf Haqc Haqct Hsp Hspt.
  destruct (new_FeatureService_options u o fs Hnew) as [l Hl].
  destruct (set_total (options fs) l oid "layer" "objectIdField" Hl) as [o' Hset].
  unfold pages.
  rewrite (metadata_unversioned fs info oid size cv Hinfo Hoid Hsize Hcv Hf).
  cbn [snd]. cbv beta zeta.
  cbn [get assoc String.eqb Ascii.eqb Bool.eqb bind must].
  rewrite Hset. cbn [bind must].
  destruct (converts size); cbn [negb converts]; [| reflexivity].
  rewrite Haqc. cbn [bind must]. rewrite Haqct, Hsp. cbn [bind must].
  rewrite Hspt. reflexivity.
Qed.


(** X21. [pages] reports no error of its own: an error it calls back
    with is the error [metadata] failed with or the error the id list
    request failed with.  A failure of the statistics request is never
    reported. *)
Theorem pages_error_origin (fs : FeatureService) (err : val) :
  pages fs = Fail err ->
  snd (metadata fs) = Fail err \/ layerIds fs = Fail err.
Proof.
  assert (Hbuilt : forall vs reqs, built vs reqs <> Fail err).
  { intros vs reqs. unfold built. destruct reqs; [discriminate |].
    destruct (forallb converts vs); discriminate. }
  assert (Hmust : forall o : option (list task), must o <> Fail err).
  { intros [x |]; discriminate. }
  assert (Hidp : forall fs' ids size, id_pages fs' ids size <> Fail err).
  { intros fs' ids size. unfold id_pages.
    destruct ids as [| | b | n | s | es ps | ps]; try apply Hmust.
    destruct (numbers_of es); [apply Hbuilt | apply Hmust]. }
  assert (Hrange : forall fs' stats size, range_pages fs' stats size <> Fail err).
  { intros fs' stats size. unfold range_pages.
    destruct (get stats "max") as [max |]; cbn [bind must]; [| discriminate].
    destruct (get stats "min") as [min |]; cbn [bind must]; [| discriminate].
    destruct min; try apply Hmust. destruct max; try apply Hmust. apply Hbuilt. }
  assert (Hids : forall o' size,
             pages_from_ids
               {| url := url fs; options := o'; layer := layer fs;
                  timeOut := timeOut fs; concurrency := concurrency fs |} size
             = Fail err ->
             layerIds fs = Fail err).
  { intros o' size. unfold pages_from_ids. rewrite layerIds_options.
    destruct (layerIds fs) as [ids | e |]; [| | discriminate].
    - intros Hc. now apply Hidp in Hc.
    - destruct (truthy e); [intros [= ->]; reflexivity | discriminate]. }
  unfold pages.
  destruct (snd (metadata fs)) as [meta | e |]; [| | discriminate].
  - cbv beta zeta. intros Hp. right. revert Hp.
    destruct (get meta "size") as [size |]; cbn [bind must]; [| discriminate].
    destruct (get meta "layer") as [info |]; cbn [bind must]; [| discriminate].
    destruct (get meta "oid") as [oid |]; cbn [bind must]; [| discriminate].
    destruct (set (options fs) "objectIdField" oid) as [o' |]; cbn [bind must];
      [| discriminate].
    destruct (converts size); cbn [negb]; [| discriminate].
    destruct (get meta "count") as [count |]; cbn [bind must]; [| discriminate].
    destruct (converts count); cbn [negb]; [| discriminate].
    destruct (get info "advancedQueryCapabilities") as [aqc |]; cbn [bind must];
      [| discriminate].
    set (fs' := {| url := url fs; options := o'; layer := layer fs;
                   timeOut := timeOut fs; concurrency := concurrency fs |}).
    assert (Hrest : forall canPage,
               (if truthy canPage
                then built [page_layer fs']
                       (_offsetPages fs' (page_count count (effective_size size))
                          (effective_size size))
                else
                  supportsStatistics <- must (get info "supportsStatistics") ;;
                  if truthy supportsStatistics
                  then match _getIdRangeFromStats fs' meta with
                       | Yield stats => range_pages fs' stats (effective_size size)
                       | Fail err0 =>
                           if truthy err0
                           then pages_from_ids fs' (effective_size size)
                           else Crash
                       | Crash => Crash
                       end
                  else pages_from_ids fs' (effective_size size)) = Fail err ->
               layerIds fs = Fail err).
    { intros canPage. destruct (truthy canPage).
      - intros Hc. now apply Hbuilt in Hc.
      - destruct (get info "supportsStatistics") as [ss |]; cbn [bind must];
          [| discriminate].
        destruct (truthy ss); [| apply Hids].
        destruct (_getIdRangeFromStats fs' meta) as [stats | e |];
          [| | discriminate].
        + intros Hc. now apply Hrange in Hc.
        + destruct (truthy e); [apply Hids | discriminate]. }
    destruct (truthy aqc).
    + destruct (get aqc "supportsPagination") as [sp |]; cbn [bind must];
        [apply Hrest | discriminate].
    + cbn [bind must]. apply Hrest.
  - destruct (truthy e).
    + intros [= ->]. left. reflexivity.
    + cbn. discriminate.
Qed.

End PagesStrategy.

(** [pages_unversioned_pagination_is_empty] on a server whose layer
    advertises pagination and no version. *)
Lemma pages_unversioned_pagination_is_empty_witness :
  @pages Sample.platform (Sample.server Sample.unversioned_paging_layer 2500)
    Sample.engine Sample.service
  = Yield [].
Proof.
  apply (@pages_unversioned_pagination_is_empty Sample.platform
           (Sample.server Sample.unversioned_paging_layer 2500) Sample.engine
           "http://example.com/FeatureServer" VUndef Sample.service
           (Sample.with_url Sample.unversioned_paging_layer)
           (VStr "OBJECTID") (VNum 1000) VUndef
           (VObj [("supportsPagination", VBool true)]) (VBool true));
    reflexivity.
Defined.


(** [pages_error_origin] on a server whose layer request fails. *)
Lemma pages_error_origin_witness :
  snd (@metadata Sample.platform (Sample.constant_server VUndef VNull)
         Sample.service)
  = Fail (new_Error "[object Object]")
  \/ @layerIds Sample.platform (Sample.constant_server VUndef VNull)
       Sample.engine Sample.service
     = Fail (new_Error "[object Object]").
Proof.
  apply (@pages_error_origin Sample.platform (Sample.constant_server VUndef VNull)
           Sample.engine Sample.service). reflexivity.
Defined.

(** ** Object ids and their statistics *)

Section ObjectIds.
Context `{Platform} `{Network} `{Engine}.

(** X22. When the id request succeeds with an array of numbers,
    [layerIds] calls back with the same array object holding the same
    ids, none lost or added, in ascending order. *)
Theorem layerIds_sorted_permutation (fs : FeatureService) (err json : val)
  (ns : list Z) (ps : list (string * val)) :
  request (layerIds_url fs) = Yield (err, json) ->
  truthy err = false ->
  get json "objectIds" = Some (VArr (map VNum ns) ps) ->
  exists sorted,
    layerIds fs = (if converts (layer fs)
                   then Yield (VArr (map VNum sorted) ps)
                   else Crash)
    /\ Sorted Z.le sorted
    /\ Permutation ns sorted.
Proof.
  intros Hreq Herr Hget. exists (sort_ids ns).
  split; [| split; [apply sort_ids_sorted | apply sort_ids_perm]].
  unfold layerIds. destruct (converts (layer fs)); cbn [negb]; [| reflexivity].
  rewrite Hreq. cbn [bind]. rewrite Herr, Hget. cbn [bind must truthy negb].
  unfold sort_objectIds. now rewrite numbers_of_map.
Qed.

(** X23. [layerIds] throws before its callback runs when [this.layer]
    does not convert to a string or [request] throws (a malformed
    escape in the url).  Once [request] has called back, it throws in
    exactly three situations, all without a transport error: the
    payload is [undefined] or [null] (reading [objectIds] throws, where
    [layerInfo] tests the payload first); [objectIds] is truthy but not
    an array (it has no [sort]); or the comparator [a - b] throws on an
    element of [objectIds].  In every other situation it calls back,
    with a truthy error or with the ids. *)
Theorem layerIds_throws_iff (fs : FeatureService) :
  layerIds fs = Crash
  <-> converts (layer fs) = false
      \/ request (layerIds_url fs) = Crash
      \/ exists err json,
           request (layerIds_url fs) = Yield (err, json)
           /\ truthy err = false
           /\ (json = VUndef \/ json = VNull
               \/ exists o,
                    get json "objectIds" = Some o /\ truthy o = true
                    /\ ((forall es ps, o <> VArr es ps)
                        \/ exists es ps,
                             o = VArr es ps /\ numbers_of es = None
                             /\ sort_mixed es = None)).
Proof.
  unfold layerIds.
  destruct (converts (layer fs)); cbn [negb]; [| split; [now left | reflexivity]].
  destruct (request_cases (layerIds_url fs)) as [Hreq | (err & json & Hreq)];
    rewrite Hreq; cbn [bind].
  { split; [intros _; right; now left | reflexivity]. }
  destruct (buildError_truthy (layerIds_url fs) "Request for object ids failed"
              json) as (error & Hb & _).
  rewrite Hb. cbn [bind must].
  split.
  - intros Hc. right. right. exists err, json. split; [reflexivity |].
    destruct (truthy err); [discriminate |]. split; [reflexivity |].
    destruct (get json "objectIds") as [o |] eqn:Ho; cbn [bind must] in Hc.
    + right. right. exists o. split; [reflexivity |].
      destruct (truthy o) eqn:Hto; cbn [negb] in Hc; [| discriminate].
      split; [reflexivity |]. unfold sort_objectIds in Hc.
      destruct o as [| | b | n | s | es ps | ps];
        try (left; intros es' ps'; discriminate).
      right. exists es, ps. split; [reflexivity |].
      destruct (numbers_of es); [discriminate |]. split; [reflexivity |].
      destruct (sort_mixed es); [discriminate | reflexivity].
    + destruct json; try discriminate; auto.
  - intros [Hf | [Hf | (err' & json' & [= <- <-] & Herr & Hwhy)]];
      [discriminate | discriminate |].
    rewrite Herr.
    destruct Hwhy as [-> | [-> | (o & Ho & Hto & Hwhy)]];
      [reflexivity | reflexivity |].
    rewrite Ho. cbn [bind must]. rewrite Hto. cbn [negb].
    unfold sort_objectIds.
    destruct Hwhy as [Hna | (es & ps & -> & Hn & Hs)].
    + destruct o as [| | b | n | s | es ps | ps]; try reflexivity.
      now destruct (Hna es ps).
    + now rewrite Hn, Hs.
Qed.

(** X24. [featureCount] throws before its callback runs when the layer
    does not convert to a string or [request] throws.  Once [request]
    has called back, it throws exactly when there is no transport error
    and the payload is [undefined] or [null]; otherwise it calls back,
    with a truthy error or with the payload as it came. *)
Theorem featureCount_throws_iff (fs : FeatureService) :
  (featureCount fs = Crash
   <-> converts (js_or (layer fs) (VNum 0)) = false
       \/ request (countUrl fs) = Crash
       \/ exists err json,
            request (countUrl fs) = Yield (err, json)
            /\ truthy err = false /\ (json = VUndef \/ json = VNull))
  /\ (forall e, featureCount fs = Fail e -> truthy e = true)
  /\ (forall v, featureCount fs = Yield v ->
        exists err, request (countUrl fs) = Yield (err, v)
                    /\ truthy err = false).
Proof.
  unfold featureCount.
  destruct (converts (js_or (layer fs) (VNum 0))); cbn [negb].
  2:{ split; [split; [now left | reflexivity] |]. split; discriminate. }
  destruct (request_cases (countUrl fs)) as [Hreq | (err & json & Hreq)];
    rewrite Hreq; cbn [bind].
  { split; [split; [intros _; right; now left | reflexivity] |].
    split; discriminate. }
  destruct (buildError_truthy (countUrl fs) "Request for feature count failed"
              json) as (error & Hb & Ht).
  rewrite Hb. cbn [bind must].
  assert (Hno : forall P : Prop,
             (true = false
              \/ Yield (err, json) = Crash
              \/ P) -> P).
  { intros P [Hf | [Hf | HP]]; [discriminate | discriminate | exact HP]. }
  destruct (truthy err) eqn:Herr.
  { split; [split; [discriminate |] |].
    - intros Hc. apply Hno in Hc.
      destruct Hc as (err' & json' & [= <- <-] & Hf & _). congruence.
    - split; [intros e [= <-]; exact Ht | discriminate]. }
  destruct (get json "error") as [e |] eqn:He; cbn [bind must].
  - destruct (truthy e).
    + split; [split; [discriminate |] |].
      * intros Hc. apply Hno in Hc.
        destruct Hc as (err' & json' & [= <- <-] & _ & [-> | ->]); discriminate.
      * split; [intros e' [= <-]; exact Ht | discriminate].
    + split; [split; [discriminate |] |].
      * intros Hc. apply Hno in Hc.
        destruct Hc as (err' & json' & [= <- <-] & _ & [-> | ->]); discriminate.
      * split; [discriminate |]. intros v [= <-]. exists err.
        split; [reflexivity | exact Herr].
  - split; [| split; discriminate].
    split; [| reflexivity]. intros _. right. right. exists err, json.
    split; [reflexivity |]. split; [exact Herr |].
    destruct json; try discriminate; auto.
Qed.

(** [statistics] hands the answer of [request] on as it is. *)
Lemma statistics_never_fails (fs : FeatureService) (field : val)
  (stats : list string) (e : val) :
  statistics fs field stats <> Fail e.
Proof.
  unfold statistics.
  destruct (negb _); [discriminate |].
  destruct (request_cases (_statsUrl fs field stats)) as [-> | (err & json & ->)];
    discriminate.
Qed.

(** X25. [_getIdRangeFromStats] hides why the statistics failed: when it
    calls back with an error, a transport error or an [error] in the
    payload was there, and the error handed on is a fresh
    [Error('statistics request failed')] that carries neither. *)
Theorem idRange_failure_opaque (fs : FeatureService) (meta e : val) :
  _getIdRangeFromStats fs meta = Fail e ->
  e = new_Error "statistics request failed"
  /\ exists oid reqErr stats,
       get meta "oid" = Some oid
       /\ statistics fs oid ["min"; "max"] = Yield (reqErr, stats)
       /\ (truthy reqErr = true
           \/ exists e', get stats "error" = Some e' /\ truthy e' = true).
Proof.
  unfold _getIdRangeFromStats.
  destruct (get meta "oid") as [oid |] eqn:Hoid; cbn [bind must]; [| discriminate].
  destruct (statistics fs oid ["min"; "max"]) as [[reqErr stats] | x |] eqn:Hst;
    cbn [bind]; [| | discriminate].
  2:{ exfalso. now apply statistics_never_fails in Hst. }
  destruct (truthy reqErr) eqn:Hre.
  { intros [= <-]. split; [reflexivity |]. exists oid, reqErr, stats. auto. }
  destruct (get stats "error") as [e' |] eqn:He; cbn [bind must]; [| discriminate].
  destruct (truthy e') eqn:Hte.
  { intros [= <-]. split; [reflexivity |]. exists oid, reqErr, stats.
    split; [reflexivity |]. split; [exact Hst |]. right. exists e'. auto. }
  destruct (get stats "features") as [features |]; cbn [bind must]; [| discriminate].
  destruct (index0 features) as [feature |]; cbn [bind must]; [| discriminate].
  destruct (get feature "attributes") as [attrs |]; cbn [bind must]; [| discriminate].
  destruct (if truthy stats then must (get stats "fieldAliases") else Yield stats)
    as [aliases | x |] eqn:Ha; cbn [bind must].
  - destruct (truthy aliases && negb (is_object aliases) && keys_throw aliases);
      [discriminate |].
    unfold stat_value.
    repeat match goal with
           | |- context [must (get ?a ?k)] =>
               destruct (get a k); cbn [bind must]; [| discriminate]
           | |- context [if truthy ?v then _ else _] =>
               destruct (truthy v); cbn [bind must]
           end; discriminate.
  - exfalso. destruct (truthy stats); [| discriminate].
    destruct (get stats "fieldAliases"); discriminate.
  - discriminate.
Qed.

(** X26. Without [fieldAliases] in the payload, [_getIdRangeFromStats]
    yields only when the minimum and the maximum are both truthy under
    the name [min] or [MIN] and [max] or [MAX]; a minimum or maximum
    that is missing or 0 makes it throw (there are no names to index),
    and the callback is not called. *)
Theorem idRange_without_aliases (fs : FeatureService)
  (meta oid reqErr stats e features feature attrs aliases lo LO hi HI : val) :
  get meta "oid" = Some oid ->
  statistics fs oid ["min"; "max"] = Yield (reqErr, stats) ->
  truthy reqErr = false ->
  get stats "error" = Some e -> truthy e = false ->
  get stats "features" = Some features ->
  index0 features = Some feature ->
  get feature "attributes" = Some attrs ->
  truthy stats = true ->
  get stats "fieldAliases" = Some aliases -> truthy aliases = false ->
  get attrs "min" = Some lo -> get attrs "MIN" = Some LO ->
  get attrs "max" = Some hi -> get attrs "MAX" = Some HI ->
  _getIdRangeFromStats fs meta
  = if truthy (js_or lo LO) && truthy (js_or hi HI)
    then Yield (VObj [("min", js_or lo LO); ("max", js_or hi HI)])
    else Crash.
Proof.
  intros Hoid Hst Hre He Hte Hf Hi Hattrs Hts Hal Hta Hlo HLO Hhi HHI.
  unfold _getIdRangeFromStats. rewrite Hoid. cbn [bind must].
  rewrite Hst. cbn [bind]. rewrite Hre, He. cbn [bind must].
  rewrite Hte, Hf. cbn [bind must].
  rewrite Hi. cbn [bind must]. rewrite Hattrs. cbn [bind must].
  rewrite Hts, Hal. cbn [bind must]. rewrite Hta. cbn [andb].
  unfold stat_value, js_or. rewrite Hlo, Hhi, HLO, HHI, Hta. cbn [bind must].
  destruct (truthy lo) eqn:Hl; cbn [bind must].
  - rewrite Hl. cbn [andb].
    destruct (truthy hi) eqn:Hh; cbn [bind must]; [now rewrite Hh |].
    destruct (truthy HI) eqn:HH; cbn [bind must]; reflexivity.
  - destruct (truthy LO) eqn:HL; cbn [bind must andb]; [| reflexivity].
    destruct (truthy hi) eqn:Hh; cbn [bind must]; [now rewrite Hh |].
    destruct (truthy HI) eqn:HH; cbn [bind must]; reflexivity.
Qed.

End ObjectIds.

(** [layerIds_sorted_permutation] on ten ids out of order. *)
Lemma layerIds_sorted_permutation_witness :
  exists sorted,
    @layerIds Sample.platform (Sample.constant_server VUndef Sample.ids_payload)
      Sample.engine Sample.service
    = Yield (VArr (map VNum sorted) [])
    /\ Sorted Z.le sorted
    /\ Permutation [3; 1; 2; 10; 9; 8; 7; 6; 5; 4] sorted.
Proof.
  apply (@layerIds_sorted_permutation Sample.platform
           (Sample.constant_server VUndef Sample.ids_payload)
           Sample.engine Sample.service VUndef Sample.ids_payload
           [3; 1; 2; 10; 9; 8; 7; 6; 5; 4] []); reflexivity.
Defined.

(** [idRange_failure_opaque] on a server whose requests fail with a
    transport error. *)
Lemma idRange_failure_opaque_witness :
  new_Error "statistics request failed" = new_Error "statistics request failed"
  /\ exists oid reqErr stats,
       get (VObj [("oid", VStr "FID")]) "oid" = Some oid
       /\ @statistics Sample.platform
            (Sample.constant_server (VStr "ECONNRESET") VUndef)
            Sample.service oid ["min"; "max"] = Yield (reqErr, stats)
       /\ (truthy reqErr = true
           \/ exists e', get stats "error" = Some e' /\ truthy e' = true).
Proof.
  apply (@idRange_failure_opaque Sample.platform
           (Sample.constant_server (VStr "ECONNRESET") VUndef)
           Sample.engine Sample.service
           (VObj [("oid", VStr "FID")])).
  reflexivity.
Defined.

(** [idRange_without_aliases] on a layer whose smallest id is 0. *)
Lemma idRange_without_aliases_witness :
  @_getIdRangeFromStats Sample.platform
    (Sample.constant_server VUndef Sample.zero_min_stats)
    Sample.engine Sample.service
    (VObj [("oid", VStr "FID")])
  = Crash.
Proof.
  exact (@idRange_without_aliases Sample.platform
           (Sample.constant_server VUndef Sample.zero_min_stats)
           Sample.engine Sample.service
           (VObj [("oid", VStr "FID")]) (VStr "FID") VUndef
           Sample.zero_min_stats VUndef
           (VArr [VObj [("attributes",
                         VObj [("min", VNum 0); ("max", VNum 250)])]] [])
           (VObj [("attributes", VObj [("min", VNum 0); ("max", VNum 250)])])
           (VObj [("min", VNum 0); ("max", VNum 250)])
           VUndef (VNum 0) VUndef (VNum 250) VUndef
           eq_refl eq_refl eq_refl eq_refl eq_refl eq_refl eq_refl eq_refl
           eq_refl eq_refl eq_refl eq_refl eq_refl eq_refl eq_refl).
Defined.
